(** * holedaemon/fileserver: conditional requests and byte ranges

    A shallow embedding of the request-independent core of the file server
    (helpers.go, cond.go and the content-delivery part of fileserver.go),
    together with the parts of the Go standard library those files call
    (strings, net/textproto, strconv, mime/multipart, io), and the
    verification of the properties stated for it.

    Go strings are byte sequences: they are embedded as [string] (a list of
    [ascii], one per byte).  An int64 is a [Z] with its wrap-around written
    out ([wrap64]); http.Header is a finite map from keys to value lists. *)

From Stdlib Require Import ZArith Lia Bool List Ascii String DecimalString DecimalPos.
From stdpp Require Import base gmap strings.

Import ListNotations.
Local Open Scope string_scope.
Local Open Scope Z_scope.

(* stdpp blocks the unfolding of string append under simpl; the proofs below
   compute with it. *)
#[local] Arguments String.append !s1 s2 / : simpl nomatch.

(** ** Go strings *)

Module GoString.

(** The numeric value of a byte. *)
Definition b2z (c : ascii) : Z := Z.of_N (N_of_ascii c).

Definition byte_eqb (a b : ascii) : bool := b2z a =? b2z b.

(** [len(s)] as an int. *)
Definition len (s : string) : Z := Z.of_nat (String.length s).

(** [s[n:]] for [n <= len(s)]. *)
Fixpoint sdrop (n : nat) (s : string) : string :=
  match n, s with
  | O, _ => s
  | S n', String _ s' => sdrop n' s'
  | S _, EmptyString => EmptyString
  end.

(** [s[:n]] for [n <= len(s)]. *)
Fixpoint stake (n : nat) (s : string) : string :=
  match n, s with
  | O, _ => EmptyString
  | S n', String c s' => String c (stake n' s')
  | S _, EmptyString => EmptyString
  end.

(** strings.HasPrefix *)
Fixpoint HasPrefix (s p : string) {struct p} : bool :=
  match p, s with
  | EmptyString, _ => true
  | String a p', String b s' => byte_eqb a b && HasPrefix s' p'
  | String _ _, EmptyString => false
  end.

(** strings.TrimPrefix *)
Definition TrimPrefix (s p : string) : string :=
  if HasPrefix s p then sdrop (String.length p) s else s.

(** strings.Split with a one-byte separator. *)
Fixpoint Split (s : string) (sep : ascii) : list string :=
  match s with
  | EmptyString => [EmptyString]
  | String c s' =>
      if byte_eqb c sep then EmptyString :: Split s' sep
      else match Split s' sep with
           | h :: t => String c h :: t
           | [] => [String c EmptyString]
           end
  end.

(** strings.Cut with a one-byte separator: (before, after, found). *)
Fixpoint Cut (s : string) (sep : ascii) : string * string * bool :=
  match s with
  | EmptyString => (EmptyString, EmptyString, false)
  | String c s' =>
      if byte_eqb c sep then (EmptyString, s', true)
      else let '(b, a, f) := Cut s' sep in (String c b, a, f)
  end.

(** textproto.isASCIISpace *)
Definition isASCIISpace (b : ascii) : bool :=
  byte_eqb b " " || byte_eqb b "009" || byte_eqb b "010" || byte_eqb b "013".

(** First loop of textproto.TrimString: drop leading space. *)
Fixpoint trimLeft (s : string) : string :=
  match s with
  | EmptyString => EmptyString
  | String c s' => if isASCIISpace c then trimLeft s' else s
  end.

(** Second loop of textproto.TrimString: drop trailing space. *)
Fixpoint trimRight (s : string) : string :=
  match s with
  | EmptyString => EmptyString
  | String c s' =>
      match trimRight s' with
      | EmptyString => if isASCIISpace c then EmptyString else String c EmptyString
      | t => String c t
      end
  end.

(** textproto.TrimString *)
Definition TrimString (s : string) : string := trimRight (trimLeft s).

(** The double-quote byte. *)
Definition dquote : ascii := "034".

Definition CRLF : string := String "013" (String "010" EmptyString).

(** [s == ""] *)
Definition isEmpty (s : string) : bool :=
  match s with EmptyString => true | _ => false end.

End GoString.

Export GoString.

(** ** Machine integers *)

Definition maxInt64 : Z := 2 ^ 63 - 1.
Definition minInt64 : Z := - 2 ^ 63.
Definition maxUint64 : Z := 2 ^ 64 - 1.

(** Two's-complement wrap-around of int64 arithmetic. *)
Definition wrap64 (z : Z) : Z := (z + 2 ^ 63) mod 2 ^ 64 - 2 ^ 63.

(** Wrap-around of uint64 arithmetic. *)
Definition wrapU64 (z : Z) : Z := z mod 2 ^ 64.

(** ** Errors *)

(** The error values that travel through the code: strconv's two sentinel
    errors, the anonymous [errors.New("invalid range")] of parseRange, the
    package variable errNoOverlap, and the errors of the io layer (io.EOF,
    io.ErrClosedPipe, a seek to a negative offset). *)
Inductive error : Type :=
| ErrSyntax
| ErrRange
| ErrInvalidRange
| errNoOverlap
| EOF
| ErrClosedPipe
| ErrNegativePosition.

Definition error_eqb (a b : error) : bool :=
  match a, b with
  | ErrSyntax, ErrSyntax | ErrRange, ErrRange
  | ErrInvalidRange, ErrInvalidRange | errNoOverlap, errNoOverlap
  | EOF, EOF | ErrClosedPipe, ErrClosedPipe
  | ErrNegativePosition, ErrNegativePosition => true
  | _, _ => false
  end.

(** [err != nil] *)
Definition isErr (e : option error) : bool :=
  match e with Some _ => true | None => false end.

(** ** strconv *)

Module strconv.

(** strconv.lower *)
Definition lower (c : ascii) : Z := Z.lor (b2z c) 32.

(** The loop of strconv.ParseUint for base 10 and bitSize 64; [n] is the
    uint64 accumulator.  The underscore case needs base 0 and is
    unreachable here. *)
Fixpoint ParseUint_loop (s : string) (n : Z) : Z * option error :=
  match s with
  | EmptyString => (n, None)
  | String c s' =>
      let cutoff := maxUint64 / 10 + 1 in
      let digit :=
        if (48 <=? b2z c) && (b2z c <=? 57) then Some (b2z c - 48)
        else if (97 <=? lower c) && (lower c <=? 122) then Some (lower c - 97 + 10)
        else None in
      match digit with
      | None => (0, Some ErrSyntax)
      | Some d =>
          if d >=? 10 then (0, Some ErrSyntax)
          else if n >=? cutoff then (maxUint64, Some ErrRange)
          else
            let n10 := wrapU64 (n * 10) in
            let n1 := wrapU64 (n10 + d) in
            if (n1 <? n10) || (n1 >? maxUint64) then (maxUint64, Some ErrRange)
            else ParseUint_loop s' n1
      end
  end.

(** strconv.ParseUint(s, 10, 64) *)
Definition ParseUint (s : string) : Z * option error :=
  if isEmpty s then (0, Some ErrSyntax) else ParseUint_loop s 0.

(** strconv.ParseInt(s, 10, 64) *)
Definition ParseInt (s : string) : Z * option error :=
  match s with
  | EmptyString => (0, Some ErrSyntax)
  | String c0 rest =>
      let neg := byte_eqb c0 "-" in
      let s1 := if byte_eqb c0 "+" then rest else if neg then rest else s in
      let '(un, err) := ParseUint s1 in
      match err with
      | Some ErrRange | None =>
          let cutoff := 2 ^ 63 in
          if negb neg && (un >=? cutoff) then (cutoff - 1, Some ErrRange)
          else if neg && (un >? cutoff) then (- cutoff, Some ErrRange)
          else
            let n := wrap64 un in
            let n := if neg then wrap64 (- n) else n in
            (n, None)
      | Some e => (0, Some e)
      end
  end.

(** strconv.FormatInt(i, 10), which is also what fmt prints for %d. *)
Definition FormatInt (i : Z) : string := NilZero.string_of_int (Z.to_int i).

End strconv.

(** ** time.Time *)

(** A time.Time as the instant it denotes: seconds since the Unix epoch and
    nanoseconds within the second ([0 <= tnsec < 10^9]). *)
Record Time : Type := mkTime { tsec : Z; tnsec : Z }.

Module time.

(** Seconds from January 1, year 1 (Go's zero time) to the Unix epoch. *)
Definition unixToInternal : Z := 62135596800.

(** time.Unix(sec, nsec) for [0 <= nsec < 10^9]. *)
Definition Unix (sec nsec : Z) : Time := mkTime sec nsec.

(** t.IsZero(): the instant January 1, year 1, 00:00:00 UTC. *)
Definition IsZero (t : Time) : bool :=
  (tsec t =? - unixToInternal) && (tnsec t =? 0).

(** t.Equal(u) *)
Definition Equal (t u : Time) : bool :=
  (tsec t =? tsec u) && (tnsec t =? tnsec u).

(** t.Truncate(time.Second) *)
Definition TruncateSecond (t : Time) : Time := mkTime (tsec t) 0.

(** t.Compare(u): -1, 0 or +1. *)
Definition Compare (t u : Time) : Z :=
  if tsec t <? tsec u then -1
  else if tsec t >? tsec u then 1
  else if tnsec t <? tnsec u then -1
  else if tnsec t >? tnsec u then 1
  else 0.

(** t.Unix() *)
Definition UnixOf (t : Time) : Z := tsec t.

End time.

(** ** net/http: headers, requests, response writers *)

(** http.Header and textproto.MIMEHeader are map[string][]string. *)
Abbreviation Header := (gmap string (list string)).

Module http.

Definition MethodGet : string := "GET".
Definition MethodHead : string := "HEAD".

Definition StatusOK : Z := 200.
Definition StatusPartialContent : Z := 206.
Definition StatusNotModified : Z := 304.
Definition StatusPreconditionFailed : Z := 412.
Definition StatusRequestedRangeNotSatisfiable : Z := 416.
Definition StatusInternalServerError : Z := 500.

(** Header.Get.  Every key this package passes is a literal already in
    canonical form, on which textproto.CanonicalMIMEHeaderKey is the
    identity. *)
Definition Get (h : Header) (key : string) : string :=
  match h !! key with
  | Some (v :: _) => v
  | _ => ""
  end.

(** Header.Set, on canonical keys. *)
Definition Set_ (h : Header) (key value : string) : Header :=
  <[key := [value]]> h.

End http.

Record Request : Type := mkRequest {
  Method : string;
  rHeader : Header
}.

(** What a handler does to its http.ResponseWriter, in order. *)
Inductive Event : Type :=
| EvWriteHeader (code : Z)
| EvWrite (p : string).

(** An http.ResponseWriter: the header map it exposes and the calls made on
    it so far. *)
Record ResponseWriter : Type := mkResponseWriter {
  wHeader : Header;
  wEvents : list Event
}.

Definition withHeader (w : ResponseWriter) (h : Header) : ResponseWriter :=
  mkResponseWriter h (wEvents w).

(** w.WriteHeader(code) *)
Definition WriteHeader (w : ResponseWriter) (code : Z) : ResponseWriter :=
  mkResponseWriter (wHeader w) (wEvents w ++ [EvWriteHeader code]).

(** w.Write(p) *)
Definition WriteBody (w : ResponseWriter) (p : string) : ResponseWriter :=
  mkResponseWriter (wHeader w) (wEvents w ++ [EvWrite p]).

(** ** helpers.go *)

Definition isZeroTime (t : Time) : bool :=
  time.IsZero t || time.Equal t (time.Unix 0 0).

Definition writeNotModified (w : ResponseWriter) : ResponseWriter :=
  let h := wHeader w in
  let h := delete "Content-Type" h in
  let h := delete "Content-Length" h in
  let h := delete "Content-Encoding" h in
  let h := if negb (isEmpty (http.Get h "Etag")) then delete "Last-Modified" h else h in
  WriteHeader (withHeader w h) http.StatusNotModified.

(** The byte test of scanETag's switch: a character allowed inside an
    entity tag. *)
Definition etagc (c : ascii) : bool :=
  (b2z c =? 0x21) || ((b2z c >=? 0x23) && (b2z c <=? 0x7E)) || (b2z c >=? 0x80).

(** The for loop of scanETag: [rest] is [s[i:]]. *)
Fixpoint scanETag_loop (s : string) (i : nat) (rest : string) : string * string :=
  match rest with
  | EmptyString => ("", "")
  | String c rest' =>
      if etagc c then scanETag_loop s (S i) rest'
      else if byte_eqb c dquote then (stake (i + 1) s, sdrop (i + 1) s)
      else ("", "")
  end.

Definition scanETag (s : string) : string * string :=
  let s := TrimString s in
  let start := if HasPrefix s "W/" then 2%nat else 0%nat in
  if (len (sdrop start s) <? 2)
     || negb (match String.get start s with
              | Some c => byte_eqb c dquote
              | None => false
              end)
  then ("", "")
  else scanETag_loop s (start + 1) (sdrop (start + 1) s).

Definition etagStrongMatch (a b : string) : bool :=
  String.eqb a b && negb (isEmpty a)
  && match String.get 0 a with Some c => byte_eqb c dquote | None => false end.

Definition etagWeakMatch (a b : string) : bool :=
  String.eqb (TrimPrefix a "W/") (TrimPrefix b "W/").

Definition getHeader (h : Header) (key : string) : string :=
  match h !! key with
  | Some (v :: _) => v
  | _ => ""
  end.

(** ** cond.go *)

Inductive condResult : Type := condNone | condTrue | condFalse.

Definition condResult_eqb (a b : condResult) : bool :=
  match a, b with
  | condNone, condNone | condTrue, condTrue | condFalse, condFalse => true
  | _, _ => false
  end.

(** How one run of a [for] loop body sequence ends: by [return r], or by
    [break]. *)
Inductive loopExit : Type :=
| Return (r : condResult)
| Break.

Definition isGetOrHead (m : string) : bool :=
  String.eqb m http.MethodGet || String.eqb m http.MethodHead.

(** The loop of checkIfMatch.  Every iteration that continues shortens the
    buffer; [fuel] bounds the number of iterations and [None] means it ran
    out, which does not happen with the fuel checkIfMatch gives
    (checkIfMatch_total below). *)
Fixpoint checkIfMatch_loop (fuel : nat) (w : ResponseWriter) (im : string)
  : option loopExit :=
  match fuel with
  | O => None
  | S fuel' =>
      match TrimString im with
      | EmptyString => Some Break
      | String c rest as im =>
          if byte_eqb c "," then checkIfMatch_loop fuel' w rest
          else if byte_eqb c "*" then Some (Return condTrue)
          else
            let '(etag, remain) := scanETag im in
            if isEmpty etag then Some Break
            else if etagStrongMatch etag (getHeader (wHeader w) "Etag")
                 then Some (Return condTrue)
                 else checkIfMatch_loop fuel' w remain
      end
  end.

Definition checkIfMatch (w : ResponseWriter) (r : Request) : condResult :=
  let im := http.Get (rHeader r) "If-Match" in
  if isEmpty im then condNone
  else
    match checkIfMatch_loop (S (String.length im)) w im with
    | Some (Return res) => res
    | Some Break | None => condFalse
    end.

(** The loop of checkIfNoneMatch, with fuel in the same way
    (checkIfNoneMatch_total below). *)
Fixpoint checkIfNoneMatch_loop (fuel : nat) (w : ResponseWriter) (buf : string)
  : option loopExit :=
  match fuel with
  | O => None
  | S fuel' =>
      match TrimString buf with
      | EmptyString => Some Break
      | String c rest as buf =>
          if byte_eqb c "," then checkIfNoneMatch_loop fuel' w rest
          else if byte_eqb c "*" then Some (Return condFalse)
          else
            let '(etag, remain) := scanETag buf in
            if isEmpty etag then Some Break
            else if etagWeakMatch etag (getHeader (wHeader w) "Etag")
                 then Some (Return condFalse)
                 else checkIfNoneMatch_loop fuel' w remain
      end
  end.

Definition checkIfNoneMatch (w : ResponseWriter) (r : Request) : condResult :=
  let inm := http.Get (rHeader r) "If-None-Match" in
  if isEmpty inm then condNone
  else
    match checkIfNoneMatch_loop (S (String.length inm)) w inm with
    | Some (Return res) => res
    | Some Break | None => condFalse
    end.

Section Conditions.

(** http.ParseTime: the value it returns, or [None] for an error. *)
Variable ParseTime : string -> option Time.

(** t.UTC().Format(http.TimeFormat) *)
Variable FormatTime : Time -> string.

Definition setLastModified (w : ResponseWriter) (modtime : Time) : ResponseWriter :=
  if negb (isZeroTime modtime)
  then withHeader w (http.Set_ (wHeader w) "Last-Modified" (FormatTime modtime))
  else w.

Definition checkIfModifiedSince (r : Request) (modtime : Time) : condResult :=
  if negb (String.eqb (Method r) http.MethodGet)
     && negb (String.eqb (Method r) http.MethodHead)
  then condNone
  else
    let ims := http.Get (rHeader r) "If-Modified-Since" in
    if isEmpty ims || isZeroTime modtime then condNone
    else
      match ParseTime ims with
      | None => condNone
      | Some t =>
          let modtime := time.TruncateSecond modtime in
          if time.Compare modtime t <=? 0 then condFalse else condTrue
      end.

Definition checkIfUnmodifiedSince (r : Request) (modtime : Time) : condResult :=
  let ius := http.Get (rHeader r) "If-Unmodified-Since" in
  if isEmpty ius || isZeroTime modtime then condNone
  else
    match ParseTime ius with
    | None => condNone
    | Some t =>
        let modtime := time.TruncateSecond modtime in
        if time.Compare modtime t <=? 0 then condTrue else condFalse
    end.

Definition checkIfRange (w : ResponseWriter) (r : Request) (modtime : Time)
  : condResult :=
  if negb (String.eqb (Method r) http.MethodGet)
     && negb (String.eqb (Method r) http.MethodHead)
  then condNone
  else
    let ir := http.Get (rHeader r) "If-Range" in
    if isEmpty ir then condNone
    else
      let '(etag, _) := scanETag ir in
      if negb (isEmpty etag) then
        if etagStrongMatch etag (http.Get (wHeader w) "Etag")
        then condTrue else condFalse
      else if time.IsZero modtime then condFalse
      else
        match ParseTime ir with
        | None => condFalse
        | Some t =>
            if time.UnixOf t =? time.UnixOf modtime then condTrue else condFalse
        end.

(** checkPreconditions of fileserver.go: (done, rangeHeader) and the
    response writer after its effects. *)
Definition checkPreconditions (w : ResponseWriter) (r : Request) (modtime : Time)
  : ResponseWriter * (bool * string) :=
  let ch := checkIfMatch w r in
  let ch := if condResult_eqb ch condNone
            then checkIfUnmodifiedSince r modtime else ch in
  if condResult_eqb ch condFalse
  then (WriteHeader w http.StatusPreconditionFailed, (true, ""))
  else
    let afterNoneMatch : option ResponseWriter :=
      match checkIfNoneMatch w r with
      | condFalse =>
          if String.eqb (Method r) http.MethodGet
             || String.eqb (Method r) http.MethodHead
          then Some (writeNotModified w) else None
      | condNone =>
          if condResult_eqb (checkIfModifiedSince r modtime) condFalse
          then Some (writeNotModified w) else None
      | condTrue => None
      end in
    match afterNoneMatch with
    | Some w' => (w', (true, ""))
    | None =>
        let rangeHeader := http.Get (rHeader r) "Range" in
        let rangeHeader :=
          if negb (isEmpty rangeHeader)
             && condResult_eqb (checkIfRange w r modtime) condFalse
          then "" else rangeHeader in
        (w, (false, rangeHeader))
    end.

End Conditions.

(** ** helpers.go: ranges *)

Record httpRange : Type := mkRange { start : Z; length : Z }.

Definition contentRange (r : httpRange) (size : Z) : string :=
  "bytes " +:+ strconv.FormatInt (start r) +:+ "-"
  +:+ strconv.FormatInt (wrap64 (wrap64 (start r + length r) - 1))
  +:+ "/" +:+ strconv.FormatInt size.

(** The two entries of the map literal that mimeHeader returns. *)
Definition mimeHeader (r : httpRange) (contentType : string) (size : Z)
  : list (string * list string) :=
  [("Content-Range", [contentRange r size]); ("Content-Type", [contentType])].

(** The body of parseRange's loop over the comma-separated entries: the
    accumulated [ranges] and [noOverlap] when the loop ends, or the error of
    an early return. *)
Fixpoint parseRange_loop (entries : list string) (size : Z)
    (ranges : list httpRange) (noOverlap : bool)
  : (list httpRange * bool) + error :=
  match entries with
  | [] => inl (ranges, noOverlap)
  | ra :: entries' =>
      let ra := TrimString ra in
      if isEmpty ra then parseRange_loop entries' size ranges noOverlap
      else
        let '(start_, end_, ok) := Cut ra "-" in
        if negb ok then inr ErrInvalidRange
        else
          let start_ := TrimString start_ in
          let end_ := TrimString end_ in
          if isEmpty start_ then
            if isEmpty end_
               || match String.get 0 end_ with
                  | Some c => byte_eqb c "-"
                  | None => false
                  end
            then inr ErrInvalidRange
            else
              let '(i, err) := strconv.ParseInt end_ in
              if (i <? 0) || isErr err then inr ErrInvalidRange
              else
                let i := if i >? size then size else i in
                let rstart := wrap64 (size - i) in
                let rlength := wrap64 (size - rstart) in
                parseRange_loop entries' size
                  (ranges ++ [mkRange rstart rlength]) noOverlap
          else
            let '(i, err) := strconv.ParseInt start_ in
            if isErr err || (i <? 0) then inr ErrInvalidRange
            else if i >=? size then parseRange_loop entries' size ranges true
            else
              let rstart := i in
              if isEmpty end_ then
                parseRange_loop entries' size
                  (ranges ++ [mkRange rstart (wrap64 (size - rstart))]) noOverlap
              else
                let '(i, err) := strconv.ParseInt end_ in
                if isErr err || (rstart >? i) then inr ErrInvalidRange
                else
                  let i := if i >=? size then wrap64 (size - 1) else i in
                  parseRange_loop entries' size
                    (ranges ++ [mkRange rstart (wrap64 (wrap64 (i - rstart) + 1))])
                    noOverlap
  end.

Definition parseRange (s : string) (size : Z) : list httpRange * option error :=
  if isEmpty s then ([], None)
  else
    let b := "bytes=" in
    if negb (HasPrefix s b) then ([], Some ErrInvalidRange)
    else
      match parseRange_loop (Split (sdrop (String.length b) s) ",") size [] false with
      | inr e => ([], Some e)
      | inl (ranges, noOverlap) =>
          if noOverlap && (Z.of_nat (List.length ranges) =? 0)
          then ([], Some errNoOverlap)
          else (ranges, None)
      end.

Fixpoint sumRangesSize_loop (ranges : list httpRange) (size : Z) : Z :=
  match ranges with
  | [] => size
  | ra :: ranges' => sumRangesSize_loop ranges' (wrap64 (size + length ra))
  end.

Definition sumRangesSize (ranges : list httpRange) : Z :=
  sumRangesSize_loop ranges 0.

(** ** io: writers, the pipe, the seekable content *)

(** The io.Writer interface: the writer after the call, and the error. *)
Class IoWriter (W : Type) : Type := ioWrite : W -> string -> W * option error.

(** type countingWriter int64 *)
Definition countingWriter : Type := Z.

#[export] Instance countingWriter_Write : IoWriter countingWriter :=
  fun w p => (wrap64 (w + len p), None).

(** The write half of io.Pipe as the consumer sees it: the bytes written so
    far, in order, and how the producer closed it. *)
Record PipeWriter : Type := mkPipe {
  pbuf : string;
  pclosed : bool;
  perr : option error
}.

#[export] Instance PipeWriter_Write : IoWriter PipeWriter :=
  fun pw p =>
    if pclosed pw then (pw, Some ErrClosedPipe)
    else (mkPipe (pbuf pw +:+ p) false (perr pw), None).

Definition pipeClose (pw : PipeWriter) : PipeWriter :=
  if pclosed pw then pw else mkPipe (pbuf pw) true None.

Definition pipeCloseWithError (pw : PipeWriter) (err : error) : PipeWriter :=
  if pclosed pw then pw else mkPipe (pbuf pw) true (Some err).

(** The io.ReadSeeker handed to serveContent, as an in-memory file: its
    bytes and the current offset. *)
Record ReadSeeker : Type := mkContent { rdata : string; rpos : Z }.

Module io.

(** content.Seek(offset, io.SeekStart) *)
Definition Seek (c : ReadSeeker) (offset : Z) : ReadSeeker * option error :=
  if offset <? 0 then (c, Some ErrNegativePosition)
  else (mkContent (rdata c) offset, None).

(** Up to [n] bytes from the current offset. *)
Definition readUpTo (c : ReadSeeker) (n : Z) : string * ReadSeeker :=
  let p := stake (Z.to_nat n) (sdrop (Z.to_nat (rpos c)) (rdata c)) in
  (p, mkContent (rdata c) (rpos c + len p)).

(** io.ReadFull(content, buf[:n]): the bytes read. *)
Definition ReadFull (c : ReadSeeker) (n : Z) : string * ReadSeeker :=
  readUpTo c n.

(** io.CopyN(dst, src, n) from the content: everything read is written
    (the chunking of the copy is not modelled); io.EOF when the source
    ends early. *)
Definition CopyN {W : Type} `{IoWriter W} (dst : W) (src : ReadSeeker) (n : Z)
  : W * ReadSeeker * option error :=
  let '(p, src') := readUpTo src n in
  let '(dst', werr) := if isEmpty p then (dst, None) else ioWrite dst p in
  match werr with
  | Some e => (dst', src', Some e)
  | None => (dst', src', if len p <? n then Some EOF else None)
  end.

End io.

(** ** mime/multipart *)

Module multipart.

Record Writer (W : Type) : Type := mkWriter {
  w : W;
  boundary : string;
  lastpart : bool
}.
Arguments mkWriter {W} _ _ _.
Arguments w {W} _.
Arguments boundary {W} _.
Arguments lastpart {W} _.

(** multipart.NewWriter; [rnd] is the boundary that randomBoundary draws
    (always 60 hexadecimal digits). *)
Definition NewWriter {W : Type} (rnd : string) (out : W) : Writer W :=
  mkWriter out rnd false.

Definition Boundary {W : Type} (mw : Writer W) : string := boundary mw.

(** Insertion into a key-sorted list: slices.Sort(keys). *)
Fixpoint insertKey (kv : string * list string) (l : list (string * list string))
  : list (string * list string) :=
  match l with
  | [] => [kv]
  | kv' :: l' =>
      if String.leb (fst kv) (fst kv') then kv :: l
      else kv' :: insertKey kv l'
  end.

Definition sortKeys (header : list (string * list string))
  : list (string * list string) :=
  fold_right insertKey [] header.

Fixpoint valueLines (k : string) (vs : list string) : string :=
  match vs with
  | [] => ""
  | v :: vs' => k +:+ ": " +:+ v +:+ CRLF +:+ valueLines k vs'
  end.

Fixpoint headerLines (header : list (string * list string)) : string :=
  match header with
  | [] => ""
  | (k, vs) :: header' => valueLines k vs +:+ headerLines header'
  end.

(** Writer.CreatePart: the part is the writer itself with [lastpart]
    set. *)
Definition CreatePart {W : Type} `{IoWriter W} (mw : Writer W)
    (header : list (string * list string)) : Writer W * option error :=
  let b := (if lastpart mw
            then CRLF +:+ "--" +:+ boundary mw +:+ CRLF
            else "--" +:+ boundary mw +:+ CRLF)
           +:+ headerLines (sortKeys header) +:+ CRLF in
  let '(out, err) := ioWrite (w mw) b in
  match err with
  | Some e => (mkWriter out (boundary mw) (lastpart mw), Some e)
  | None => (mkWriter out (boundary mw) true, None)
  end.

(** Writer.Close *)
Definition Close {W : Type} `{IoWriter W} (mw : Writer W) : Writer W * option error :=
  let '(out, err) := ioWrite (w mw) (CRLF +:+ "--" +:+ boundary mw +:+ "--" +:+ CRLF) in
  (mkWriter out (boundary mw) false, err).

End multipart.

(** part.Write goes to the underlying writer of the multipart writer. *)
#[export] Instance part_Write {W : Type} `{IoWriter W} : IoWriter (multipart.Writer W) :=
  fun mw p =>
    let '(out, err) := ioWrite (multipart.w mw) p in
    (multipart.mkWriter out (multipart.boundary mw) (multipart.lastpart mw), err).

Fixpoint rangesMIMESize_loop (ranges : list httpRange) (contentType : string)
    (contentSize : Z) (mw : multipart.Writer countingWriter) (encSize : Z)
  : multipart.Writer countingWriter * Z :=
  match ranges with
  | [] => (mw, encSize)
  | ra :: ranges' =>
      let '(mw, _) := multipart.CreatePart mw (mimeHeader ra contentType contentSize) in
      rangesMIMESize_loop ranges' contentType contentSize mw
        (wrap64 (encSize + length ra))
  end.

(** rangesMIMESize; [rnd] is the boundary its multipart writer draws. *)
Definition rangesMIMESize (rnd : string) (ranges : list httpRange)
    (contentType : string) (contentSize : Z) : Z :=
  let w : countingWriter := 0 in
  let mw := multipart.NewWriter rnd w in
  let '(mw, encSize) := rangesMIMESize_loop ranges contentType contentSize mw 0 in
  let '(mw, _) := multipart.Close mw in
  wrap64 (encSize + multipart.w mw).

(** ** fileserver.go: content delivery *)

Definition sniffLen : Z := 512.

(** w.Write(p) as an io.Writer. *)
#[export] Instance ResponseWriter_Write : IoWriter ResponseWriter :=
  fun w p => (WriteBody w p, None).

(** fileHandler, with the one field serveContent uses: the error callback
    supplied by the caller, which receives the response writer, the request,
    a status code and the error. *)
Record fileHandler : Type := mkFileHandler {
  errHandler : ResponseWriter -> Request -> Z -> option error -> ResponseWriter
}.

(** The goroutine of serveContent's multi-range case: it writes every part
    into the pipe and closes it, or closes it with the first error. *)
Fixpoint writeRanges (ranges : list httpRange) (ctype : string) (size : Z)
    (mw : multipart.Writer PipeWriter) (content : ReadSeeker) : PipeWriter :=
  match ranges with
  | [] =>
      let '(mw, _) := multipart.Close mw in
      pipeClose (multipart.w mw)
  | ra :: ranges' =>
      let '(part, err) := multipart.CreatePart mw (mimeHeader ra ctype size) in
      match err with
      | Some e => pipeCloseWithError (multipart.w part) e
      | None =>
          match io.Seek content (start ra) with
          | (_, Some e) => pipeCloseWithError (multipart.w part) e
          | (content, None) =>
              match io.CopyN part content (length ra) with
              | (part, _, Some e) => pipeCloseWithError (multipart.w part) e
              | (part, content, None) => writeRanges ranges' ctype size part content
              end
          end
      end
  end.

(** The read half of the pipe: the bytes the producer wrote, read in
    order. *)
Definition pipeReader (pw : PipeWriter) : ReadSeeker := mkContent (pbuf pw) 0.

Section ServeContent.

Variable ParseTime : string -> option Time.
Variable FormatTime : Time -> string.

(** mime.TypeByExtension(filepath.Ext(name)) *)
Variable TypeByExtension : string -> string.

(** http.DetectContentType *)
Variable DetectContentType : string -> string.

Variable h : fileHandler.

(** The part of serveContent that settles the content type: the response
    writer, [ctype] and the content afterwards, or the error of the
    seek. *)
Definition serveContent_ctype (w : ResponseWriter) (name : string)
    (content : ReadSeeker) : (ResponseWriter * string * ReadSeeker) + error :=
  match wHeader w !! "Content-Type" with
  | None =>
      let ctype := TypeByExtension name in
      if isEmpty ctype then
        let '(buf, content) := io.ReadFull content sniffLen in
        let ctype := DetectContentType buf in
        match io.Seek content 0 with
        | (_, Some err) => inr err
        | (content, None) =>
            inl (withHeader w (http.Set_ (wHeader w) "Content-Type" ctype),
                 ctype, content)
        end
      else inl (withHeader w (http.Set_ (wHeader w) "Content-Type" ctype),
                ctype, content)
  | Some ctypes =>
      inl (w, match ctypes with c :: _ => c | [] => "" end, content)
  end.

(** The part of serveContent from the range switch to the end; [rnd1] and
    [rnd2] are the boundaries drawn by the multipart writer of
    rangesMIMESize and by the one that writes the response. *)
Definition serveContent_send (rnd1 rnd2 : string) (w : ResponseWriter)
    (r : Request) (ctype : string) (size : Z) (ranges : list httpRange)
    (content : ReadSeeker) : ResponseWriter :=
  let ranges := if sumRangesSize ranges >? size then [] else ranges in
  let prepared : (ResponseWriter * Z * Z * ReadSeeker) + ResponseWriter :=
    match ranges with
    | [] => inl (w, http.StatusOK, size, content)
    | [ra] =>
        match io.Seek content (start ra) with
        | (_, Some err) =>
            inr (errHandler h w r http.StatusRequestedRangeNotSatisfiable (Some err))
        | (content, None) =>
            inl (withHeader w (http.Set_ (wHeader w) "Content-Range"
                                 (contentRange ra size)),
                 http.StatusPartialContent, length ra, content)
        end
    | _ =>
        let sendSize := rangesMIMESize rnd1 ranges ctype size in
        let mw := multipart.NewWriter rnd2 (mkPipe "" false None) in
        inl (withHeader w (http.Set_ (wHeader w) "Content-Type"
                             ("multipart/byteranges; boundary="
                              +:+ multipart.Boundary mw)),
             http.StatusPartialContent, sendSize,
             pipeReader (writeRanges ranges ctype size mw content))
    end in
  match prepared with
  | inr w => w
  | inl (w, code, sendSize, sendContent) =>
      let w := withHeader w (http.Set_ (wHeader w) "Accept-Ranges" "bytes") in
      let w :=
        if (Z.of_nat (List.length ranges) >? 0)
           || isEmpty (http.Get (wHeader w) "Content-Encoding")
        then withHeader w (http.Set_ (wHeader w) "Content-Length"
                             (strconv.FormatInt sendSize))
        else w in
      let w := WriteHeader w code in
      if negb (String.eqb (Method r) http.MethodHead)
      then let '(w, _, _) := io.CopyN w sendContent sendSize in w
      else w
  end.

Definition serveContent (rnd1 rnd2 : string) (w : ResponseWriter) (r : Request)
    (name : string) (modtime : Time) (sizeFunc : Z * option error)
    (content : ReadSeeker) : ResponseWriter :=
  let w := setLastModified FormatTime w modtime in
  let '(w, (done, rangeReq)) := checkPreconditions ParseTime w r modtime in
  if done then w
  else
    match serveContent_ctype w name content with
    | inr err => errHandler h w r http.StatusInternalServerError (Some err)
    | inl (w, ctype, content) =>
        let '(size, err) := sizeFunc in
        if isErr err then errHandler h w r http.StatusInternalServerError err
        else if size <? 0 then errHandler h w r http.StatusInternalServerError err
        else
          let '(ranges, err) := parseRange rangeReq size in
          match err with
          | None => serveContent_send rnd1 rnd2 w r ctype size ranges content
          | Some e =>
              if error_eqb e errNoOverlap then
                if size =? 0
                then serveContent_send rnd1 rnd2 w r ctype size [] content
                else
                  let w := withHeader w (http.Set_ (wHeader w) "Content-Range"
                                           ("bytes */" +:+ strconv.FormatInt size)) in
                  errHandler h w r http.StatusRequestedRangeNotSatisfiable err
              else errHandler h w r http.StatusRequestedRangeNotSatisfiable err
          end
    end.

End ServeContent.

(** The status of a response: the code of the first WriteHeader. *)
Fixpoint statusOf (evs : list Event) : option Z :=
  match evs with
  | [] => None
  | EvWriteHeader code :: _ => Some code
  | EvWrite _ :: evs' => statusOf evs'
  end.

(** The body of a response: everything written, in order. *)
Fixpoint bodyOf (evs : list Event) : string :=
  match evs with
  | [] => ""
  | EvWriteHeader _ :: evs' => bodyOf evs'
  | EvWrite p :: evs' => p +:+ bodyOf evs'
  end.

(** ** Specification vocabulary *)

(** Every byte of [s] satisfies [p]. *)
Fixpoint allb (p : ascii -> bool) (s : string) : bool :=
  match s with
  | EmptyString => true
  | String c s' => p c && allb p s'
  end.

(** The last byte of a string. *)
Fixpoint lastByte (s : string) : option ascii :=
  match s with
  | EmptyString => None
  | String c EmptyString => Some c
  | String _ s' => lastByte s'
  end.

(** The weak marker of an entity tag. *)
Definition weakMarker : string := "W/".

(** A well-formed entity tag (RFC 7232, 2.3): a quoted string of etagc
    bytes, optionally preceded by the weak marker. *)
Definition isETag (t : string) : Prop :=
  exists body : string,
    allb etagc body = true
    /\ (t = String dquote (body +:+ String dquote "")
        \/ t = weakMarker +:+ String dquote (body +:+ String dquote "")).

(** A well-formed entity tag heads [s]. *)
Definition headsETag (s : string) : Prop :=
  exists t rest : string, isETag t /\ s = t +:+ rest.

(** Steps 1 to 3 of the evaluation: the If-Match / If-Unmodified-Since
    stage fails the request. *)
Definition preconditionFailed (ParseTime : string -> option Time)
    (w : ResponseWriter) (r : Request) (modtime : Time) : bool :=
  let ch := checkIfMatch w r in
  let ch := if condResult_eqb ch condNone
            then checkIfUnmodifiedSince ParseTime r modtime else ch in
  condResult_eqb ch condFalse.

(** How an If-Range header fails to match: an entity tag that does not
    strong-match the stored ETag, a date that is not the modification time
    to the second, or a date when the modification time is zero. *)
Inductive IfRangeMismatch (ParseTime : string -> option Time)
    (ir storedETag : string) (modtime : Time) : Prop :=
| mismatch_etag :
    fst (scanETag ir) <> "" ->
    etagStrongMatch (fst (scanETag ir)) storedETag = false ->
    IfRangeMismatch ParseTime ir storedETag modtime
| mismatch_date (t : Time) :
    fst (scanETag ir) = "" ->
    ParseTime ir = Some t ->
    time.UnixOf t <> time.UnixOf modtime ->
    IfRangeMismatch ParseTime ir storedETag modtime
| mismatch_zero (t : Time) :
    fst (scanETag ir) = "" ->
    ParseTime ir = Some t ->
    time.IsZero modtime = true ->
    IfRangeMismatch ParseTime ir storedETag modtime.

(** A strong and a weak entity tag, and a header value that lists both. *)
Definition tagABC : string := String dquote ("abc" +:+ String dquote "").
Definition tagXYZ : string := String dquote ("xyz" +:+ String dquote "").
Definition weakABC : string := weakMarker +:+ tagABC.
Definition listWeakThenXYZ : string := " " +:+ weakABC +:+ ", " +:+ tagXYZ +:+ " ".

(** An If-None-Match (or If-Match) header value listing [tags]. *)
Definition tagList (tags : list string) : string := String.concat ", " tags.

(** A header map with one value per listed key. *)
Definition hdr (kvs : list (string * string)) : Header :=
  list_to_map (map (fun kv => (fst kv, [snd kv])) kvs).

(** A response on which the caller has set ETag "xyz". *)
Definition wXYZ : ResponseWriter := mkResponseWriter (hdr [("Etag", tagXYZ)]) [].

(** A response on which the caller has set ETag "abc". *)
Definition wABC : ResponseWriter := mkResponseWriter (hdr [("Etag", tagABC)]) [].

(** GET with If-None-Match: "abc". *)
Definition getIfNoneMatchABC : Request :=
  mkRequest "GET" (hdr [("If-None-Match", tagABC)]).

(** An http.ParseTime that accepts nothing. *)
Definition noParseTime : string -> option Time := fun _ => None.

(** Requests with Range: bytes=0-0 and If-Range: "abc". *)
Definition getIfRangeABC : Request :=
  mkRequest "GET" (hdr [("Range", "bytes=0-0"); ("If-Range", tagABC)]).
Definition postIfRangeABC : Request :=
  mkRequest "POST" (hdr [("Range", "bytes=0-0"); ("If-Range", tagABC)]).

(** 2023-11-14 22:13:20 UTC. *)
Definition someTime : Time := mkTime 1700000000 0.

(** GET and POST with If-None-Match: "xyz", "abc". *)
Definition getIfNoneMatchList : Request :=
  mkRequest "GET" (hdr [("If-None-Match", tagList [tagXYZ; tagABC])]).
Definition postIfNoneMatchList : Request :=
  mkRequest "POST" (hdr [("If-None-Match", tagList [tagXYZ; tagABC])]).

(** What one comma-separated entry does to the state of parseRange's loop:
    it is skipped as empty, it ends the parse with "invalid range", it is
    skipped and recorded as an overlap miss, or it is accepted. *)
Inductive entryOutcome : Type :=
| EntryEmpty
| EntryInvalid
| EntryNoOverlap
| EntryRange (r : httpRange).

(** The body of parseRange's loop on one entry. *)
Definition parseEntry (ra : string) (size : Z) : entryOutcome :=
  let ra := TrimString ra in
  if isEmpty ra then EntryEmpty
  else
    let '(start_, end_, ok) := Cut ra "-" in
    if negb ok then EntryInvalid
    else
      let start_ := TrimString start_ in
      let end_ := TrimString end_ in
      if isEmpty start_ then
        if isEmpty end_
           || match String.get 0 end_ with
              | Some c => byte_eqb c "-"
              | None => false
              end
        then EntryInvalid
        else
          let '(i, err) := strconv.ParseInt end_ in
          if (i <? 0) || isErr err then EntryInvalid
          else
            let i := if i >? size then size else i in
            let rstart := wrap64 (size - i) in
            let rlength := wrap64 (size - rstart) in
            EntryRange (mkRange rstart rlength)
      else
        let '(i, err) := strconv.ParseInt start_ in
        if isErr err || (i <? 0) then EntryInvalid
        else if i >=? size then EntryNoOverlap
        else
          let rstart := i in
          if isEmpty end_ then EntryRange (mkRange rstart (wrap64 (size - rstart)))
          else
            let '(i, err) := strconv.ParseInt end_ in
            if isErr err || (rstart >? i) then EntryInvalid
            else
              let i := if i >=? size then wrap64 (size - 1) else i in
              EntryRange (mkRange rstart (wrap64 (wrap64 (i - rstart) + 1))).

(** The bounds of a parsed range against the resource size. *)
Definition rangeWithin (size : Z) (r : httpRange) : Prop :=
  0 <= start r /\ 0 <= length r /\ start r + length r <= size
  /\ (start r < size \/ (start r = size /\ length r = 0)).

(** A decimal digit. *)
Definition isDigit (c : ascii) : bool := (48 <=? b2z c) && (b2z c <=? 57).

(** A byte that is neither ASCII space nor a comma. *)
Definition plainChar (c : ascii) : bool :=
  negb (isASCIISpace c) && negb (byte_eqb c ",").

(** The events of a full-body response after the status line: nothing for
    HEAD, otherwise the copy of up to [size] bytes from the content's
    offset. *)
Definition bodyBytes (r : Request) (content : ReadSeeker) (n : Z) : string :=
  if String.eqb (Method r) http.MethodHead then ""
  else fst (io.readUpTo content n).

(** The bytes that CreatePart writes for one range. *)
Definition partHeader (lp : bool) (rnd : string) (ra : httpRange)
    (ctype : string) (size : Z) : string :=
  (if lp then CRLF +:+ "--" +:+ rnd +:+ CRLF else "--" +:+ rnd +:+ CRLF)
  +:+ multipart.headerLines (multipart.sortKeys (mimeHeader ra ctype size))
  +:+ CRLF.

(** The trailing boundary that Close writes. *)
Definition closingBoundary (rnd : string) : string :=
  CRLF +:+ "--" +:+ rnd +:+ "--" +:+ CRLF.

(** The bytes of one range of the content. *)
Definition slice (data : string) (ra : httpRange) : string :=
  stake (Z.to_nat (length ra)) (sdrop (Z.to_nat (start ra)) data).

(** The multipart/byteranges body for [ranges], written out: every part
    header followed by the slice, then the trailing boundary. *)
Fixpoint streamOf (lp : bool) (rnd : string) (ranges : list httpRange)
    (ctype : string) (size : Z) (data : string) : string :=
  match ranges with
  | [] => closingBoundary rnd
  | ra :: ranges' =>
      partHeader lp rnd ra ctype size +:+ slice data ra
      +:+ streamOf true rnd ranges' ctype size data
  end.

(** The number of bytes of all part headers. *)
Fixpoint partsLen (lp : bool) (rnd : string) (ranges : list httpRange)
    (ctype : string) (size : Z) : Z :=
  match ranges with
  | [] => 0
  | ra :: ranges' =>
      len (partHeader lp rnd ra ctype size) + partsLen true rnd ranges' ctype size
  end.

(** The sum of the lengths of the ranges, as an integer. *)
Fixpoint sumLengths (ranges : list httpRange) : Z :=
  match ranges with
  | [] => 0
  | ra :: ranges' => length ra + sumLengths ranges'
  end.

(** A range that the content can serve. *)
Definition servable (data : string) (ra : httpRange) : Prop :=
  0 <= start ra /\ 0 <= length ra /\ start ra + length ra <= len data.

(** Sample collaborators: a clock format, a type table, a sniffer and an
    error callback that writes the status. *)
Definition sampleFormatTime : Time -> string := fun _ => "Tue, 14 Nov 2023 22:13:20 GMT".
Definition sampleTypeByExtension : string -> string := fun _ => "text/plain".
Definition sampleDetect : string -> string := fun _ => "application/octet-stream".
Definition sampleHandler : fileHandler :=
  mkFileHandler (fun w _ code _ => WriteHeader w code).

Definition emptyResponse : ResponseWriter := mkResponseWriter ∅ [].
Definition tenBytes : ReadSeeker := mkContent "0123456789" 0.
Definition getRange (rng : string) : Request := mkRequest "GET" (hdr [("Range", rng)]).

(** The response writer of the samples once Last-Modified and then
    Content-Type are set. *)
Definition sampleW1 : ResponseWriter :=
  setLastModified sampleFormatTime emptyResponse someTime.
Definition sampleW2 : ResponseWriter :=
  withHeader sampleW1 (http.Set_ (wHeader sampleW1) "Content-Type" "text/plain").

(** ** The rest of the package: redirects, errors, directory listings *)

(** strings.HasSuffix *)
Definition HasSuffix (s suffix : string) : bool :=
  (String.length suffix <=? String.length s)%nat
  && String.eqb (sdrop (String.length s - String.length suffix) s) suffix.

(** strings.TrimSuffix *)
Definition TrimSuffix (s suffix : string) : string :=
  if HasSuffix s suffix
  then stake (String.length s - String.length suffix) s
  else s.

(** The part of r.URL that the package reads. *)
Record URL : Type := mkURL { Path : string; RawQuery : string }.

(** helpers.go: localRedirect *)
Definition localRedirect (w : ResponseWriter) (u : URL) (newPath : string)
  : ResponseWriter :=
  let newPath := if negb (isEmpty (RawQuery u))
                 then newPath +:+ "?" +:+ RawQuery u else newPath in
  WriteHeader (withHeader w (http.Set_ (wHeader w) "Location" newPath)) 301.

(** What htmlReplacer writes for one byte: the five old strings are single
    bytes, so the replacer maps byte by byte. *)
Definition htmlEscapeByte (c : ascii) : string :=
  if byte_eqb c "&" then "&amp;"
  else if byte_eqb c "<" then "&lt;"
  else if byte_eqb c ">" then "&gt;"
  else if byte_eqb c dquote then "&#34;"
  else if byte_eqb c "'" then "&#39"
  else String c "".

(** htmlReplacer.Replace *)
Fixpoint htmlReplace (s : string) : string :=
  match s with
  | EmptyString => ""
  | String c s' => htmlEscapeByte c +:+ htmlReplace s'
  end.

(** fs.FileInfo and fs.DirEntry, as far as the package looks at them. *)
Record FileInfo : Type := mkFileInfo {
  fiName : string;
  fiSize : Z;
  fiModTime : Time;
  fiIsDir : bool
}.

(** An http.File: what Stat returns, the bytes it reads, and what reading
    the directory returns (through ReadDir when the file is an
    fs.ReadDirFile, through Readdir otherwise; both give names and the
    directory flag, together with an error that may come with a partial
    list). *)
Record File : Type := mkFile {
  fStat : FileInfo + error;
  fContent : ReadSeeker;
  fEntries : list FileInfo * option error
}.

(** FileEntry of fileserver.go *)
Record FileEntry : Type := mkFileEntry { feURL : string; feName : string }.

(** The fileHandler with its three fields: the file system ([Open]), and
    the two callbacks. *)
Record fullHandler : Type := mkFullHandler {
  root : string -> File + error;
  callbacks : fileHandler;
  dirListHandler : ResponseWriter -> Request -> list FileEntry -> ResponseWriter
}.

Section FileServer.

Variable ParseTime : string -> option Time.
Variable FormatTime : Time -> string.
Variable TypeByExtension : string -> string.
Variable DetectContentType : string -> string.

(** errors.Is(err, fs.ErrNotExist) and errors.Is(err, fs.ErrPermission) *)
Variable isNotExist : error -> bool.
Variable isPermission : error -> bool.

(** path.Base and path.Clean *)
Variable pathBase : string -> string.
Variable pathClean : string -> string.

(** (&url.URL{Path: name}).String() *)
Variable urlString : string -> string.

(** helpers.go: toHTTPError *)
Definition toHTTPError (err : error) : Z :=
  if isNotExist err then 404
  else if isPermission err then 403
  else http.StatusInternalServerError.

(** The loop of dirList that builds the entries. *)
Fixpoint dirList_files (dirs : list FileInfo) : list FileEntry :=
  match dirs with
  | [] => []
  | d :: dirs' =>
      let name := fiName d in
      let name := if fiIsDir d then name +:+ "/" else name in
      mkFileEntry (urlString name) (htmlReplace name) :: dirList_files dirs'
  end.

(** dirList.  The entries are built before the error of the directory read
    is looked at, and sort.Slice, which comes after them, reorders [dirs]
    only. *)
Definition dirList (h : fullHandler) (w : ResponseWriter) (r : Request) (f : File)
  : ResponseWriter :=
  let '(dirs, err) := fEntries f in
  let files := dirList_files dirs in
  match err with
  | Some e => errHandler (callbacks h) w r http.StatusInternalServerError (Some e)
  | None => dirListHandler h w r files
  end.

(** The directory branch of serveFile that looks for index.html: the file
    and its info that the rest of serveFile goes on with. *)
Definition serveFile_index (fsys : string -> File + error) (name : string)
    (f : File) (d : FileInfo) : File * FileInfo :=
  let index := TrimSuffix name "/" +:+ "/index.html" in
  match fsys index with
  | inl ff =>
      match fStat ff with
      | inl dd => (ff, dd)
      | inr _ => (f, d)
      end
  | inr _ => (f, d)
  end.

(** serveFile.  [None] is the run-time panic of indexing the empty path
    ([url[len(url)-1]]). *)
Definition serveFile (h : fullHandler) (rnd1 rnd2 : string) (w : ResponseWriter)
    (r : Request) (u : URL) (fsys : string -> File + error) (name : string)
    (redirect : bool) : option ResponseWriter :=
  let indexPage := "/index.html" in
  if HasSuffix (Path u) indexPage then Some (localRedirect w u "./")
  else
    match fsys name with
    | inr err => Some (errHandler (callbacks h) w r (toHTTPError err) (Some err))
    | inl f =>
        match fStat f with
        | inr err => Some (errHandler (callbacks h) w r (toHTTPError err) (Some err))
        | inl d =>
            let redirected : option (option ResponseWriter) :=
              if redirect then
                match lastByte (Path u) with
                | None => Some None
                | Some c =>
                    if fiIsDir d then
                      if negb (byte_eqb c "/")
                      then Some (Some (localRedirect w u (pathBase (Path u) +:+ "/")))
                      else None
                    else
                      if byte_eqb c "/"
                      then Some (Some (localRedirect w u ("../" +:+ pathBase (Path u))))
                      else None
                end
              else None in
            match redirected with
            | Some res => res
            | None =>
                let noSlash :=
                  isEmpty (Path u)
                  || match lastByte (Path u) with
                     | Some c => negb (byte_eqb c "/")
                     | None => true
                     end in
                if fiIsDir d && noSlash
                then Some (localRedirect w u (pathBase (Path u) +:+ "/"))
                else
                  let '(f, d) := if fiIsDir d then serveFile_index fsys name f d
                                 else (f, d) in
                  if fiIsDir d then
                    if condResult_eqb (checkIfModifiedSince ParseTime r (fiModTime d))
                         condFalse
                    then Some (writeNotModified w)
                    else Some (dirList h (setLastModified FormatTime w (fiModTime d)) r f)
                  else
                    Some (serveContent ParseTime FormatTime TypeByExtension
                            DetectContentType (callbacks h) rnd1 rnd2 w r
                            (fiName d) (fiModTime d) (fiSize d, None) (fContent f))
            end
        end
    end.

(** ServeHTTP: the path of the request is given a leading slash before
    serveFile sees it. *)
Definition ServeHTTP (h : fullHandler) (rnd1 rnd2 : string) (w : ResponseWriter)
    (r : Request) (u : URL) : option ResponseWriter :=
  let upath := Path u in
  let '(upath, u) :=
    if negb (HasPrefix upath "/")
    then ("/" +:+ upath, mkURL ("/" +:+ upath) (RawQuery u))
    else (upath, u) in
  serveFile h rnd1 rnd2 w r u (root h) (pathClean upath) true.

End FileServer.

(** What follows the first tag of a tag list: every further tag behind a
    comma and a space. *)
Fixpoint tagTail (tags : list string) : string :=
  match tags with
  | [] => ""
  | t :: tags' => ", " +:+ t +:+ tagTail tags'
  end.

(** A byte other than the asterisk. *)
Definition notStar (c : ascii) : bool := negb (byte_eqb c "*").

(** How an If-Range header matches: it is headed by an entity tag that
    strong-matches the stored ETag, or it is no entity tag, the
    modification time is not Go's zero time and the header parses as a date
    of the same Unix second. *)
Inductive IfRangeMatch (ParseTime : string -> option Time)
    (ir storedETag : string) (modtime : Time) : Prop :=
| match_etag :
    fst (scanETag ir) <> "" ->
    etagStrongMatch (fst (scanETag ir)) storedETag = true ->
    IfRangeMatch ParseTime ir storedETag modtime
| match_date (t : Time) :
    fst (scanETag ir) = "" ->
    time.IsZero modtime = false ->
    ParseTime ir = Some t ->
    time.UnixOf t = time.UnixOf modtime ->
    IfRangeMatch ParseTime ir storedETag modtime.

(** A parser that reads every date as the sample time. *)
Definition parseAsSomeTime : string -> option Time := fun _ => Some (mkTime 1700000000 0).

(** The sample time with a sub-second part, and one second later. *)
Definition someTimeAndHalf : Time := mkTime 1700000000 500000000.
Definition nextSecond : Time := mkTime 1700000001 0.

(** Requests with one conditional header carrying a date. *)
Definition getIfModifiedSince : Request :=
  mkRequest "GET" (hdr [("If-Modified-Since", "Tue, 14 Nov 2023 22:13:20 GMT")]).
Definition putIfUnmodifiedSince : Request :=
  mkRequest "PUT" (hdr [("If-Unmodified-Since", "Tue, 14 Nov 2023 22:13:20 GMT")]).
Definition postIfModifiedSince : Request :=
  mkRequest "POST" (hdr [("If-Modified-Since", "Tue, 14 Nov 2023 22:13:20 GMT")]).

(** PUT with If-Match: "abc". *)
Definition putIfMatchABC : Request := mkRequest "PUT" (hdr [("If-Match", tagABC)]).

(** A response on which the caller has set the weak ETag W/"abc". *)
Definition wWeakABC : ResponseWriter := mkResponseWriter (hdr [("Etag", weakABC)]) [].

(** GET with Range: bytes=0-0 and an If-Range header. *)
Definition getIfRange (ir : string) : Request :=
  mkRequest "GET" (hdr [("Range", "bytes=0-0"); ("If-Range", ir)]).

(** The ranges of the entries that parseRange accepts, in the order of the
    header. *)
Fixpoint acceptedRanges (entries : list string) (size : Z) : list httpRange :=
  match entries with
  | [] => []
  | e :: entries' =>
      match parseEntry e size with
      | EntryRange r => r :: acceptedRanges entries' size
      | _ => acceptedRanges entries' size
      end
  end.

(** An entry is an overlap miss. *)
Definition isNoOverlap (size : Z) (e : string) : bool :=
  match parseEntry e size with EntryNoOverlap => true | _ => false end.

(** An entry is syntactically invalid. *)
Definition isInvalid (size : Z) (e : string) : bool :=
  match parseEntry e size with EntryInvalid => true | _ => false end.

(** The comma-separated entries of a Range header behind its prefix. *)
Definition rangeEntries (s : string) : list string := Split (sdrop 6 s) ",".

(** The number that a decimal numeral denotes behind the digits already
    read ([acc]). *)
Fixpoint uintVal (d : Decimal.uint) (acc : Z) : Z :=
  match d with
  | Decimal.Nil => acc
  | Decimal.D0 d' => uintVal d' (acc * 10 + 0)
  | Decimal.D1 d' => uintVal d' (acc * 10 + 1)
  | Decimal.D2 d' => uintVal d' (acc * 10 + 2)
  | Decimal.D3 d' => uintVal d' (acc * 10 + 3)
  | Decimal.D4 d' => uintVal d' (acc * 10 + 4)
  | Decimal.D5 d' => uintVal d' (acc * 10 + 5)
  | Decimal.D6 d' => uintVal d' (acc * 10 + 6)
  | Decimal.D7 d' => uintVal d' (acc * 10 + 7)
  | Decimal.D8 d' => uintVal d' (acc * 10 + 8)
  | Decimal.D9 d' => uintVal d' (acc * 10 + 9)
  end.

(** The text of a bounded, a prefix and a suffix range entry. *)
Definition boundedText (a b : Z) : string :=
  strconv.FormatInt a +:+ "-" +:+ strconv.FormatInt b.
Definition prefixText (a : Z) : string := strconv.FormatInt a +:+ "-".
Definition suffixText (n : Z) : string := "-" +:+ strconv.FormatInt n.

(** A byte that does not need escaping inside HTML text or an attribute
    value: none of the angle brackets and the two quotes. *)
Definition htmlSafe (c : ascii) : bool :=
  negb (byte_eqb c "<") && negb (byte_eqb c ">")
  && negb (byte_eqb c dquote) && negb (byte_eqb c "'").

(** A byte that htmlReplacer leaves alone. *)
Definition htmlPlain (c : ascii) : bool := htmlSafe c && negb (byte_eqb c "&").

(** The name a directory entry is listed under: directories get a slash. *)
Definition listedName (d : FileInfo) : string :=
  if fiIsDir d then fiName d +:+ "/" else fiName d.

(** The request path as ServeHTTP hands it on: with a leading slash. *)
Definition servedPath (u : URL) : string :=
  if HasPrefix (Path u) "/" then Path u else "/" +:+ Path u.

(** The Location that localRedirect sends for a target: the query of the
    request is carried over. *)
Definition redirectTarget (u : URL) (newPath : string) : string :=
  if isEmpty (RawQuery u) then newPath else newPath +:+ "?" +:+ RawQuery u.

(** Sample files and a sample file system: a directory /docs with an
    index.html, a directory /pics without one, and a file /a.txt.  Every
    other path fails to open, with one error value that the sample
    errors.Is below takes for fs.ErrNotExist. *)
Definition dirInfo (name : string) : FileInfo := mkFileInfo name 4096 someTime true.
Definition fileInfo (name : string) (size : Z) : FileInfo :=
  mkFileInfo name size someTime false.
Definition picsEntries : list FileInfo :=
  [fileInfo "b<1>.png" 3; dirInfo "a&b"; fileInfo "a.png" 5].
Definition sampleFS (name : string) : File + error :=
  if String.eqb name "/docs" then inl (mkFile (inl (dirInfo "docs")) (mkContent "" 0) ([], None))
  else if String.eqb name "/docs/index.html"
       then inl (mkFile (inl (fileInfo "index.html" 10)) tenBytes ([], None))
  else if String.eqb name "/pics"
       then inl (mkFile (inl (dirInfo "pics")) (mkContent "" 0) (picsEntries, None))
  else if String.eqb name "/a.txt"
       then inl (mkFile (inl (fileInfo "a.txt" 10)) tenBytes ([], None))
  else inr EOF.

(** A listing callback that writes the names, one per line, and sample
    implementations of the library functions the file server calls: a
    path.Clean that drops one trailing slash and no percent-encoding. *)
Definition sampleListing (w : ResponseWriter) (_ : Request) (files : list FileEntry)
  : ResponseWriter :=
  WriteBody w (String.concat CRLF (map feName files)).
Definition sampleFull : fullHandler := mkFullHandler sampleFS sampleHandler sampleListing.
Definition sampleClean (p : string) : string :=
  if String.eqb p "/" then p else TrimSuffix p "/".
Definition sampleURLString (p : string) : string := p.
Definition sampleIsNotExist (e : error) : bool := true.
Definition sampleIsPermission (e : error) : bool := false.
Definition plainGet : Request := mkRequest "GET" ∅.

(** Whether a path ends in a slash. *)
Definition endsInSlash (s : string) : bool :=
  match lastByte s with
  | Some c => byte_eqb c "/"
  | None => false
  end.

(** The path of the index page that serveFile looks for in a directory. *)
Definition indexOf (name : string) : string := TrimSuffix name "/" +:+ "/index.html".

(** The entries a directory listing is made of. *)
Definition listingOf (urlString : string -> string) (dirs : list FileInfo)
  : list FileEntry :=
  map (fun d => mkFileEntry (urlString (listedName d)) (htmlReplace (listedName d))) dirs.

(** The last element of a slash-separated path, for the samples. *)
Fixpoint base_loop (s cur last : string) : string :=
  match s with
  | EmptyString => if isEmpty cur then last else cur
  | String c s' =>
      if byte_eqb c "/"
      then base_loop s' "" (if isEmpty cur then last else cur)
      else base_loop s' (cur +:+ String c "") last
  end.
Definition sampleBase (p : string) : string :=
  if isEmpty p then "."
  else let b := base_loop p "" "" in if isEmpty b then "/" else b.

(** What serveFile does with a directory once the slash redirects are
    behind it: the index page if there is one, the listing otherwise. *)
Definition serveDirectory (ParseTime : string -> option Time)
    (FormatTime : Time -> string) (TypeByExtension DetectContentType : string -> string)
    (urlString : string -> string) (h : fullHandler) (rnd1 rnd2 : string)
    (w : ResponseWriter) (r : Request) (fsys : string -> File + error)
    (name : string) (f : File) (d : FileInfo) : ResponseWriter :=
  let '(f, d) := serveFile_index fsys name f d in
  if fiIsDir d then
    if condResult_eqb (checkIfModifiedSince ParseTime r (fiModTime d)) condFalse
    then writeNotModified w
    else dirList urlString h (setLastModified FormatTime w (fiModTime d)) r f
  else serveContent ParseTime FormatTime TypeByExtension DetectContentType
         (callbacks h) rnd1 rnd2 w r (fiName d) (fiModTime d) (fiSize d, None)
         (fContent f).

(** * Properties *)

(** ** Strings *)

Section StringFacts.

Lemma sapp_assoc (a b c : string) : (a +:+ b) +:+ c = a +:+ (b +:+ c).
Proof. induction a as [|x a IH]; simpl; [reflexivity | now rewrite IH]. Qed.

Lemma sapp_nil_r (a : string) : a +:+ "" = a.
Proof. induction a as [|x a IH]; simpl; [reflexivity | now rewrite IH]. Qed.

Lemma slength_app (a b : string) :
  String.length (a +:+ b) = (String.length a + String.length b)%nat.
Proof. induction a as [|x a IH]; simpl; [reflexivity | now rewrite IH]. Qed.

Lemma stake_sdrop (n : nat) (s : string) : stake n s +:+ sdrop n s = s.
Proof.
  revert s; induction n as [|n IH]; intros [|c s]; simpl; try reflexivity.
  now rewrite IH.
Qed.

Lemma stake_app_len (pre x : string) (k : nat) :
  stake (String.length pre + k) (pre +:+ x) = pre +:+ stake k x.
Proof. induction pre as [|c pre IH]; simpl; [reflexivity | now rewrite IH]. Qed.

Lemma sdrop_app_len (pre x : string) (k : nat) :
  sdrop (String.length pre + k) (pre +:+ x) = sdrop k x.
Proof. induction pre as [|c pre IH]; simpl; [reflexivity | exact IH]. Qed.

Lemma b2z_inj (a b : ascii) : b2z a = b2z b -> a = b.
Proof.
  unfold b2z; intros E. apply N2Z.inj in E.
  rewrite <- (ascii_N_embedding a), <- (ascii_N_embedding b). now rewrite E.
Qed.

Lemma byte_eqb_eq (a b : ascii) : byte_eqb a b = true <-> a = b.
Proof.
  unfold byte_eqb; rewrite Z.eqb_eq; split; [apply b2z_inj | now intros ->].
Qed.

Lemma byte_eqb_refl (a : ascii) : byte_eqb a a = true.
Proof. now apply byte_eqb_eq. Qed.

Lemma b2z_range (c : ascii) : 0 <= b2z c < 256.
Proof.
  unfold b2z. pose proof (N_ascii_bounded c) as B.
  split; [apply N2Z.is_nonneg|]. change 256 with (Z.of_N 256). now apply N2Z.inj_lt.
Qed.

Lemma isEmpty_true (s : string) : isEmpty s = true <-> s = "".
Proof. destruct s; simpl; split; congruence. Qed.

Lemma isEmpty_false (s : string) : isEmpty s = false <-> s <> "".
Proof. destruct s; simpl; split; congruence. Qed.

Lemma trimLeft_length (s : string) :
  (String.length (trimLeft s) <= String.length s)%nat.
Proof.
  induction s as [|c s IH]; simpl; [lia|]. destruct (isASCIISpace c); simpl; lia.
Qed.

Lemma trimRight_length (s : string) :
  (String.length (trimRight s) <= String.length s)%nat.
Proof.
  induction s as [|c s IH]; simpl; [lia|].
  destruct (trimRight s); [destruct (isASCIISpace c)|]; simpl in *; lia.
Qed.

Lemma TrimString_length (s : string) :
  (String.length (TrimString s) <= String.length s)%nat.
Proof.
  unfold TrimString. pose proof (trimRight_length (trimLeft s)).
  pose proof (trimLeft_length s). lia.
Qed.

End StringFacts.

(** ** Entity tags *)

Section ETag.

Lemma etagc_dquote : etagc dquote = false.
Proof. reflexivity. Qed.

(** The scan finds the closing quote after a body of allowed bytes. *)
Lemma scanETag_loop_found (body pre rest' : string) :
  allb etagc body = true ->
  scanETag_loop (pre +:+ body +:+ String dquote rest') (String.length pre)
    (body +:+ String dquote rest')
  = (pre +:+ body +:+ String dquote "", rest').
Proof.
  revert pre; induction body as [|c body IH]; intros pre Hall; simpl in *.
  - rewrite stake_app_len, sdrop_app_len. reflexivity.
  - apply andb_prop in Hall as [Hc Hall]. rewrite Hc.
    specialize (IH (pre +:+ String c "") Hall).
    rewrite slength_app in IH; simpl in IH.
    rewrite Nat.add_1_r in IH. rewrite !sapp_assoc in IH. simpl in IH.
    exact IH.
Qed.

(** Whatever the scan returns is either the empty pair or a body of
    allowed bytes up to the first quote. *)
Lemma scanETag_loop_sound (rest pre etag remain : string) :
  scanETag_loop (pre +:+ rest) (String.length pre) rest = (etag, remain) ->
  (etag = "" /\ remain = "")
  \/ exists body, allb etagc body = true
                  /\ rest = body +:+ String dquote remain
                  /\ etag = pre +:+ body +:+ String dquote "".
Proof.
  revert pre; induction rest as [|c rest IH]; intros pre H; simpl in H.
  - left. now inversion H.
  - destruct (etagc c) eqn:Hc.
    + specialize (IH (pre +:+ String c "")).
      rewrite slength_app, sapp_assoc in IH; simpl in IH.
      rewrite Nat.add_1_r in IH.
      destruct (IH H) as [E | (body & Hb & -> & ->)]; [now left | right].
      exists (String c body). simpl. rewrite Hc, Hb.
      rewrite sapp_assoc. simpl. auto.
    + destruct (byte_eqb c dquote) eqn:Hq.
      * apply byte_eqb_eq in Hq; subst c.
        rewrite stake_app_len, sdrop_app_len in H. simpl in H.
        inversion H; subst. right. exists "". simpl. auto.
      * left. now inversion H.
Qed.

Lemma len_quoted (body rest : string) :
  (len (String dquote (body +:+ String dquote rest)) <? 2) = false.
Proof.
  apply Z.ltb_ge. unfold len. simpl String.length.
  rewrite slength_app. simpl String.length. lia.
Qed.

Lemma scanETag_complete (s t rest : string) :
  isETag t -> TrimString s = t +:+ rest -> scanETag s = (t, rest).
Proof.
  intros (body & Hall & [-> | ->]) E; unfold scanETag; rewrite E; clear E.
  - replace (String dquote (body +:+ String dquote "") +:+ rest)
      with (String dquote (body +:+ String dquote rest))
      by (simpl; now rewrite sapp_assoc).
    replace (HasPrefix (String dquote (body +:+ String dquote rest)) "W/")
      with false by reflexivity.
    cbv iota. cbn [sdrop String.get Nat.add].
    rewrite len_quoted, byte_eqb_refl. cbn [negb orb].
    apply (scanETag_loop_found body (String dquote "") rest Hall).
  - unfold weakMarker.
    replace (("W/" +:+ String dquote (body +:+ String dquote "")) +:+ rest)
      with (String "W" (String "/" (String dquote (body +:+ String dquote rest))))
      by (simpl; now rewrite sapp_assoc).
    replace (HasPrefix (String "W" (String "/" (String dquote (body +:+ String dquote rest)))) "W/")
      with true by reflexivity.
    cbv iota. cbn [sdrop String.get Nat.add].
    rewrite len_quoted, byte_eqb_refl. cbn [negb orb].
    apply (scanETag_loop_found body ("W/" +:+ String dquote "") rest Hall).
Qed.

Lemma HasPrefix_app (s p : string) :
  HasPrefix s p = true -> s = p +:+ sdrop (String.length p) s.
Proof.
  revert s; induction p as [|a p IH]; intros [|b s] H; simpl in *;
    try reflexivity; try discriminate.
  apply andb_prop in H as [Hab H]. apply byte_eqb_eq in Hab as ->.
  now rewrite <- IH.
Qed.

Lemma HasPrefix_weak (t : string) :
  HasPrefix t "W/" = true -> exists t2, t = String "W" (String "/" t2).
Proof.
  intros H. exists (sdrop 2 t). exact (HasPrefix_app t "W/" H).
Qed.

Lemma scanETag_sound (s etag remain : string) :
  scanETag s = (etag, remain) ->
  (etag = "" /\ remain = "")
  \/ (isETag etag /\ TrimString s = etag +:+ remain).
Proof.
  unfold scanETag. generalize (TrimString s) as t. intros t H.
  destruct (HasPrefix t "W/") eqn:HP.
  - apply HasPrefix_weak in HP as [t2 ->].
    destruct (len (sdrop 2 (String "W" (String "/" t2))) <? 2) eqn:HL;
      [left; now inversion H|].
    cbn [orb sdrop String.get Nat.add] in H.
    destruct t2 as [|c2 t3]; cbn [String.get negb] in H; [left; now inversion H|].
    destruct (byte_eqb c2 dquote) eqn:Hq; cbn [negb] in H; [|left; now inversion H].
    apply byte_eqb_eq in Hq; subst c2.
    pose proof (scanETag_loop_sound t3 ("W/" +:+ String dquote "") etag remain H)
      as [E | (body & Hb & -> & ->)]; [now left | right]. split.
    + exists body. split; [assumption|]. right. reflexivity.
    + simpl. rewrite sapp_assoc. reflexivity.
  - destruct (len (sdrop 0 t) <? 2) eqn:HL; [left; now inversion H|].
    cbn [orb sdrop String.get Nat.add] in H.
    destruct t as [|c0 t1]; cbn [String.get negb] in H; [left; now inversion H|].
    destruct (byte_eqb c0 dquote) eqn:Hq; cbn [negb] in H; [|left; now inversion H].
    apply byte_eqb_eq in Hq; subst c0.
    pose proof (scanETag_loop_sound t1 (String dquote "") etag remain H)
      as [E | (body & Hb & -> & ->)]; [now left | right]. split.
    + exists body. split; [assumption|]. left. reflexivity.
    + simpl. rewrite sapp_assoc. reflexivity.
Qed.

Lemma lastByte_app_quote (a : string) (c : ascii) :
  lastByte (a +:+ String c "") = Some c.
Proof.
  induction a as [|x a IH]; simpl; [reflexivity|].
  destruct (a +:+ String c "") eqn:E; [destruct a; discriminate | exact IH].
Qed.

Lemma isETag_shape (t : string) :
  isETag t ->
  t <> "" /\ lastByte t = Some dquote
  /\ (HasPrefix t (String dquote "") = true
      \/ HasPrefix t (weakMarker +:+ String dquote "") = true).
Proof.
  intros (body & _ & [-> | ->]); (split; [discriminate|]); split.
  - apply (lastByte_app_quote (String dquote body)).
  - left. reflexivity.
  - change (weakMarker +:+ String dquote (body +:+ String dquote ""))
      with ((weakMarker +:+ String dquote body) +:+ String dquote "").
    apply lastByte_app_quote.
  - right. reflexivity.
Qed.

End ETag.

(** C10. Whenever scanETag returns a non-empty entity tag, the tag followed
    by the remainder is the whitespace-trimmed input, the tag ends with a
    double quote, and it begins with a double quote or with the weak marker
    W/ followed by a double quote; whenever no well-formed entity tag heads
    the (trimmed) input, both returned values are empty. *)
Theorem scanETag_spec (s etag remain : string) :
  scanETag s = (etag, remain) ->
  (etag <> "" ->
     etag +:+ remain = TrimString s
     /\ lastByte etag = Some dquote
     /\ (HasPrefix etag (String dquote "") = true
         \/ HasPrefix etag (weakMarker +:+ String dquote "") = true))
  /\ (~ headsETag (TrimString s) -> etag = "" /\ remain = "").
Proof.
  intros H. destruct (scanETag_sound s etag remain H) as [[-> ->] | [Ht E]].
  - split; [congruence | auto].
  - split.
    + intros _. split; [now symmetry|]. now apply isETag_shape.
    + intros Hno. exfalso. apply Hno. now exists etag, remain.
Qed.

Lemma scanETag_spec_witness :
  scanETag listWeakThenXYZ = (weakABC, ", " +:+ tagXYZ)
  /\ ((weakABC <> "" ->
         weakABC +:+ ", " +:+ tagXYZ = TrimString listWeakThenXYZ
         /\ lastByte weakABC = Some dquote
         /\ (HasPrefix weakABC (String dquote "") = true
             \/ HasPrefix weakABC (weakMarker +:+ String dquote "") = true))
      /\ (~ headsETag (TrimString listWeakThenXYZ) ->
          weakABC = "" /\ ", " +:+ tagXYZ = "")).
Proof.
  split; [reflexivity|].
  apply (scanETag_spec listWeakThenXYZ weakABC (", " +:+ tagXYZ)). reflexivity.
Defined.

(** ** The 304 response *)

Section NotModified.

Lemma Get_delete_ne (h : Header) (k k' : string) :
  k <> k' -> http.Get (delete k h) k' = http.Get h k'.
Proof. intros Hne. unfold http.Get. now rewrite lookup_delete_ne. Qed.

End NotModified.

(** C9. Writing the 304 removes the Content-Type, Content-Length and
    Content-Encoding response headers, removes Last-Modified exactly when an
    ETag response header is present (its value is not empty), leaves every
    other response header as it was, and makes one call on the response
    writer: WriteHeader(304), with no body written. *)
Theorem writeNotModified_frame (w : ResponseWriter) :
  let w' := writeNotModified w in
  wHeader w' !! "Content-Type" = None
  /\ wHeader w' !! "Content-Length" = None
  /\ wHeader w' !! "Content-Encoding" = None
  /\ (http.Get (wHeader w) "Etag" <> "" -> wHeader w' !! "Last-Modified" = None)
  /\ (http.Get (wHeader w) "Etag" = "" ->
      wHeader w' !! "Last-Modified" = wHeader w !! "Last-Modified")
  /\ (forall k : string,
        k <> "Content-Type" -> k <> "Content-Length" ->
        k <> "Content-Encoding" -> k <> "Last-Modified" ->
        wHeader w' !! k = wHeader w !! k)
  /\ wEvents w' = (wEvents w ++ [EvWriteHeader 304])%list
  /\ bodyOf (wEvents w') = bodyOf (wEvents w).
Proof.
  destruct w as [h evs]. unfold writeNotModified. cbn [wHeader wEvents withHeader WriteHeader].
  rewrite !Get_delete_ne by discriminate.
  assert (Hbody : bodyOf (evs ++ [EvWriteHeader http.StatusNotModified])%list = bodyOf evs).
  { induction evs as [|[c|p] evs IH]; simpl; [reflexivity | exact IH | now rewrite IH]. }
  destruct (isEmpty (http.Get h "Etag")) eqn:E; cbn [negb];
    [apply isEmpty_true in E | apply isEmpty_false in E];
    repeat split; try assumption; try congruence; intros;
    rewrite ?lookup_delete_ne by (discriminate || congruence);
    try apply lookup_delete_eq; reflexivity.
Qed.

(** ** Conditional requests *)

Section ConditionFacts.

Variable ParseTime : string -> option Time.

(** A successful scan consumes at least one byte. *)
Lemma scanETag_shrinks (s etag remain : string) :
  scanETag s = (etag, remain) -> etag <> "" ->
  (String.length remain < String.length s)%nat.
Proof.
  intros H Hne. destruct (scanETag_sound s etag remain H) as [[-> _] | [_ E]];
    [congruence|].
  pose proof (TrimString_length s) as L. rewrite E, slength_app in L.
  destruct etag; [congruence | simpl in L; lia].
Qed.

Lemma TrimString_cons_length (s rest : string) (c : ascii) :
  TrimString s = String c rest -> (String.length rest < String.length s)%nat.
Proof.
  intros E. pose proof (TrimString_length s) as L. rewrite E in L.
  simpl in L. lia.
Qed.

(** The fuel handed to the loops is enough: they always exit. *)
Lemma checkIfMatch_loop_exits (w : ResponseWriter) (fuel : nat) (im : string) :
  (String.length im < fuel)%nat -> checkIfMatch_loop fuel w im <> None.
Proof.
  revert im; induction fuel as [|fuel IH]; intros im L; [lia|].
  cbn [checkIfMatch_loop].
  destruct (TrimString im) as [|c rest] eqn:E; [discriminate|].
  pose proof (TrimString_cons_length _ _ _ E) as L1.
  destruct (byte_eqb c ","); [apply IH; lia|].
  destruct (byte_eqb c "*"); [discriminate|].
  destruct (scanETag (String c rest)) as [etag remain] eqn:Es.
  destruct (isEmpty etag) eqn:Ee; [discriminate|].
  destruct (etagStrongMatch etag _); [discriminate|].
  apply isEmpty_false in Ee. pose proof (scanETag_shrinks _ _ _ Es Ee) as L2.
  simpl in L2. apply IH. lia.
Qed.

Lemma checkIfNoneMatch_loop_exits (w : ResponseWriter) (fuel : nat) (buf : string) :
  (String.length buf < fuel)%nat -> checkIfNoneMatch_loop fuel w buf <> None.
Proof.
  revert buf; induction fuel as [|fuel IH]; intros buf L; [lia|].
  cbn [checkIfNoneMatch_loop].
  destruct (TrimString buf) as [|c rest] eqn:E; [discriminate|].
  pose proof (TrimString_cons_length _ _ _ E) as L1.
  destruct (byte_eqb c ","); [apply IH; lia|].
  destruct (byte_eqb c "*"); [discriminate|].
  destruct (scanETag (String c rest)) as [etag remain] eqn:Es.
  destruct (isEmpty etag) eqn:Ee; [discriminate|].
  destruct (etagWeakMatch etag _); [discriminate|].
  apply isEmpty_false in Ee. pose proof (scanETag_shrinks _ _ _ Es Ee) as L2.
  simpl in L2. apply IH. lia.
Qed.

(** The only value the loop of checkIfNoneMatch ever returns. *)
Lemma checkIfNoneMatch_loop_return (w : ResponseWriter) (fuel : nat)
    (buf : string) (res : condResult) :
  checkIfNoneMatch_loop fuel w buf = Some (Return res) -> res = condFalse.
Proof.
  revert buf; induction fuel as [|fuel IH]; intros buf H; [discriminate|].
  cbn [checkIfNoneMatch_loop] in H.
  destruct (TrimString buf) as [|c rest]; [discriminate|].
  destruct (byte_eqb c ","); [now apply IH in H|].
  destruct (byte_eqb c "*"); [now inversion H|].
  destruct (scanETag (String c rest)) as [etag remain].
  destruct (isEmpty etag); [discriminate|].
  destruct (etagWeakMatch etag _); [now inversion H | now apply IH in H].
Qed.

(** Whatever a present If-None-Match header lists, the outcome is
    condFalse: the function has no path that returns condTrue. *)
Lemma checkIfNoneMatch_present (w : ResponseWriter) (r : Request) :
  http.Get (rHeader r) "If-None-Match" <> "" ->
  checkIfNoneMatch w r = condFalse.
Proof.
  intros Hne. unfold checkIfNoneMatch.
  apply isEmpty_false in Hne. rewrite Hne.
  destruct (checkIfNoneMatch_loop _ w _) as [[res|]|] eqn:E; try reflexivity.
  now apply checkIfNoneMatch_loop_return in E.
Qed.

Lemma checkIfNoneMatch_absent (w : ResponseWriter) (r : Request) :
  http.Get (rHeader r) "If-None-Match" = "" ->
  checkIfNoneMatch w r = condNone.
Proof. intros E. unfold checkIfNoneMatch. now rewrite E. Qed.

Lemma checkPreconditions_failed (w : ResponseWriter) (r : Request) (modtime : Time) :
  preconditionFailed ParseTime w r modtime = true ->
  checkPreconditions ParseTime w r modtime
  = (WriteHeader w http.StatusPreconditionFailed, (true, "")).
Proof.
  unfold preconditionFailed, checkPreconditions. cbv zeta. now intros ->.
Qed.

(** A blocking If-None-Match on GET or HEAD writes the 304. *)
Lemma checkPreconditions_noneMatch_get (w : ResponseWriter) (r : Request)
    (modtime : Time) :
  preconditionFailed ParseTime w r modtime = false ->
  checkIfNoneMatch w r = condFalse ->
  isGetOrHead (Method r) = true ->
  checkPreconditions ParseTime w r modtime = (writeNotModified w, (true, "")).
Proof.
  unfold preconditionFailed, checkPreconditions, isGetOrHead. cbv zeta.
  now intros -> -> ->.
Qed.

(** On any other method it does not: the request goes on to the range
    handling. *)
Lemma checkPreconditions_noneMatch_other (w : ResponseWriter) (r : Request)
    (modtime : Time) :
  preconditionFailed ParseTime w r modtime = false ->
  checkIfNoneMatch w r = condFalse ->
  isGetOrHead (Method r) = false ->
  checkPreconditions ParseTime w r modtime
  = (w, (false,
         if negb (isEmpty (http.Get (rHeader r) "Range"))
            && condResult_eqb (checkIfRange ParseTime w r modtime) condFalse
         then "" else http.Get (rHeader r) "Range")).
Proof.
  unfold preconditionFailed, checkPreconditions, isGetOrHead. cbv zeta.
  now intros -> -> ->.
Qed.

Lemma checkIfRange_other_method (w : ResponseWriter) (r : Request) (modtime : Time) :
  isGetOrHead (Method r) = false ->
  checkIfRange ParseTime w r modtime = condNone.
Proof.
  unfold isGetOrHead, checkIfRange. intros H.
  apply orb_false_elim in H as [-> ->]. reflexivity.
Qed.

(** The Range header that checkPreconditions hands on is the request's or
    the empty string. *)
Lemma checkPreconditions_range (w : ResponseWriter) (r : Request) (modtime : Time) :
  snd (snd (checkPreconditions ParseTime w r modtime)) = ""
  \/ (fst (snd (checkPreconditions ParseTime w r modtime)) = false
      /\ fst (checkPreconditions ParseTime w r modtime) = w
      /\ snd (snd (checkPreconditions ParseTime w r modtime))
         = http.Get (rHeader r) "Range"
      /\ (http.Get (rHeader r) "Range" <> "" ->
          checkIfRange ParseTime w r modtime <> condFalse)).
Proof.
  unfold checkPreconditions. cbv zeta.
  destruct (condResult_eqb _ condFalse); [now left|].
  match goal with
  | |- context [match ?a with Some _ => _ | None => _ end] => destruct a
  end; [now left|].
  destruct (isEmpty (http.Get (rHeader r) "Range")) eqn:E; cbn [negb andb].
  - apply isEmpty_true in E. right. repeat split; cbn; congruence.
  - destruct (checkIfRange ParseTime w r modtime) eqn:C; cbn; auto;
      right; repeat split; congruence.
Qed.

End ConditionFacts.

Section ConditionClaims.

Variable ParseTime : string -> option Time.

Lemma concat_nonempty (sep etag : string) (tags : list string) :
  In etag tags -> etag <> "" -> String.concat sep tags <> "".
Proof.
  induction tags as [|t tags IH]; intros Hin Hne; [contradiction|].
  simpl. destruct tags as [|t' tags'].
  - destruct Hin as [-> | []]. assumption.
  - destruct t as [|c t]; [|discriminate].
    destruct Hin as [<- | Hin]; [congruence|].
    specialize (IH Hin Hne). simpl.
    destruct sep; [exact IH | discriminate].
Qed.

Lemma etagStrongMatch_nonempty (a b : string) :
  etagStrongMatch a b = true -> a <> "" /\ a = b.
Proof.
  unfold etagStrongMatch. intros H.
  apply andb_prop in H as [H _]. apply andb_prop in H as [H1 H2].
  apply String.eqb_eq in H1. destruct a; [discriminate|]. split; [discriminate | assumption].
Qed.

(** C6. If the If-None-Match header is a list that contains the
    resource's current strong ETag (the stored ETag response header) and
    the If-Match / If-Unmodified-Since stage has not failed the request,
    then on GET or HEAD the 304 is written and the evaluation is done,
    while on any other method (POST among them) nothing is written and
    the request goes on to delivery. *)
Theorem ifNoneMatch_current_etag (w : ResponseWriter) (r : Request)
    (modtime : Time) (etag : string) (tags : list string) :
  In etag tags ->
  etagStrongMatch etag (getHeader (wHeader w) "Etag") = true ->
  http.Get (rHeader r) "If-None-Match" = tagList tags ->
  preconditionFailed ParseTime w r modtime = false ->
  let res := checkPreconditions ParseTime w r modtime in
  (isGetOrHead (Method r) = true ->
     res = (writeNotModified w, (true, ""))
     /\ wEvents (fst res) = (wEvents w ++ [EvWriteHeader 304])%list)
  /\ (isGetOrHead (Method r) = false ->
        fst res = w /\ fst (snd res) = false).
Proof.
  intros Hin Hstrong Hhdr Hpre res.
  apply etagStrongMatch_nonempty in Hstrong as [Hne _].
  assert (Hinm : checkIfNoneMatch w r = condFalse).
  { apply checkIfNoneMatch_present. rewrite Hhdr.
    now apply concat_nonempty with (etag := etag). }
  split; intros Hm; subst res.
  - rewrite (checkPreconditions_noneMatch_get ParseTime w r modtime Hpre Hinm Hm).
    split; reflexivity.
  - rewrite (checkPreconditions_noneMatch_other ParseTime w r modtime Hpre Hinm Hm).
    split; reflexivity.
Qed.

Lemma checkIfRange_mismatch (w : ResponseWriter) (r : Request) (modtime : Time) :
  isGetOrHead (Method r) = true ->
  http.Get (rHeader r) "If-Range" <> "" ->
  IfRangeMismatch ParseTime (http.Get (rHeader r) "If-Range")
    (http.Get (wHeader w) "Etag") modtime ->
  checkIfRange ParseTime w r modtime = condFalse.
Proof.
  intros Hm Hir Hmis. unfold checkIfRange.
  replace (negb (Method r =? http.MethodGet)%string
           && negb (Method r =? http.MethodHead)%string) with false.
  2:{ unfold isGetOrHead in Hm. destruct (Method r =? http.MethodGet)%string;
      destruct (Method r =? http.MethodHead)%string; simpl in *; congruence. }
  apply isEmpty_false in Hir. rewrite Hir.
  destruct (scanETag (http.Get (rHeader r) "If-Range")) as [etag remain] eqn:Es.
  destruct Hmis as [Hne Hs | t He Hp Hu | t He Hp Hz];
    rewrite Es in *; cbn [fst] in *.
  - apply isEmpty_false in Hne. rewrite Hne. cbn [negb]. now rewrite Hs.
  - subst etag. cbn [isEmpty negb]. destruct (time.IsZero modtime); [reflexivity|].
    rewrite Hp. apply Z.eqb_neq in Hu. now rewrite Hu.
  - subst etag. cbn [isEmpty negb]. now rewrite Hz.
Qed.

(** C2 (as amended). For a GET or HEAD request that carries a Range
    header and an If-Range header that fails to match, checkPreconditions
    hands on no Range header: the request keeps the disposition already
    computed.  For any other method If-Range is not evaluated: when the
    evaluation is not done, the Range header is handed on unchanged. *)
Theorem ifRange_mismatch_drops_range (w : ResponseWriter) (r : Request)
    (modtime : Time) :
  http.Get (rHeader r) "Range" <> "" ->
  http.Get (rHeader r) "If-Range" <> "" ->
  IfRangeMismatch ParseTime (http.Get (rHeader r) "If-Range")
    (http.Get (wHeader w) "Etag") modtime ->
  let res := checkPreconditions ParseTime w r modtime in
  (isGetOrHead (Method r) = true ->
     snd (snd res) = ""
     /\ forall size : Z, parseRange (snd (snd res)) size = ([], None))
  /\ (isGetOrHead (Method r) = false ->
      fst (snd res) = false -> snd (snd res) = http.Get (rHeader r) "Range").
Proof.
  intros Hrange Hir Hmis res. subst res. split; intros Hm.
  - assert (E : snd (snd (checkPreconditions ParseTime w r modtime)) = "").
    { destruct (checkPreconditions_range ParseTime w r modtime)
        as [E | (_ & _ & _ & Hkeep)]; [exact E|].
      exfalso. apply (Hkeep Hrange). now apply checkIfRange_mismatch. }
    split; [exact E | intros size; now rewrite E].
  - intros Hdone.
    destruct (checkPreconditions_range ParseTime w r modtime)
      as [E | (_ & _ & E & _)]; [|exact E].
    exfalso. revert Hdone E. unfold checkPreconditions. cbv zeta.
    destruct (condResult_eqb _ condFalse); [discriminate|].
    match goal with
    | |- context [match ?a with Some _ => _ | None => _ end] => destruct a
    end; [discriminate|].
    rewrite (checkIfRange_other_method ParseTime w r modtime Hm).
    rewrite andb_false_r. cbn. congruence.
Qed.

End ConditionClaims.

Lemma ifNoneMatch_current_etag_witness :
  (In tagABC [tagXYZ; tagABC]
   /\ etagStrongMatch tagABC (getHeader (wHeader wABC) "Etag") = true
   /\ http.Get (rHeader getIfNoneMatchList) "If-None-Match" = tagList [tagXYZ; tagABC]
   /\ preconditionFailed noParseTime wABC getIfNoneMatchList someTime = false)
  /\ (let res := checkPreconditions noParseTime wABC getIfNoneMatchList someTime in
      (isGetOrHead (Method getIfNoneMatchList) = true ->
         res = (writeNotModified wABC, (true, ""))
         /\ wEvents (fst res) = (wEvents wABC ++ [EvWriteHeader 304])%list)
      /\ (isGetOrHead (Method getIfNoneMatchList) = false ->
            fst res = wABC /\ fst (snd res) = false)).
Proof.
  split.
  - repeat split; try reflexivity. simpl. auto.
  - apply (ifNoneMatch_current_etag noParseTime wABC getIfNoneMatchList someTime
             tagABC [tagXYZ; tagABC]); try reflexivity.
    simpl. auto.
Defined.

(** The same list on POST: nothing is written and the evaluation is not
    done. *)
Example ifNoneMatch_current_etag_post :
  checkPreconditions noParseTime wABC postIfNoneMatchList someTime
  = (wABC, (false, "")).
Proof. vm_compute. reflexivity. Qed.

(** C1, evaluated: GET with If-None-Match: "abc" against the stored ETag
    "xyz".  The header is one well-formed entity tag that does not
    weak-match the stored one, yet the outcome of checkIfNoneMatch is
    condFalse and checkPreconditions writes the 304 and stops. *)
Theorem ifNoneMatch_nonmatching_not_modified :
  scanETag tagABC = (tagABC, "")
  /\ etagWeakMatch tagABC (getHeader (wHeader wXYZ) "Etag") = false
  /\ preconditionFailed noParseTime wXYZ getIfNoneMatchABC someTime = false
  /\ checkIfNoneMatch wXYZ getIfNoneMatchABC = condFalse
  /\ checkPreconditions noParseTime wXYZ getIfNoneMatchABC someTime
     = (writeNotModified wXYZ, (true, ""))
  /\ statusOf (wEvents (fst (checkPreconditions noParseTime wXYZ
                               getIfNoneMatchABC someTime)))
     = Some http.StatusNotModified.
Proof. repeat split; vm_compute; reflexivity. Qed.

(** checkIfNoneMatch has no outcome condTrue at all. *)
Lemma checkIfNoneMatch_never_condTrue (w : ResponseWriter) (r : Request) :
  checkIfNoneMatch w r <> condTrue.
Proof.
  destruct (isEmpty (http.Get (rHeader r) "If-None-Match")) eqn:E.
  - apply isEmpty_true in E. rewrite (checkIfNoneMatch_absent w r E). discriminate.
  - apply isEmpty_false in E. rewrite (checkIfNoneMatch_present w r E). discriminate.
Qed.

(** C2, as stated, fails on POST: the If-Range entity tag "abc" does not
    match the stored ETag "xyz", and the Range header is handed on. *)
Lemma ifRange_mismatch_post_keeps_range :
  http.Get (rHeader postIfRangeABC) "Range" <> ""
  /\ http.Get (rHeader postIfRangeABC) "If-Range" <> ""
  /\ IfRangeMismatch noParseTime (http.Get (rHeader postIfRangeABC) "If-Range")
       (http.Get (wHeader wXYZ) "Etag") someTime
  /\ snd (snd (checkPreconditions noParseTime wXYZ postIfRangeABC someTime))
     = "bytes=0-0"
  /\ snd (snd (checkPreconditions noParseTime wXYZ postIfRangeABC someTime)) <> "".
Proof.
  repeat split; try discriminate.
  apply mismatch_etag; [discriminate | reflexivity].
Qed.

Lemma ifRange_mismatch_drops_range_witness :
  (http.Get (rHeader getIfRangeABC) "Range" <> ""
   /\ http.Get (rHeader getIfRangeABC) "If-Range" <> ""
   /\ IfRangeMismatch noParseTime (http.Get (rHeader getIfRangeABC) "If-Range")
        (http.Get (wHeader wXYZ) "Etag") someTime)
  /\ (let res := checkPreconditions noParseTime wXYZ getIfRangeABC someTime in
      (isGetOrHead (Method getIfRangeABC) = true ->
         snd (snd res) = ""
         /\ forall size : Z, parseRange (snd (snd res)) size = ([], None))
      /\ (isGetOrHead (Method getIfRangeABC) = false ->
          fst (snd res) = false ->
          snd (snd res) = http.Get (rHeader getIfRangeABC) "Range")).
Proof.
  assert (H : IfRangeMismatch noParseTime (http.Get (rHeader getIfRangeABC) "If-Range")
                (http.Get (wHeader wXYZ) "Etag") someTime)
    by (apply mismatch_etag; [discriminate | reflexivity]).
  split.
  - repeat split; try discriminate. exact H.
  - apply (ifRange_mismatch_drops_range noParseTime wXYZ getIfRangeABC someTime);
      [discriminate | discriminate | exact H].
Defined.

(** ** Range parsing *)

Section RangeFacts.

Lemma wrap64_id (z : Z) : minInt64 <= z <= maxInt64 -> wrap64 z = z.
Proof.
  unfold minInt64, maxInt64, wrap64. intros H.
  rewrite Z.mod_small; lia.
Qed.

(** The loop of parseRange, one entry at a time. *)
Lemma parseRange_loop_cons (ra : string) (entries : list string) (size : Z)
    (ranges : list httpRange) (noOverlap : bool) :
  parseRange_loop (ra :: entries) size ranges noOverlap
  = match parseEntry ra size with
    | EntryEmpty => parseRange_loop entries size ranges noOverlap
    | EntryInvalid => inr ErrInvalidRange
    | EntryNoOverlap => parseRange_loop entries size ranges true
    | EntryRange r => parseRange_loop entries size (ranges ++ [r]) noOverlap
    end.
Proof.
  cbn [parseRange_loop]. unfold parseEntry.
  destruct (isEmpty (TrimString ra)); [reflexivity|].
  destruct (Cut (TrimString ra) "-") as [[start_ end_] ok].
  destruct ok; cbn [negb]; [|reflexivity].
  destruct (isEmpty (TrimString start_)).
  - destruct (isEmpty (TrimString end_) || _); [reflexivity|].
    destruct (strconv.ParseInt (TrimString end_)) as [i err].
    destruct ((i <? 0) || isErr err); reflexivity.
  - destruct (strconv.ParseInt (TrimString start_)) as [i err].
    destruct (isErr err || (i <? 0)); [reflexivity|].
    destruct (i >=? size); [reflexivity|].
    destruct (isEmpty (TrimString end_)); [reflexivity|].
    destruct (strconv.ParseInt (TrimString end_)) as [j err'].
    destruct (isErr err' || (i >? j)); reflexivity.
Qed.

Lemma parseEntry_empty (ra : string) (size : Z) :
  parseEntry ra size = EntryEmpty <-> TrimString ra = "".
Proof.
  unfold parseEntry. split.
  - destruct (isEmpty (TrimString ra)) eqn:E; [intros _; now apply isEmpty_true|].
    destruct (Cut (TrimString ra) "-") as [[start_ end_] ok].
    destruct ok; cbn [negb]; [|discriminate].
    destruct (isEmpty (TrimString start_)).
    + destruct (isEmpty (TrimString end_) || _); [discriminate|].
      destruct (strconv.ParseInt (TrimString end_)) as [i err].
      destruct ((i <? 0) || isErr err); discriminate.
    + destruct (strconv.ParseInt (TrimString start_)) as [i err].
      destruct (isErr err || (i <? 0)); [discriminate|].
      destruct (i >=? size); [discriminate|].
      destruct (isEmpty (TrimString end_)); [discriminate|].
      destruct (strconv.ParseInt (TrimString end_)) as [j err'].
      destruct (isErr err' || (i >? j)); discriminate.
  - intros ->. reflexivity.
Qed.

(** Every accepted entry lies within the resource. *)
Lemma parseEntry_within (ra : string) (size : Z) (r : httpRange) :
  0 <= size <= maxInt64 ->
  parseEntry ra size = EntryRange r -> rangeWithin size r.
Proof.
  intros Hsize. unfold parseEntry, rangeWithin.
  assert (Hmax : maxInt64 = 9223372036854775807) by reflexivity.
  assert (Hmin : minInt64 = -9223372036854775808) by reflexivity.
  destruct (isEmpty (TrimString ra)); [discriminate|].
  destruct (Cut (TrimString ra) "-") as [[start_ end_] ok].
  destruct ok; cbn [negb]; [|discriminate].
  destruct (isEmpty (TrimString start_)).
  - destruct (isEmpty (TrimString end_) || _); [discriminate|].
    destruct (strconv.ParseInt (TrimString end_)) as [i err].
    destruct (i <? 0) eqn:Hi; [discriminate|]. cbn [orb].
    destruct (isErr err); [discriminate|]. apply Z.ltb_ge in Hi.
    intros H; inversion H; subst r; clear H. cbn [start length].
    destruct (i >? size) eqn:Hgt.
    + rewrite Z.sub_diag. rewrite (wrap64_id 0) by lia.
      rewrite Z.sub_0_r. rewrite (wrap64_id size) by lia. lia.
    + assert (i <= size) by lia.
      rewrite (wrap64_id (size - i)) by lia.
      rewrite (wrap64_id (size - (size - i))) by lia. lia.
  - destruct (strconv.ParseInt (TrimString start_)) as [i err].
    destruct (isErr err); [discriminate|]. cbn [orb].
    destruct (i <? 0) eqn:Hi; [discriminate|]. apply Z.ltb_ge in Hi.
    destruct (i >=? size) eqn:Hge; [discriminate|].
    assert (i < size) by lia.
    destruct (isEmpty (TrimString end_)).
    + intros H'; inversion H'; subst r; clear H'. cbn [start length].
      rewrite (wrap64_id (size - i)) by lia. lia.
    + destruct (strconv.ParseInt (TrimString end_)) as [j err'].
      destruct (isErr err'); [discriminate|]. cbn [orb].
      destruct (i >? j) eqn:Hij; [discriminate|].
      intros H'; inversion H'; subst r; clear H'. cbn [start length].
      assert (i <= j) by lia.
      destruct (j >=? size) eqn:Hj.
      * rewrite (wrap64_id (size - 1)) by lia.
        rewrite (wrap64_id (size - 1 - i)) by lia.
        rewrite (wrap64_id (size - 1 - i + 1)) by lia. lia.
      * assert (j < size) by lia.
        rewrite (wrap64_id (j - i)) by lia.
        rewrite (wrap64_id (j - i + 1)) by lia. lia.
Qed.

(** The loop only appends to the accumulated ranges and never clears the
    overlap-miss flag. *)
Lemma parseRange_loop_grows (entries : list string) (size : Z)
    (ranges ranges' : list httpRange) (no no' : bool) :
  parseRange_loop entries size ranges no = inl (ranges', no') ->
  (exists more, ranges' = (ranges ++ more)%list) /\ (no = true -> no' = true).
Proof.
  revert ranges no; induction entries as [|ra entries IH]; intros ranges no H.
  - cbn in H. inversion H; subst. split; [exists []; now rewrite app_nil_r | auto].
  - rewrite parseRange_loop_cons in H.
    destruct (parseEntry ra size) as [| | |r].
    + now apply IH.
    + discriminate.
    + apply IH in H as [Hm Hn]. split; [assumption | intros _; now apply Hn].
    + apply IH in H as [[more ->] Hn]. split; [|assumption].
      exists (r :: more). now rewrite <- app_assoc.
Qed.

Lemma parseRange_loop_within (entries : list string) (size : Z)
    (ranges ranges' : list httpRange) (no no' : bool) :
  0 <= size <= maxInt64 ->
  Forall (rangeWithin size) ranges ->
  parseRange_loop entries size ranges no = inl (ranges', no') ->
  Forall (rangeWithin size) ranges'.
Proof.
  intros Hsize. revert ranges no; induction entries as [|ra entries IH];
    intros ranges no Hall H.
  - cbn in H. now inversion H; subst.
  - rewrite parseRange_loop_cons in H.
    destruct (parseEntry ra size) as [| | |r] eqn:E.
    + now apply IH in H.
    + discriminate.
    + now apply IH in H.
    + apply IH in H; [assumption|].
      apply Forall_app. split; [assumption|].
      constructor; [|constructor]. now apply parseEntry_within with (ra := ra).
Qed.

(** What parseRange returns, in terms of its loop. *)
Lemma parseRange_ok (s : string) (size : Z) (ranges : list httpRange) :
  parseRange s size = (ranges, None) ->
  ranges = []
  \/ exists no, parseRange_loop (Split (sdrop 6 s) ",") size [] false
                = inl (ranges, no).
Proof.
  unfold parseRange. destruct (isEmpty s); [intros H; inversion H; now left|].
  destruct (HasPrefix s "bytes="); cbn [negb]; [|discriminate].
  cbn [String.length].
  destruct (parseRange_loop _ size [] false) as [[rs no]|e]; [|discriminate].
  destruct (no && _); [discriminate|].
  intros H; inversion H; subst. right. now exists no.
Qed.

End RangeFacts.

(** C4 (as amended). For every Range header and every resource size
    [0 <= size] (an int64), every range of a successfully parsed list has
    start >= 0, length >= 0 and start + length <= size; its start is below
    size, except for an empty suffix range, which has start = size and
    length 0. *)
Theorem parseRange_within (s : string) (size : Z) (ranges : list httpRange)
    (r : httpRange) :
  0 <= size <= maxInt64 ->
  parseRange s size = (ranges, None) ->
  In r ranges ->
  0 <= start r /\ 0 <= length r /\ start r + length r <= size
  /\ (start r < size \/ (start r = size /\ length r = 0)).
Proof.
  intros Hsize Hp Hin.
  destruct (parseRange_ok s size ranges Hp) as [-> | [no Hl]]; [contradiction|].
  apply parseRange_loop_within in Hl; [|assumption|constructor].
  rewrite Forall_forall in Hl. apply Hl. now apply list_elem_of_In.
Qed.

Lemma parseRange_within_witness :
  (0 <= 10 <= maxInt64
   /\ parseRange "bytes=0-0, -3" 10 = ([mkRange 0 1; mkRange 7 3], None)
   /\ In (mkRange 7 3) [mkRange 0 1; mkRange 7 3])
  /\ (0 <= start (mkRange 7 3) /\ 0 <= length (mkRange 7 3)
      /\ start (mkRange 7 3) + length (mkRange 7 3) <= 10
      /\ (start (mkRange 7 3) < 10
          \/ (start (mkRange 7 3) = 10 /\ length (mkRange 7 3) = 0))).
Proof.
  split.
  - split; [vm_compute; split; discriminate|]. split; [reflexivity | simpl; auto].
  - apply (parseRange_within "bytes=0-0, -3" 10 [mkRange 0 1; mkRange 7 3] (mkRange 7 3));
      [vm_compute; split; discriminate | reflexivity | simpl; auto].
Defined.

(** C4, as stated, fails: the suffix range of bytes=-0 on a 10-byte
    resource is parsed successfully and starts at 10, which is not below
    the size. *)
Lemma parseRange_suffix_zero_at_size :
  0 <= 10 <= maxInt64
  /\ parseRange "bytes=-0" 10 = ([mkRange 10 0], None)
  /\ In (mkRange 10 0) [mkRange 10 0]
  /\ ~ (start (mkRange 10 0) < 10).
Proof.
  split; [vm_compute; split; discriminate|].
  split; [reflexivity|]. split; [simpl; auto|]. simpl. lia.
Qed.

Section EmptyEntries.

(** Zero accepted ranges and no overlap miss: exactly the headers all of
    whose entries are empty. *)
Lemma parseRange_loop_nothing (entries : list string) (size : Z) :
  parseRange_loop entries size [] false = inl ([], false)
  <-> Forall (fun e => TrimString e = "") entries.
Proof.
  induction entries as [|ra entries IH].
  - split; [constructor | reflexivity].
  - rewrite parseRange_loop_cons. split.
    + intros H. destruct (parseEntry ra size) as [| | |r] eqn:E.
      * constructor; [now apply (parseEntry_empty ra size) | now apply IH].
      * discriminate.
      * apply parseRange_loop_grows in H as [_ Hn].
        specialize (Hn eq_refl). discriminate.
      * apply parseRange_loop_grows in H as [[more Hm] _].
        destruct more; discriminate.
    + intros H. inversion H as [|? ? He Hrest]; subst.
      apply (parseEntry_empty ra size) in He. rewrite He. now apply IH.
Qed.

End EmptyEntries.

(** C3 (as amended). For every non-empty Range header that starts with
    bytes=, the scan accepts zero ranges and records no overlap miss exactly
    when every comma-separated entry is empty after trimming, and then
    parseRange returns the empty list with no error: the outcome is the one
    of an absent header (full-body delivery), not Malformed. *)
Theorem parseRange_only_empty_entries (s : string) (size : Z) :
  s <> "" ->
  HasPrefix s "bytes=" = true ->
  (parseRange_loop (Split (sdrop 6 s) ",") size [] false = inl ([], false)
   <-> Forall (fun e => TrimString e = "") (Split (sdrop 6 s) ","))
  /\ (parseRange_loop (Split (sdrop 6 s) ",") size [] false = inl ([], false) ->
      parseRange s size = ([], None) /\ parseRange s size = parseRange "" size).
Proof.
  intros Hne Hp. split; [apply parseRange_loop_nothing|].
  intros Hl. unfold parseRange. apply isEmpty_false in Hne.
  rewrite Hne, Hp. cbn [negb String.length]. rewrite Hl. split; reflexivity.
Qed.

Lemma parseRange_only_empty_entries_witness :
  ("bytes= , ," <> "" /\ HasPrefix "bytes= , ," "bytes=" = true)
  /\ ((parseRange_loop (Split (sdrop 6 "bytes= , ,") ",") 10 [] false = inl ([], false)
       <-> Forall (fun e => TrimString e = "") (Split (sdrop 6 "bytes= , ,") ","))
      /\ (parseRange_loop (Split (sdrop 6 "bytes= , ,") ",") 10 [] false
          = inl ([], false) ->
          parseRange "bytes= , ," 10 = ([], None)
          /\ parseRange "bytes= , ," 10 = parseRange "" 10)).
Proof.
  split; [split; [discriminate | reflexivity]|].
  apply (parseRange_only_empty_entries "bytes= , ," 10); [discriminate | reflexivity].
Defined.

(** C3, as stated, fails: bytes= followed by nothing, or by empty entries
    only, is a non-empty header with the prefix, zero accepted ranges and
    no overlap miss, and parseRange reports no error for it. *)
Lemma parseRange_empty_entries_not_malformed :
  "bytes=,," <> ""
  /\ HasPrefix "bytes=,," "bytes=" = true
  /\ parseRange_loop (Split (sdrop 6 "bytes=,,") ",") 10 [] false = inl ([], false)
  /\ parseRange "bytes=,," 10 = ([], None)
  /\ snd (parseRange "bytes=,," 10) <> Some ErrInvalidRange.
Proof. repeat split; try discriminate; reflexivity. Qed.

(** ** Integers in range entries *)

Section ParseIntFacts.

Lemma ParseUint_loop_result (s : string) (n v : Z) (err : option error) :
  0 <= n ->
  strconv.ParseUint_loop s n = (v, err) ->
  match err with
  | None => allb isDigit s = true /\ 0 <= v
  | Some ErrRange => v = maxUint64
  | Some _ => True
  end.
Proof.
  revert n; induction s as [|c s IH]; intros n Hn H.
  - cbn in H. inversion H; subst. now split.
  - cbn [strconv.ParseUint_loop] in H. cbn [allb]. fold (isDigit c) in H.
    destruct (isDigit c) eqn:Hd.
    + cbv zeta in H.
      destruct (b2z c - 48 >=? 10); [inversion H; subst; exact I|].
      destruct (n >=? maxUint64 / 10 + 1); [inversion H; subst; reflexivity|].
      destruct ((_ <? _) || (_ >? _)); [inversion H; subst; reflexivity|].
      apply IH in H; [|apply Z.mod_pos_bound; reflexivity].
      destruct err as [[]|]; auto.
    + cbv zeta in H.
      destruct ((97 <=? strconv.lower c) && (strconv.lower c <=? 122)) eqn:Hl.
      * apply andb_prop in Hl as [Hl _]. apply Z.leb_le in Hl.
        replace (strconv.lower c - 97 + 10 >=? 10) with true in H
          by (symmetry; apply Z.geb_le; lia).
        inversion H; subst; exact I.
      * inversion H; subst; exact I.
Qed.

Lemma ParseUint_result (s : string) (v : Z) (err : option error) :
  strconv.ParseUint s = (v, err) ->
  match err with
  | None => s <> "" /\ allb isDigit s = true /\ 0 <= v
  | Some ErrRange => v = maxUint64
  | Some _ => True
  end.
Proof.
  unfold strconv.ParseUint. destruct s as [|c s].
  - cbn. intros H; inversion H; subst; exact I.
  - cbn [isEmpty]. intros H. apply ParseUint_loop_result in H; [|lia].
    destruct err as [[]|]; auto.
Qed.

(** A string that ParseInt accepts is an optional sign followed by
    decimal digits, and a minus sign gives a value that is not positive. *)
Lemma ParseInt_ok (t : string) (N : Z) :
  strconv.ParseInt t = (N, None) ->
  exists c rest,
    t = String c rest
    /\ allb isDigit rest = true
    /\ (isDigit c = true \/ c = "+"%char \/ c = "-"%char)
    /\ (c = "-"%char -> N <= 0).
Proof.
  destruct t as [|c rest]; [discriminate|]. intros H. exists c, rest.
  split; [reflexivity|]. unfold strconv.ParseInt in H. cbv zeta in H.
  destruct (byte_eqb c "+") eqn:Hplus.
  - apply byte_eqb_eq in Hplus; subst c.
    change (byte_eqb "+" "-") with false in H. cbn [negb andb] in H.
    destruct (strconv.ParseUint rest) as [un err] eqn:Hu.
    apply ParseUint_result in Hu.
    destruct err as [[]|]; try discriminate.
    + subst un. discriminate.
    + destruct Hu as (_ & Hall & _).
      destruct (un >=? 2 ^ 63); [discriminate|].
      repeat split; auto. discriminate.
  - destruct (byte_eqb c "-") eqn:Hminus.
    + apply byte_eqb_eq in Hminus; subst c. cbn [negb andb] in H.
      destruct (strconv.ParseUint rest) as [un err] eqn:Hu.
      apply ParseUint_result in Hu.
      destruct err as [[]|]; try discriminate.
      * subst un. discriminate.
      * destruct Hu as (_ & Hall & Hun).
        destruct (un >? 2 ^ 63) eqn:Hc; [discriminate|].
        inversion H; subst N; clear H.
        repeat split; auto. intros _.
        assert (Hle : un <= 2 ^ 63) by lia.
        destruct (Z.eq_dec un (2 ^ 63)) as [-> | Hneq]; [vm_compute; discriminate|].
        rewrite (wrap64_id un) by (unfold minInt64, maxInt64; lia).
        rewrite (wrap64_id (- un)) by (unfold minInt64, maxInt64; lia). lia.
    + cbn [negb andb] in H.
      destruct (strconv.ParseUint (String c rest)) as [un err] eqn:Hu.
      apply ParseUint_result in Hu.
      destruct err as [[]|]; try discriminate.
      * subst un. discriminate.
      * destruct Hu as (_ & Hall & _). cbn [allb] in Hall.
        apply andb_prop in Hall as [Hc Hall].
        repeat split; auto. intros ->. discriminate.
Qed.

End ParseIntFacts.

Section SuffixFacts.

Lemma isDigit_plain (c : ascii) :
  isDigit c = true -> plainChar c = true /\ byte_eqb c "-" = false.
Proof.
  unfold isDigit, plainChar, isASCIISpace, byte_eqb. intros H.
  apply andb_prop in H as [H1 H2]. apply Z.leb_le in H1, H2.
  change (b2z " ") with 32. change (b2z "009") with 9.
  change (b2z "010") with 10. change (b2z "013") with 13.
  change (b2z ",") with 44. change (b2z "-") with 45.
  repeat match goal with
         | |- context [?a =? ?b] =>
             replace (a =? b) with false by (symmetry; apply Z.eqb_neq; lia)
         end.
  split; reflexivity.
Qed.

Lemma allb_digit_plain (s : string) :
  allb isDigit s = true -> allb plainChar s = true.
Proof.
  induction s as [|c s IH]; cbn [allb]; [reflexivity|]. intros H.
  apply andb_prop in H as [Hc H].
  apply isDigit_plain in Hc as [-> _]. now rewrite IH.
Qed.

Lemma trimLeft_plain (s : string) : allb plainChar s = true -> trimLeft s = s.
Proof.
  destruct s as [|c s]; cbn [allb trimLeft]; [reflexivity|]. intros H.
  apply andb_prop in H as [Hc _]. unfold plainChar in Hc.
  apply andb_prop in Hc as [Hc _]. apply negb_true_iff in Hc. now rewrite Hc.
Qed.

Lemma trimRight_plain (s : string) : allb plainChar s = true -> trimRight s = s.
Proof.
  induction s as [|c s IH]; cbn [allb trimRight]; [reflexivity|]. intros H.
  apply andb_prop in H as [Hc H]. rewrite (IH H).
  unfold plainChar in Hc. apply andb_prop in Hc as [Hc _].
  apply negb_true_iff in Hc. rewrite Hc. now destruct s.
Qed.

Lemma TrimString_plain (s : string) : allb plainChar s = true -> TrimString s = s.
Proof.
  intros H. unfold TrimString. rewrite (trimLeft_plain s H). now apply trimRight_plain.
Qed.

Lemma Split_plain (s : string) : allb plainChar s = true -> Split s "," = [s].
Proof.
  induction s as [|c s IH]; cbn [allb Split]; [reflexivity|]. intros H.
  apply andb_prop in H as [Hc H]. rewrite (IH H).
  unfold plainChar in Hc. apply andb_prop in Hc as [_ Hc].
  apply negb_true_iff in Hc. now rewrite Hc.
Qed.

(** The text of a positive integer that ParseInt accepts is plain and
    does not begin with a minus sign. *)
Lemma ParseInt_positive_plain (t : string) (N : Z) :
  strconv.ParseInt t = (N, None) -> 0 < N ->
  allb plainChar t = true
  /\ exists c rest, t = String c rest /\ byte_eqb c "-" = false.
Proof.
  intros H Hpos. destruct (ParseInt_ok t N H) as (c & rest & -> & Hall & Hc & Hneg).
  assert (Hc' : plainChar c = true /\ byte_eqb c "-" = false).
  { destruct Hc as [Hd | [-> | ->]].
    - now apply isDigit_plain.
    - split; reflexivity.
    - specialize (Hneg eq_refl). lia. }
  destruct Hc' as [Hp Hm]. split.
  - cbn [allb]. rewrite Hp. now apply allb_digit_plain.
  - now exists c, rest.
Qed.

(** A suffix entry whose length exceeds the size is clamped to the whole
    resource. *)
Lemma parseEntry_suffix_clamped (t : string) (N size : Z) :
  0 <= size <= maxInt64 ->
  strconv.ParseInt t = (N, None) -> size < N ->
  parseEntry (String "-" t) size = EntryRange (mkRange 0 size).
Proof.
  intros Hsize Hparse Hgt.
  destruct (ParseInt_positive_plain t N Hparse ltac:(lia))
    as (Hplain & c & rest & Ht & Hminus).
  assert (Hplain' : allb plainChar (String "-" t) = true)
    by (cbn [allb]; now rewrite Hplain).
  unfold parseEntry. rewrite (TrimString_plain _ Hplain').
  cbn [isEmpty Cut]. change (byte_eqb "-" "-") with true. cbv iota beta.
  cbn [negb]. change (TrimString "") with "". cbn [isEmpty].
  rewrite (TrimString_plain t Hplain). rewrite Hparse.
  rewrite Ht at 1 2. cbn [isEmpty String.get orb]. rewrite Hminus.
  replace (N <? 0) with false by (symmetry; apply Z.ltb_ge; lia).
  cbn [isErr orb].
  replace (N >? size) with true by (symmetry; apply Z.gtb_lt; lia).
  rewrite Z.sub_diag, (wrap64_id 0) by (unfold minInt64, maxInt64; lia).
  rewrite Z.sub_0_r, (wrap64_id size) by (unfold minInt64, maxInt64 in *; lia).
  reflexivity.
Qed.

Lemma parseRange_suffix_clamped (t : string) (N size : Z) :
  0 <= size <= maxInt64 ->
  strconv.ParseInt t = (N, None) -> size < N ->
  parseRange ("bytes=-" +:+ t) size = ([mkRange 0 size], None).
Proof.
  intros Hsize Hparse Hgt.
  destruct (ParseInt_positive_plain t N Hparse ltac:(lia)) as (Hplain & _).
  unfold parseRange.
  change ("bytes=-" +:+ t) with ("bytes=" +:+ String "-" t).
  cbn [String.append isEmpty]. 
  replace (HasPrefix _ "bytes=") with true by reflexivity.
  cbn [negb String.length sdrop].
  rewrite Split_plain by (cbn [allb]; now rewrite Hplain).
  rewrite parseRange_loop_cons.
  rewrite (parseEntry_suffix_clamped t N size Hsize Hparse Hgt).
  reflexivity.
Qed.

End SuffixFacts.

(** ** Content delivery *)

(** What the copy of the body adds to the response. *)
Lemma CopyN_response (w : ResponseWriter) (src : ReadSeeker) (n : Z) :
  wHeader (fst (fst (io.CopyN w src n))) = wHeader w
  /\ exists evs, wEvents (fst (fst (io.CopyN w src n))) = (wEvents w ++ evs)%list
                 /\ bodyOf evs = fst (io.readUpTo src n).
Proof.
  unfold io.CopyN. destruct (io.readUpTo src n) as [p src'] eqn:E. cbn [fst].
  destruct (isEmpty p) eqn:Ep.
  - apply isEmpty_true in Ep; subst p. cbn. split; [reflexivity|].
    exists []. now rewrite app_nil_r.
  - cbn. split; [reflexivity|]. exists [EvWrite p]. split; [reflexivity|].
    cbn. now rewrite sapp_nil_r.
Qed.

(** Case analysis on the copy of the body into the response: [Hh] is its
    effect on the headers, [He] and [Hb] are the events it adds. *)
Ltac split_CopyN Hh evs He Hb :=
  match goal with
  | |- context [io.CopyN ?w0 ?c ?n] =>
      let w' := fresh "w'" in
      let c' := fresh "c'" in
      let e' := fresh "e'" in
      destruct (CopyN_response w0 c n) as [Hh (evs & He & Hb)];
      destruct (io.CopyN w0 c n) as [[w' c'] e'];
      cbn [fst] in Hh, He
  end.

Section ServeContentFacts.

Variable ParseTime : string -> option Time.
Variable FormatTime : Time -> string.
Variable TypeByExtension : string -> string.
Variable DetectContentType : string -> string.
Variable h : fileHandler.

Lemma Get_Set_eq (hd : Header) (k v : string) : http.Get (http.Set_ hd k v) k = v.
Proof. unfold http.Get, http.Set_. now rewrite lookup_insert_eq. Qed.

Lemma Get_Set_ne (hd : Header) (k k' v : string) :
  k <> k' -> http.Get (http.Set_ hd k v) k' = http.Get hd k'.
Proof. intros Hne. unfold http.Get, http.Set_. now rewrite lookup_insert_ne. Qed.

Lemma bodyOf_app (a b : list Event) : bodyOf (a ++ b) = bodyOf a +:+ bodyOf b.
Proof.
  induction a as [|[c|p] a IH]; cbn [bodyOf app]; [reflexivity | exact IH|].
  now rewrite IH, sapp_assoc.
Qed.

(** serveContent once the preconditions let the request through, the
    content type is settled and the size is known. *)
Lemma serveContent_delivery (rnd1 rnd2 : string) (w w1 w2 : ResponseWriter)
    (r : Request) (name rangeReq ctype : string) (modtime : Time) (size : Z)
    (content content2 : ReadSeeker) :
  checkPreconditions ParseTime (setLastModified FormatTime w modtime) r modtime
  = (w1, (false, rangeReq)) ->
  serveContent_ctype TypeByExtension DetectContentType w1 name content
  = inl (w2, ctype, content2) ->
  0 <= size ->
  serveContent ParseTime FormatTime TypeByExtension DetectContentType h
    rnd1 rnd2 w r name modtime (size, None) content
  = match parseRange rangeReq size with
    | (ranges, None) =>
        serveContent_send h rnd1 rnd2 w2 r ctype size ranges content2
    | (_, Some e) =>
        if error_eqb e errNoOverlap then
          if size =? 0
          then serveContent_send h rnd1 rnd2 w2 r ctype size [] content2
          else errHandler h
                 (withHeader w2 (http.Set_ (wHeader w2) "Content-Range"
                                   ("bytes */" +:+ strconv.FormatInt size)))
                 r http.StatusRequestedRangeNotSatisfiable (Some e)
        else errHandler h w2 r http.StatusRequestedRangeNotSatisfiable (Some e)
    end.
Proof.
  intros Hcp Hct Hsize. unfold serveContent. rewrite Hcp. cbv iota beta zeta.
  rewrite Hct. cbn [isErr].
  replace (size <? 0) with false by (symmetry; apply Z.ltb_ge; lia).
  destruct (parseRange rangeReq size) as [ranges [e|]]; reflexivity.
Qed.

(** Delivery with no ranges left after the guard: status 200, the body
    is the content from its offset, up to [size] bytes, Content-Length is
    [size] unless a Content-Encoding is set, and no Content-Range is
    added. *)
Lemma serveContent_send_full (rnd1 rnd2 : string) (w : ResponseWriter)
    (r : Request) (ctype : string) (size : Z) (ranges : list httpRange)
    (content : ReadSeeker) :
  (if sumRangesSize ranges >? size then [] else ranges) = [] ->
  let res := serveContent_send h rnd1 rnd2 w r ctype size ranges content in
  (exists evs, wEvents res = (wEvents w ++ EvWriteHeader http.StatusOK :: evs)%list
               /\ bodyOf evs = bodyBytes r content size)
  /\ http.Get (wHeader res) "Accept-Ranges" = "bytes"
  /\ (http.Get (wHeader w) "Content-Encoding" = "" ->
      http.Get (wHeader res) "Content-Length" = strconv.FormatInt size)
  /\ wHeader res !! "Content-Range" = wHeader w !! "Content-Range"
  /\ wHeader res !! "Content-Type" = wHeader w !! "Content-Type".
Proof.
  intros Hnone res. subst res. unfold serveContent_send. rewrite Hnone.
  cbv iota beta zeta.
  change (Z.of_nat (List.length (@nil httpRange)) >? 0) with false.
  cbn [orb wHeader withHeader].
  rewrite Get_Set_ne by discriminate.
  unfold bodyBytes.
  match goal with
  | |- context [WriteHeader ?x http.StatusOK] => set (w1 := x)
  end.
  assert (Hev : wEvents w1 = wEvents w) by (subst w1; now destruct (isEmpty _)).
  assert (Hhd : http.Get (wHeader w1) "Accept-Ranges" = "bytes"
                /\ (http.Get (wHeader w) "Content-Encoding" = "" ->
                    http.Get (wHeader w1) "Content-Length" = strconv.FormatInt size)
                /\ wHeader w1 !! "Content-Range" = wHeader w !! "Content-Range"
                /\ wHeader w1 !! "Content-Type" = wHeader w !! "Content-Type").
  { subst w1. destruct (isEmpty _) eqn:Ece; cbn [wHeader withHeader].
    - rewrite Get_Set_ne, !Get_Set_eq by discriminate.
      unfold http.Set_. rewrite !lookup_insert_ne by discriminate. auto.
    - apply isEmpty_false in Ece. rewrite Get_Set_eq.
      unfold http.Set_. rewrite !lookup_insert_ne by discriminate.
      repeat split; auto. congruence. }
  destruct (Method r =? http.MethodHead)%string eqn:Hm; cbn [negb].
  - cbn [WriteHeader wHeader wEvents]. rewrite Hev.
    split; [exists []; split; reflexivity | exact Hhd].
  - destruct (CopyN_response (WriteHeader w1 http.StatusOK) content size)
      as [Hh (evs & He & Hb)].
    destruct (io.CopyN (WriteHeader w1 http.StatusOK) content size) as [[w' c'] e'].
    cbn [fst] in Hh, He. cbn [WriteHeader wHeader wEvents] in Hh, He.
    rewrite Hh, He, Hev.
    split; [exists evs; split; [now rewrite <- app_assoc | assumption] | exact Hhd].
Qed.

(** Settling the content type leaves the content's bytes alone, and its
    offset at the start if it was there. *)
Lemma serveContent_ctype_content (w w2 : ResponseWriter) (name ctype : string)
    (content content2 : ReadSeeker) :
  serveContent_ctype TypeByExtension DetectContentType w name content
  = inl (w2, ctype, content2) ->
  rdata content2 = rdata content
  /\ (rpos content = 0 -> rpos content2 = 0)
  /\ wEvents w2 = wEvents w.
Proof.
  unfold serveContent_ctype. destruct (wHeader w !! "Content-Type") as [cts|].
  - intros H; inversion H; subst. auto.
  - destruct (isEmpty (TypeByExtension name)).
    + unfold io.ReadFull, io.readUpTo, io.Seek. cbn.
      intros H; inversion H; subst. auto.
    + intros H; inversion H; subst. auto.
Qed.

End ServeContentFacts.

(** ** The multipart body *)

Section MultipartFacts.

Lemma len_app (a b : string) : len (a +:+ b) = len a + len b.
Proof. unfold len. rewrite slength_app. lia. Qed.

Lemma len_nonneg (a : string) : 0 <= len a.
Proof. unfold len. lia. Qed.

Lemma slength_stake (n : nat) (s : string) :
  String.length (stake n s) = Nat.min n (String.length s).
Proof.
  revert s; induction n as [|n IH]; intros [|c s]; cbn; try reflexivity.
  now rewrite IH.
Qed.

Lemma slength_sdrop (n : nat) (s : string) :
  String.length (sdrop n s) = (String.length s - n)%nat.
Proof.
  revert s; induction n as [|n IH]; intros [|c s]; cbn; try reflexivity.
  apply IH.
Qed.

Lemma stake_all (n : nat) (s : string) :
  (String.length s <= n)%nat -> stake n s = s.
Proof.
  revert s; induction n as [|n IH]; intros [|c s] H; cbn in *;
    try reflexivity; try lia.
  rewrite IH; [reflexivity | lia].
Qed.

Lemma len_slice (data : string) (ra : httpRange) :
  servable data ra -> len (slice data ra) = length ra.
Proof.
  unfold servable, slice, len. intros (H0 & H1 & H2).
  rewrite slength_stake, slength_sdrop. unfold len in H2. lia.
Qed.

(** The size of a part header depends on the boundary through its length
    only. *)
Lemma len_partHeader_boundary (lp : bool) (rnd1 rnd2 : string) (ra : httpRange)
    (ctype : string) (size : Z) :
  String.length rnd1 = String.length rnd2 ->
  len (partHeader lp rnd1 ra ctype size) = len (partHeader lp rnd2 ra ctype size).
Proof.
  intros H. assert (Hl : len rnd1 = len rnd2) by (unfold len; now rewrite H).
  unfold partHeader. destruct lp; rewrite !len_app, Hl; reflexivity.
Qed.

Lemma partsLen_boundary (lp : bool) (rnd1 rnd2 : string) (ranges : list httpRange)
    (ctype : string) (size : Z) :
  String.length rnd1 = String.length rnd2 ->
  partsLen lp rnd1 ranges ctype size = partsLen lp rnd2 ranges ctype size.
Proof.
  intros H. revert lp; induction ranges as [|ra ranges IH]; intros lp;
    cbn [partsLen]; [reflexivity|].
  now rewrite (len_partHeader_boundary lp rnd1 rnd2), IH.
Qed.

Lemma len_closingBoundary_boundary (rnd1 rnd2 : string) :
  String.length rnd1 = String.length rnd2 ->
  len (closingBoundary rnd1) = len (closingBoundary rnd2).
Proof.
  intros H. assert (Hl : len rnd1 = len rnd2) by (unfold len; now rewrite H).
  unfold closingBoundary. rewrite !len_app, Hl. reflexivity.
Qed.

Lemma partsLen_nonneg (lp : bool) (rnd : string) (ranges : list httpRange)
    (ctype : string) (size : Z) :
  0 <= partsLen lp rnd ranges ctype size.
Proof.
  revert lp; induction ranges as [|ra ranges IH]; intros lp; cbn [partsLen]; [lia|].
  pose proof (len_nonneg (partHeader lp rnd ra ctype size)).
  specialize (IH true). lia.
Qed.

Lemma sumLengths_nonneg (data : string) (ranges : list httpRange) :
  Forall (servable data) ranges -> 0 <= sumLengths ranges.
Proof.
  induction 1 as [|ra ranges (H0 & H1 & H2) _ IH]; cbn [sumLengths]; lia.
Qed.

Lemma len_streamOf (lp : bool) (rnd : string) (ranges : list httpRange)
    (ctype : string) (size : Z) (data : string) :
  Forall (servable data) ranges ->
  len (streamOf lp rnd ranges ctype size data)
  = partsLen lp rnd ranges ctype size + sumLengths ranges
    + len (closingBoundary rnd).
Proof.
  intros Hall. revert lp; induction Hall as [|ra ranges Hra _ IH]; intros lp;
    cbn [streamOf partsLen sumLengths]; [lia|].
  rewrite !len_app, (len_slice data ra Hra), IH. lia.
Qed.

End MultipartFacts.

Section StreamFacts.

(** The producer writes exactly the multipart body and closes the pipe
    without an error, when the content can serve every range. *)
Lemma writeRanges_stream (ranges : list httpRange) (ctype rnd : string) (size : Z) :
  forall (lp : bool) (buf : string) (e : option error) (content : ReadSeeker),
    Forall (servable (rdata content)) ranges ->
    writeRanges ranges ctype size
      (multipart.mkWriter (mkPipe buf false e) rnd lp) content
    = mkPipe (buf +:+ streamOf lp rnd ranges ctype size (rdata content)) true None.
Proof.
  induction ranges as [|ra ranges IH]; intros lp buf e content Hall.
  - reflexivity.
  - inversion Hall as [|? ? Hra Hrest]; subst.
    cbn [writeRanges streamOf].
    unfold multipart.CreatePart.
    cbn [multipart.w multipart.boundary multipart.lastpart].
    fold (partHeader lp rnd ra ctype size).
    unfold ioWrite at 1, PipeWriter_Write. cbn [pclosed pbuf perr multipart.w].
    unfold io.Seek. destruct Hra as (Hs & Hl & Hb).
    replace (start ra <? 0) with false by (symmetry; apply Z.ltb_ge; lia).
    unfold io.CopyN, io.readUpTo. cbn [rdata rpos].
    fold (slice (rdata content) ra).
    pose proof (len_slice (rdata content) ra (conj Hs (conj Hl Hb))) as Hlen.
    set (b := partHeader lp rnd ra ctype size) in *.
    set (p := slice (rdata content) ra) in *.
    replace (len p <? length ra) with false by (symmetry; apply Z.ltb_ge; lia).
    destruct (isEmpty p) eqn:Ep.
    + apply isEmpty_true in Ep. rewrite Ep.
      rewrite (IH true (buf +:+ b) e (mkContent (rdata content) (start ra + len ""))
                 Hrest).
      cbn [rdata]. now rewrite !sapp_assoc.
    + unfold ioWrite, part_Write, ioWrite, PipeWriter_Write.
      cbn [multipart.w multipart.boundary multipart.lastpart pclosed pbuf perr].
      rewrite (IH true ((buf +:+ b) +:+ p) e
                 (mkContent (rdata content) (start ra + len p)) Hrest).
      cbn [rdata]. now rewrite !sapp_assoc.
Qed.

(** The dry run counts the part headers and adds up the lengths, exactly
    as long as nothing overflows. *)
Lemma rangesMIMESize_loop_exact (data ctype rnd : string) (size : Z)
    (ranges : list httpRange) :
  forall (lp : bool) (c enc : Z),
    Forall (servable data) ranges ->
    0 <= c -> 0 <= enc ->
    c + partsLen lp rnd ranges ctype size <= maxInt64 ->
    enc + sumLengths ranges <= maxInt64 ->
    exists lp',
      rangesMIMESize_loop ranges ctype size (multipart.mkWriter c rnd lp) enc
      = (multipart.mkWriter (c + partsLen lp rnd ranges ctype size) rnd lp',
         enc + sumLengths ranges).
Proof.
  induction ranges as [|ra ranges IH]; intros lp c enc Hall Hc Henc Hcb Heb.
  - exists lp. cbn. now rewrite !Z.add_0_r.
  - inversion Hall as [|? ? (Hs & Hl & Hb) Hrest]; subst.
    cbn [rangesMIMESize_loop partsLen sumLengths] in *.
    unfold multipart.CreatePart.
    cbn [multipart.w multipart.boundary multipart.lastpart].
    fold (partHeader lp rnd ra ctype size).
    unfold ioWrite, countingWriter_Write.
    pose proof (len_nonneg (partHeader lp rnd ra ctype size)) as Hp.
    pose proof (partsLen_nonneg true rnd ranges ctype size) as Hq.
    pose proof (sumLengths_nonneg data ranges Hrest) as Hsum.
    rewrite (wrap64_id (c + _)) by (unfold minInt64; lia).
    rewrite (wrap64_id (enc + _)) by (unfold minInt64; lia).
    destruct (IH true (c + len (partHeader lp rnd ra ctype size))
                (enc + length ra) Hrest) as [lp' E]; try lia.
    exists lp'. etransitivity; [exact E|]. f_equal; [f_equal|]; lia.
Qed.

Lemma rangesMIMESize_exact (rnd1 rnd2 ctype : string) (size : Z)
    (ranges : list httpRange) (content : ReadSeeker) :
  String.length rnd1 = String.length rnd2 ->
  Forall (servable (rdata content)) ranges ->
  len (streamOf false rnd2 ranges ctype size (rdata content)) <= maxInt64 ->
  rangesMIMESize rnd1 ranges ctype size
  = len (streamOf false rnd2 ranges ctype size (rdata content)).
Proof.
  intros Hrnd Hall Hfit. rewrite (len_streamOf _ _ _ _ _ _ Hall) in *.
  rewrite <- (partsLen_boundary false rnd1 rnd2 ranges ctype size Hrnd) in *.
  rewrite <- (len_closingBoundary_boundary rnd1 rnd2 Hrnd) in *.
  pose proof (partsLen_nonneg false rnd1 ranges ctype size) as Hq.
  pose proof (sumLengths_nonneg _ ranges Hall) as Hsum.
  pose proof (len_nonneg (closingBoundary rnd1)) as Hcl.
  unfold rangesMIMESize, multipart.NewWriter.
  destruct (rangesMIMESize_loop_exact (rdata content) ctype rnd1 size ranges
              false 0 0 Hall) as [lp' E]; try lia.
  etransitivity.
  { apply (f_equal (fun x => let '(mw, encSize) := x in
                             let '(mw, _) := multipart.Close mw in
                             wrap64 (encSize + multipart.w mw)) E). }
  unfold multipart.Close.
  cbn [multipart.w multipart.boundary multipart.lastpart].
  fold (closingBoundary rnd1). unfold ioWrite, countingWriter_Write.
  cbn [multipart.w]. rewrite !Z.add_0_l.
  rewrite (wrap64_id (partsLen _ _ _ _ _ + _)) by (unfold minInt64; lia).
  rewrite wrap64_id by (unfold minInt64; lia). lia.
Qed.

End StreamFacts.

Section DeliveryClaims.

Variable ParseTime : string -> option Time.
Variable FormatTime : Time -> string.
Variable TypeByExtension : string -> string.
Variable DetectContentType : string -> string.
Variable h : fileHandler.

Lemma checkPreconditions_proceeds (w w1 : ResponseWriter) (r : Request)
    (modtime : Time) (rangeReq : string) :
  checkPreconditions ParseTime w r modtime = (w1, (false, rangeReq)) -> w1 = w.
Proof.
  unfold checkPreconditions. cbv zeta.
  destruct (condResult_eqb _ condFalse); [discriminate|].
  match goal with
  | |- context [match ?a with Some _ => _ | None => _ end] => destruct a
  end; [discriminate|].
  now intros H; inversion H.
Qed.

Lemma setLastModified_events (w : ResponseWriter) (modtime : Time) :
  wEvents (setLastModified FormatTime w modtime) = wEvents w.
Proof. unfold setLastModified. now destruct (negb (isZeroTime modtime)). Qed.

Lemma readUpTo_all (data : string) (n : Z) :
  len data <= n -> fst (io.readUpTo (mkContent data 0) n) = data.
Proof.
  intros H. unfold io.readUpTo. cbn [rdata rpos fst sdrop Z.to_nat].
  apply stake_all. unfold len in H. lia.
Qed.

(** C7. When the ranges parsed from the Range header are valid one by one
    and the sum of their lengths, as sumRangesSize computes it, exceeds
    the resource size, serveContent drops them all and delivers the full
    body: status 200, no Content-Range, Content-Length equal to size
    (unless a Content-Encoding is set), and, unless the method is HEAD,
    the whole content of length size as the body. *)
Theorem ranges_exceeding_size_full_delivery (rnd1 rnd2 : string)
    (w w1 w2 : ResponseWriter) (r : Request) (name rangeReq ctype : string)
    (modtime : Time) (size : Z) (ranges : list httpRange)
    (content content2 : ReadSeeker) :
  checkPreconditions ParseTime (setLastModified FormatTime w modtime) r modtime
  = (w1, (false, rangeReq)) ->
  serveContent_ctype TypeByExtension DetectContentType w1 name content
  = inl (w2, ctype, content2) ->
  rpos content = 0 -> len (rdata content) = size ->
  parseRange rangeReq size = (ranges, None) ->
  sumRangesSize ranges > size ->
  let res := serveContent ParseTime FormatTime TypeByExtension DetectContentType h
               rnd1 rnd2 w r name modtime (size, None) content in
  (exists evs,
      wEvents res = (wEvents w ++ EvWriteHeader http.StatusOK :: evs)%list
      /\ bodyOf evs = if String.eqb (Method r) http.MethodHead
                      then "" else rdata content)
  /\ (http.Get (wHeader w2) "Content-Encoding" = "" ->
      http.Get (wHeader res) "Content-Length" = strconv.FormatInt size)
  /\ wHeader res !! "Content-Range" = wHeader w2 !! "Content-Range".
Proof.
  intros Hcp Hct Hpos Hlen Hparse Hsum res. subst res.
  assert (Hsize : 0 <= size) by (rewrite <- Hlen; apply len_nonneg).
  rewrite (serveContent_delivery ParseTime FormatTime TypeByExtension
             DetectContentType h rnd1 rnd2 w w1 w2 r name rangeReq ctype modtime
             size content content2 Hcp Hct Hsize).
  rewrite Hparse.
  assert (Hguard : (if sumRangesSize ranges >? size then [] else ranges) = [])
    by (replace (sumRangesSize ranges >? size) with true
          by (symmetry; apply Z.gtb_lt; lia); reflexivity).
  destruct (serveContent_send_full h rnd1 rnd2 w2 r ctype size ranges content2 Hguard)
    as ((evs & Hev & Hbody) & _ & Hcl & Hcr & _).
  destruct (serveContent_ctype_content TypeByExtension DetectContentType
              w1 w2 name ctype content content2 Hct) as (Hd & Hp & He).
  apply checkPreconditions_proceeds in Hcp. subst w1.
  rewrite setLastModified_events in He.
  split; [|split; assumption].
  exists evs. split; [now rewrite Hev, He|].
  rewrite Hbody. unfold bodyBytes.
  destruct (Method r =? http.MethodHead)%string; [reflexivity|].
  destruct content2 as [d2 p2]. cbn [rdata rpos] in *. rewrite (Hp Hpos), Hd.
  apply readUpTo_all. lia.
Qed.

(** C8. For a response with two or more ranges that the content can
    serve, the size that rangesMIMESize computes in its dry run, which
    serveContent sends as Content-Length before any byte is written, is
    the number of bytes of the body that the streaming multipart writer
    then produces, the trailing boundary included (the two writers draw
    boundaries of the same length, and the body is no longer than an
    int64 can count). *)
Theorem multirange_content_length (rnd1 rnd2 : string) (w : ResponseWriter)
    (r : Request) (ctype : string) (size : Z) (r1 r2 : httpRange)
    (rest : list httpRange) (content : ReadSeeker) :
  String.length rnd1 = String.length rnd2 ->
  Forall (servable (rdata content)) (r1 :: r2 :: rest) ->
  sumRangesSize (r1 :: r2 :: rest) <= size ->
  len (streamOf false rnd2 (r1 :: r2 :: rest) ctype size (rdata content))
  <= maxInt64 ->
  let ranges := r1 :: r2 :: rest in
  let produced := writeRanges ranges ctype size
                    (multipart.NewWriter rnd2 (mkPipe "" false None)) content in
  let res := serveContent_send h rnd1 rnd2 w r ctype size ranges content in
  rangesMIMESize rnd1 ranges ctype size = len (pbuf produced)
  /\ perr produced = None
  /\ (exists parts, pbuf produced = parts +:+ closingBoundary rnd2)
  /\ http.Get (wHeader res) "Content-Length"
     = strconv.FormatInt (len (pbuf produced))
  /\ (exists evs,
         wEvents res
         = (wEvents w ++ EvWriteHeader http.StatusPartialContent :: evs)%list
         /\ bodyOf evs = if String.eqb (Method r) http.MethodHead
                         then "" else pbuf produced).
Proof.
  intros Hrnd Hall Hguard Hfit ranges produced res.
  assert (Hprod : produced
                  = mkPipe (streamOf false rnd2 ranges ctype size (rdata content))
                      true None).
  { subst produced. unfold multipart.NewWriter.
    now rewrite (writeRanges_stream ranges ctype rnd2 size false "" None content Hall). }
  assert (Hsz : rangesMIMESize rnd1 ranges ctype size = len (pbuf produced)).
  { rewrite Hprod. cbn [pbuf].
    now apply rangesMIMESize_exact. }
  split; [exact Hsz|]. split; [now rewrite Hprod|]. split.
  { rewrite Hprod. cbn [pbuf]. subst ranges. clear.
    generalize false as lp. generalize (r1 :: r2 :: rest) as l.
    induction l as [|ra l IH]; intros lp; cbn [streamOf].
    - now exists "".
    - destruct (IH true) as [parts E]. rewrite E.
      exists (partHeader lp rnd2 ra ctype size
              +:+ slice (rdata content) ra +:+ parts).
      now rewrite !sapp_assoc. }
  subst res. unfold serveContent_send. subst ranges.
  replace (sumRangesSize (r1 :: r2 :: rest) >? size) with false
    by (symmetry; rewrite Z.gtb_ltb; apply Z.ltb_ge; lia).
  cbv iota beta zeta. fold produced. rewrite Hsz.
  replace (Z.of_nat (List.length (r1 :: r2 :: rest)) >? 0) with true by reflexivity.
  cbn [orb wHeader withHeader]. unfold pipeReader.
  split.
  - destruct (negb (Method r =? http.MethodHead)%string).
    + split_CopyN Hh evs He Hb.
      rewrite Hh. cbn [WriteHeader wHeader]. apply Get_Set_eq.
    + cbn [WriteHeader wHeader]. apply Get_Set_eq.
  - destruct (Method r =? http.MethodHead)%string eqn:Hm; cbn [negb].
    + exists []. split; reflexivity.
    + split_CopyN Hh evs He Hb.
      exists evs. cbn [WriteHeader wEvents] in He.
      split; [now rewrite He, <- app_assoc|].
      rewrite Hb. apply readUpTo_all. lia.
Qed.

End DeliveryClaims.

(** C5. On a 10-byte resource bytes=0-0 parses to the one range {0,1},
    bytes=-5 to {5,5} and bytes=5- to {5,5}; bytes=20-30 gives the
    unsatisfiable outcome errNoOverlap, on which serveContent sets
    Content-Range: bytes */10 and hands the response to the error callback
    with status 416; and a suffix range -N whose N exceeds the size is
    clamped to the whole resource {0,size} (bytes=-1000 on 10 bytes among
    them) instead of being an error. *)
Theorem range_parsing_examples :
  parseRange "bytes=0-0" 10 = ([mkRange 0 1], None)
  /\ parseRange "bytes=-5" 10 = ([mkRange 5 5], None)
  /\ parseRange "bytes=5-" 10 = ([mkRange 5 5], None)
  /\ parseRange "bytes=20-30" 10 = ([], Some errNoOverlap)
  /\ (forall (ParseTime : string -> option Time) (FormatTime : Time -> string)
        (TypeByExtension DetectContentType : string -> string) (h : fileHandler)
        (rnd1 rnd2 : string) (w w1 w2 : ResponseWriter) (r : Request)
        (name ctype : string) (modtime : Time) (content content2 : ReadSeeker),
         checkPreconditions ParseTime (setLastModified FormatTime w modtime) r modtime
         = (w1, (false, "bytes=20-30")) ->
         serveContent_ctype TypeByExtension DetectContentType w1 name content
         = inl (w2, ctype, content2) ->
         exists w3,
           serveContent ParseTime FormatTime TypeByExtension DetectContentType h
             rnd1 rnd2 w r name modtime (10, None) content
           = errHandler h w3 r http.StatusRequestedRangeNotSatisfiable
               (Some errNoOverlap)
           /\ http.Get (wHeader w3) "Content-Range" = "bytes */10"
           /\ wEvents w3 = wEvents w)
  /\ (forall (size N : Z) (t : string),
         0 <= size <= maxInt64 ->
         strconv.ParseInt t = (N, None) -> size < N ->
         parseRange ("bytes=-" +:+ t) size = ([mkRange 0 size], None))
  /\ parseRange "bytes=-1000" 10 = ([mkRange 0 10], None).
Proof.
  repeat split; try reflexivity.
  - intros ParseTime FormatTime TypeByExtension DetectContentType h rnd1 rnd2
      w w1 w2 r name ctype modtime content content2 Hcp Hct.
    rewrite (serveContent_delivery ParseTime FormatTime TypeByExtension
               DetectContentType h rnd1 rnd2 w w1 w2 r name "bytes=20-30" ctype
               modtime 10 content content2 Hcp Hct ltac:(lia)).
    change (parseRange "bytes=20-30" 10) with (@nil httpRange, Some errNoOverlap).
    cbv iota beta. cbn [error_eqb]. change (10 =? 0) with false. cbv iota.
    eexists. split; [reflexivity|]. cbn [wHeader withHeader wEvents].
    split; [apply Get_Set_eq|].
    destruct (serveContent_ctype_content TypeByExtension DetectContentType
                w1 w2 name ctype content content2 Hct) as (_ & _ & He).
    apply checkPreconditions_proceeds in Hcp. subst w1.
    now rewrite He, setLastModified_events.
  - intros size N t Hsize Hparse Hgt. now apply parseRange_suffix_clamped with (N := N).
Qed.

Lemma range_parsing_examples_witness :
  (0 <= 10 <= maxInt64 /\ strconv.ParseInt "1000" = (1000, None) /\ 10 < 1000)
  /\ parseRange ("bytes=-" +:+ "1000") 10 = ([mkRange 0 10], None)
  /\ (checkPreconditions noParseTime
        (setLastModified sampleFormatTime emptyResponse someTime)
        (getRange "bytes=20-30") someTime
      = (sampleW1, (false, "bytes=20-30"))
      /\ serveContent_ctype sampleTypeByExtension sampleDetect sampleW1 "f.txt" tenBytes
         = inl (sampleW2, "text/plain", tenBytes))
  /\ exists w3,
       serveContent noParseTime sampleFormatTime sampleTypeByExtension sampleDetect
         sampleHandler "AAAA" "BBBB" emptyResponse (getRange "bytes=20-30") "f.txt"
         someTime (10, None) tenBytes
       = errHandler sampleHandler w3 (getRange "bytes=20-30")
           http.StatusRequestedRangeNotSatisfiable (Some errNoOverlap)
       /\ http.Get (wHeader w3) "Content-Range" = "bytes */10"
       /\ wEvents w3 = wEvents emptyResponse.
Proof.
  destruct range_parsing_examples as (_ & _ & _ & _ & H416 & Hsuffix & _).
  split; [split; [vm_compute; split; discriminate | split; reflexivity]|].
  split; [apply (Hsuffix 10 1000 "1000");
          [vm_compute; split; discriminate | reflexivity | reflexivity]|].
  split; [split; vm_compute; reflexivity|].
  apply (H416 noParseTime sampleFormatTime sampleTypeByExtension sampleDetect
           sampleHandler "AAAA" "BBBB" emptyResponse sampleW1 sampleW2
           (getRange "bytes=20-30") "f.txt" "text/plain" someTime tenBytes tenBytes);
    vm_compute; reflexivity.
Defined.

Lemma ranges_exceeding_size_full_delivery_witness :
  (checkPreconditions noParseTime
     (setLastModified sampleFormatTime emptyResponse someTime)
     (getRange "bytes=0-,0-") someTime
   = (sampleW1, (false, "bytes=0-,0-"))
   /\ serveContent_ctype sampleTypeByExtension sampleDetect sampleW1 "f.txt" tenBytes
      = inl (sampleW2, "text/plain", tenBytes)
   /\ rpos tenBytes = 0 /\ len (rdata tenBytes) = 10
   /\ parseRange "bytes=0-,0-" 10 = ([mkRange 0 10; mkRange 0 10], None)
   /\ sumRangesSize [mkRange 0 10; mkRange 0 10] > 10)
  /\ (let res := serveContent noParseTime sampleFormatTime sampleTypeByExtension
                   sampleDetect sampleHandler "AAAA" "BBBB" emptyResponse
                   (getRange "bytes=0-,0-") "f.txt" someTime (10, None) tenBytes in
      (exists evs,
          wEvents res = (wEvents emptyResponse ++ EvWriteHeader http.StatusOK :: evs)%list
          /\ bodyOf evs = if String.eqb (Method (getRange "bytes=0-,0-")) http.MethodHead
                          then "" else rdata tenBytes)
      /\ (http.Get (wHeader sampleW2) "Content-Encoding" = "" ->
          http.Get (wHeader res) "Content-Length" = strconv.FormatInt 10)
      /\ wHeader res !! "Content-Range" = wHeader sampleW2 !! "Content-Range").
Proof.
  split.
  - repeat split; vm_compute; reflexivity.
  - apply (ranges_exceeding_size_full_delivery noParseTime sampleFormatTime
             sampleTypeByExtension sampleDetect sampleHandler "AAAA" "BBBB"
             emptyResponse sampleW1 sampleW2 (getRange "bytes=0-,0-") "f.txt"
             "bytes=0-,0-" "text/plain" someTime 10 [mkRange 0 10; mkRange 0 10]
             tenBytes tenBytes); vm_compute; reflexivity.
Defined.

Lemma multirange_content_length_witness :
  (String.length "AAAA" = String.length "BBBB"
   /\ Forall (servable (rdata tenBytes)) [mkRange 0 2; mkRange 4 2]
   /\ sumRangesSize [mkRange 0 2; mkRange 4 2] <= 10
   /\ len (streamOf false "BBBB" [mkRange 0 2; mkRange 4 2] "text/plain" 10
             (rdata tenBytes)) <= maxInt64)
  /\ (let ranges := [mkRange 0 2; mkRange 4 2] in
      let produced := writeRanges ranges "text/plain" 10
                        (multipart.NewWriter "BBBB" (mkPipe "" false None)) tenBytes in
      let res := serveContent_send sampleHandler "AAAA" "BBBB" sampleW2
                   (getRange "bytes=0-1,4-5") "text/plain" 10 ranges tenBytes in
      rangesMIMESize "AAAA" ranges "text/plain" 10 = len (pbuf produced)
      /\ perr produced = None
      /\ (exists parts, pbuf produced = parts +:+ closingBoundary "BBBB")
      /\ http.Get (wHeader res) "Content-Length"
         = strconv.FormatInt (len (pbuf produced))
      /\ (exists evs,
             wEvents res
             = (wEvents sampleW2 ++ EvWriteHeader http.StatusPartialContent :: evs)%list
             /\ bodyOf evs
                = if String.eqb (Method (getRange "bytes=0-1,4-5")) http.MethodHead
                  then "" else pbuf produced)).
Proof.
  assert (Hserv : Forall (servable (rdata tenBytes)) [mkRange 0 2; mkRange 4 2])
    by (repeat constructor; vm_compute; discriminate).
  split.
  - split; [reflexivity|]. split; [exact Hserv|].
    split; vm_compute; discriminate.
  - apply (multirange_content_length sampleHandler "AAAA" "BBBB" sampleW2
             (getRange "bytes=0-1,4-5") "text/plain" 10 (mkRange 0 2) (mkRange 4 2)
             [] tenBytes); [reflexivity | exact Hserv | | ]; vm_compute; discriminate.
Defined.

(** The multi-range request bytes=0-1,4-5 on ten bytes of text/plain: the
    Content-Length sent is 148 and the body written has 148 bytes. *)
Example multirange_0_1_4_5 :
  let res := serveContent noParseTime sampleFormatTime sampleTypeByExtension
               sampleDetect sampleHandler "AAAA" "BBBB" emptyResponse
               (getRange "bytes=0-1,4-5") "f.txt" someTime (10, None) tenBytes in
  parseRange "bytes=0-1,4-5" 10 = ([mkRange 0 2; mkRange 4 2], None)
  /\ statusOf (wEvents res) = Some 206
  /\ http.Get (wHeader res) "Content-Length" = "148"
  /\ len (bodyOf (wEvents res)) = 148
  /\ http.Get (wHeader res) "Content-Type" = "multipart/byteranges; boundary=BBBB".
Proof. repeat split; vm_compute; reflexivity. Qed.

Section Companions.

(** sumRangesSize is the sum of the lengths whenever that sum fits an
    int64. *)
Lemma sumRangesSize_loop_exact (ranges : list httpRange) (acc : Z) :
  Forall (fun ra => 0 <= length ra) ranges ->
  0 <= acc -> acc + sumLengths ranges <= maxInt64 ->
  sumRangesSize_loop ranges acc = acc + sumLengths ranges.
Proof.
  revert acc; induction ranges as [|ra ranges IH]; intros acc Hall Hacc Hfit;
    cbn [sumRangesSize_loop sumLengths] in *; [lia|].
  inversion Hall as [|? ? Hra Hrest]; subst.
  assert (0 <= sumLengths ranges).
  { clear -Hrest. induction Hrest; cbn [sumLengths]; lia. }
  rewrite (wrap64_id (acc + length ra)) by (unfold minInt64; lia).
  rewrite IH by (assumption || lia). lia.
Qed.

Lemma sumRangesSize_exact (ranges : list httpRange) :
  Forall (fun ra => 0 <= length ra) ranges ->
  sumLengths ranges <= maxInt64 ->
  sumRangesSize ranges = sumLengths ranges.
Proof.
  intros Hall Hfit. unfold sumRangesSize.
  now rewrite sumRangesSize_loop_exact by (assumption || lia).
Qed.

(** The loops of checkIfMatch and checkIfNoneMatch always exit with the
    fuel their callers give them. *)
Lemma checkIfMatch_total (w : ResponseWriter) (im : string) :
  exists e, checkIfMatch_loop (S (String.length im)) w im = Some e.
Proof.
  destruct (checkIfMatch_loop (S (String.length im)) w im) as [e|] eqn:E;
    [now exists e|].
  exfalso. revert E. apply checkIfMatch_loop_exits. lia.
Qed.

Lemma checkIfNoneMatch_total (w : ResponseWriter) (inm : string) :
  exists e, checkIfNoneMatch_loop (S (String.length inm)) w inm = Some e.
Proof.
  destruct (checkIfNoneMatch_loop (S (String.length inm)) w inm) as [e|] eqn:E;
    [now exists e|].
  exfalso. revert E. apply checkIfNoneMatch_loop_exits. lia.
Qed.

(** A header of empty entries only is served like an absent one: the
    full body with status 200. *)
Lemma empty_entries_full_delivery (ParseTime : string -> option Time)
    (FormatTime : Time -> string) (TypeByExtension DetectContentType : string -> string)
    (h : fileHandler) (rnd1 rnd2 : string) (w w1 w2 : ResponseWriter) (r : Request)
    (name rangeReq ctype : string) (modtime : Time) (size : Z)
    (content content2 : ReadSeeker) :
  checkPreconditions ParseTime (setLastModified FormatTime w modtime) r modtime
  = (w1, (false, rangeReq)) ->
  serveContent_ctype TypeByExtension DetectContentType w1 name content
  = inl (w2, ctype, content2) ->
  0 <= size ->
  parseRange rangeReq size = ([], None) ->
  exists evs,
    wEvents (serveContent ParseTime FormatTime TypeByExtension DetectContentType h
               rnd1 rnd2 w r name modtime (size, None) content)
    = (wEvents w2 ++ EvWriteHeader http.StatusOK :: evs)%list
    /\ bodyOf evs = bodyBytes r content2 size.
Proof.
  intros Hcp Hct Hsize Hparse.
  rewrite (serveContent_delivery ParseTime FormatTime TypeByExtension
             DetectContentType h rnd1 rnd2 w w1 w2 r name rangeReq ctype modtime
             size content content2 Hcp Hct Hsize).
  rewrite Hparse.
  assert (Hguard : (if sumRangesSize [] >? size then [] else []) = (@nil httpRange))
    by now destruct (sumRangesSize [] >? size).
  destruct (serveContent_send_full h rnd1 rnd2 w2 r ctype size [] content2 Hguard)
    as (Hev & _). exact Hev.
Qed.

End Companions.

(** The empty-entries header on the sample resource: 200 and all ten
    bytes. *)
Example empty_entries_sample :
  let res := serveContent noParseTime sampleFormatTime sampleTypeByExtension
               sampleDetect sampleHandler "AAAA" "BBBB" emptyResponse
               (getRange "bytes=,,") "f.txt" someTime (10, None) tenBytes in
  statusOf (wEvents res) = Some 200 /\ bodyOf (wEvents res) = "0123456789".
Proof. split; vm_compute; reflexivity. Qed.
Example ParseInt_42 : strconv.ParseInt "42" = (42, None).
Proof. reflexivity. Qed.

Example ParseInt_neg : strconv.ParseInt "-7" = (-7, None).
Proof. reflexivity. Qed.

Example ParseInt_max : strconv.ParseInt "9223372036854775807" = (maxInt64, None).
Proof. vm_compute. reflexivity. Qed.

Example ParseInt_over : strconv.ParseInt "9223372036854775808" = (maxInt64, Some ErrRange).
Proof. vm_compute. reflexivity. Qed.

Example ParseInt_huge : strconv.ParseInt "99999999999999999999" = (maxInt64, Some ErrRange).
Proof. vm_compute. reflexivity. Qed.

Example ParseInt_hex : strconv.ParseInt "0x01" = (0, Some ErrSyntax).
Proof. reflexivity. Qed.

Example FormatInt_ex : strconv.FormatInt 10 = "10" /\ strconv.FormatInt 0 = "0"
                       /\ strconv.FormatInt (-1) = "-1".
Proof. repeat split. Qed.

Example TrimString_ex : TrimString "  a b   " = "a b".
Proof. reflexivity. Qed.

Example Split_ex : Split "0-1, 4-5,," "," = ["0-1"; " 4-5"; ""; ""].
Proof. reflexivity. Qed.

Example Cut_ex : Cut "4--3" "-" = ("4", "-3", true).
Proof. reflexivity. Qed.

(** ** More on conditional requests *)

Section TrimFacts.

Lemma trimLeft_first (c : ascii) (s : string) :
  isASCIISpace c = false -> trimLeft (String c s) = String c s.
Proof. intros H. cbn [trimLeft]. now rewrite H. Qed.

Lemma trimRight_last (s : string) (d : ascii) :
  lastByte s = Some d -> isASCIISpace d = false -> trimRight s = s.
Proof.
  induction s as [|c s IH]; intros Hl Hd; [discriminate|].
  cbn [trimRight]. destruct s as [|c' s'].
  - cbn in Hl. inversion Hl; subst. cbn. now rewrite Hd.
  - rewrite IH by assumption. reflexivity.
Qed.

Lemma TrimString_id (c d : ascii) (s : string) :
  isASCIISpace c = false -> lastByte (String c s) = Some d ->
  isASCIISpace d = false -> TrimString (String c s) = String c s.
Proof.
  intros Hc Hl Hd. unfold TrimString. rewrite (trimLeft_first c s Hc).
  now apply trimRight_last with (d := d).
Qed.

Lemma lastByte_app (a b : string) :
  b <> "" -> lastByte (a +:+ b) = lastByte b.
Proof.
  intros Hb. induction a as [|c a IH]; [reflexivity|].
  cbn [String.append lastByte]. rewrite IH.
  destruct (a +:+ b) eqn:E; [|reflexivity].
  destruct a; [cbn in E; congruence | discriminate].
Qed.

Lemma allb_app (p : ascii -> bool) (a b : string) :
  allb p (a +:+ b) = allb p a && allb p b.
Proof.
  induction a as [|c a IH]; cbn [String.append allb]; [reflexivity|].
  now rewrite IH, andb_assoc.
Qed.

Lemma allb_trimLeft (p : ascii -> bool) (s : string) :
  allb p s = true -> allb p (trimLeft s) = true.
Proof.
  induction s as [|c s IH]; [reflexivity|]. cbn [trimLeft allb]. intros H.
  destruct (isASCIISpace c); [|exact H].
  apply andb_prop in H as [_ H]. now apply IH.
Qed.

Lemma allb_trimRight (p : ascii -> bool) (s : string) :
  allb p s = true -> allb p (trimRight s) = true.
Proof.
  induction s as [|c s IH]; [reflexivity|]. cbn [trimRight allb]. intros H.
  apply andb_prop in H as [Hc H]. specialize (IH H).
  destruct (trimRight s) as [|c' t].
  - destruct (isASCIISpace c); [reflexivity|]. cbn [allb]. now rewrite Hc.
  - cbn [allb] in *. now rewrite Hc.
Qed.

Lemma allb_TrimString (p : ascii -> bool) (s : string) :
  allb p s = true -> allb p (TrimString s) = true.
Proof. intros H. unfold TrimString. now apply allb_trimRight, allb_trimLeft. Qed.

End TrimFacts.

Section IfMatchFacts.

(** An entity tag begins with a byte that is neither space, comma nor
    asterisk, and ends with the double quote. *)
Lemma isETag_ends (t : string) :
  isETag t ->
  exists c t', t = String c t'
               /\ isASCIISpace c = false
               /\ byte_eqb c "," = false
               /\ byte_eqb c "*" = false
               /\ lastByte t = Some dquote
               /\ (2 <= String.length t)%nat.
Proof.
  intros Ht. destruct (isETag_shape t Ht) as (_ & Hl & _).
  destruct Ht as (body & _ & [-> | ->]).
  - exists dquote, (body +:+ String dquote ""). repeat split; auto.
    cbn [String.length]. rewrite slength_app. cbn. lia.
  - exists "W"%char, (String "/" (String dquote (body +:+ String dquote ""))).
    repeat split; auto. unfold weakMarker. cbn. lia.
Qed.

Lemma tagTail_last (t : string) (tags : list string) :
  isETag t -> Forall isETag tags ->
  lastByte (t +:+ tagTail tags) = Some dquote.
Proof.
  intros Ht Hall. revert t Ht. induction Hall as [|t' tags Ht' _ IH]; intros t Ht.
  - cbn [tagTail]. rewrite sapp_nil_r.
    now destruct (isETag_ends t Ht) as (_ & _ & _ & _ & _ & _ & Hl & _).
  - cbn [tagTail]. rewrite lastByte_app by discriminate.
    change (", " +:+ t' +:+ tagTail tags)
      with (String "," (String " " (t' +:+ tagTail tags))).
    specialize (IH t' Ht').
    destruct (isETag_ends t' Ht') as (c & t'' & -> & _).
    cbn [String.append lastByte] in *. exact IH.
Qed.

Lemma tagList_cons (t : string) (tags : list string) :
  tagList (t :: tags) = t +:+ tagTail tags.
Proof.
  unfold tagList. revert t; induction tags as [|t' tags IH]; intros t.
  - cbn. now rewrite sapp_nil_r.
  - change (String.concat ", " (t :: t' :: tags))
      with (t +:+ ", " +:+ String.concat ", " (t' :: tags)).
    now rewrite IH.
Qed.

Lemma tagTail_length (tags : list string) :
  Forall isETag tags -> (4 * List.length tags <= String.length (tagTail tags))%nat.
Proof.
  induction 1 as [|t tags Ht _ IH]; [cbn; lia|].
  cbn [tagTail List.length]. rewrite !slength_app.
  destruct (isETag_ends t Ht) as (_ & _ & _ & _ & _ & _ & _ & L). cbn [String.length]. lia.
Qed.

Variable w : ResponseWriter.

(** One iteration of the loop of checkIfMatch on a buffer headed by a
    tag, possibly behind one space. *)
Lemma checkIfMatch_loop_tag (fuel : nat) (t : string) (tags : list string)
    (lead : string) :
  isETag t -> Forall isETag tags -> lead = "" \/ lead = " " ->
  checkIfMatch_loop (S fuel) w (lead +:+ t +:+ tagTail tags)
  = if etagStrongMatch t (getHeader (wHeader w) "Etag")
    then Some (Return condTrue)
    else checkIfMatch_loop fuel w (tagTail tags).
Proof.
  intros Ht Hall Hlead.
  pose proof (tagTail_last t tags Ht Hall) as Hlast.
  destruct (isETag_ends t Ht) as (c & t' & Et & Hsp & Hcomma & Hstar & _ & _).
  assert (Htrim : TrimString (t +:+ tagTail tags) = t +:+ tagTail tags).
  { rewrite Et in *. cbn [String.append] in *.
    now apply TrimString_id with (d := dquote). }
  assert (Htrim' : TrimString (lead +:+ t +:+ tagTail tags) = t +:+ tagTail tags).
  { destruct Hlead as [-> | ->]; [exact Htrim|].
    unfold TrimString in *. cbn [String.append trimLeft].
    change (isASCIISpace " ") with true. cbv iota. exact Htrim. }
  cbn [checkIfMatch_loop]. rewrite Htrim'.
  pose proof (scanETag_complete (t +:+ tagTail tags) t (tagTail tags) Ht Htrim)
    as Hscan.
  subst t. cbn [String.append] in *. rewrite Hcomma, Hstar, Hscan.
  reflexivity.
Qed.

(** The loop on the rest of a tag list. *)
Lemma checkIfMatch_loop_tail (tags : list string) :
  Forall isETag tags ->
  forall fuel : nat,
    (2 * List.length tags < fuel)%nat ->
    checkIfMatch_loop fuel w (tagTail tags)
    = Some (if existsb (fun t => etagStrongMatch t (getHeader (wHeader w) "Etag")) tags
            then Return condTrue else Break).
Proof.
  induction 1 as [|t tags Ht Hall IH]; intros fuel Hfuel.
  - destruct fuel; [cbn in Hfuel; lia | reflexivity].
  - cbn [List.length] in Hfuel.
    destruct fuel as [|fuel1]; [lia|].
    pose proof (tagTail_last t tags Ht Hall) as Hlast.
    assert (Htrim : TrimString (tagTail (t :: tags))
                    = String "," (String " " (t +:+ tagTail tags))).
    { cbn [tagTail].
      change (", " +:+ t +:+ tagTail tags)
        with (String "," (String " " (t +:+ tagTail tags))).
      apply TrimString_id with (d := dquote); [reflexivity | | reflexivity].
      destruct (isETag_ends t Ht) as (c & t' & Et & _).
      rewrite Et in *. cbn [String.append lastByte] in *. exact Hlast. }
    cbn [checkIfMatch_loop]. rewrite Htrim.
    change (byte_eqb "," ",") with true. cbv iota.
    change (String " " (t +:+ tagTail tags)) with (" " +:+ t +:+ tagTail tags).
    destruct fuel1 as [|fuel]; [lia|].
    rewrite (checkIfMatch_loop_tag fuel t tags " " Ht Hall (or_intror eq_refl)).
    cbn [existsb].
    destruct (etagStrongMatch t _); [reflexivity|]. cbn [orb].
    apply IH. lia.
Qed.

End IfMatchFacts.

(** X1. For an If-Match header that lists well-formed entity tags,
    checkIfMatch gives condTrue when one of them strong-matches the stored
    ETag and condFalse when none does. *)
Theorem checkIfMatch_tag_list (w : ResponseWriter) (r : Request)
    (t : string) (tags : list string) :
  Forall isETag (t :: tags) ->
  http.Get (rHeader r) "If-Match" = tagList (t :: tags) ->
  checkIfMatch w r
  = if existsb (fun x => etagStrongMatch x (getHeader (wHeader w) "Etag")) (t :: tags)
    then condTrue else condFalse.
Proof.
  intros Hall Hhdr. inversion Hall as [|? ? Ht Hrest]; subst.
  unfold checkIfMatch. rewrite Hhdr, tagList_cons.
  destruct (isETag_ends t Ht) as (c & t' & Et & _).
  replace (isEmpty (t +:+ tagTail tags)) with false by (now rewrite Et).
  change (t +:+ tagTail tags) with ("" +:+ t +:+ tagTail tags) at 2.
  rewrite (checkIfMatch_loop_tag w _ t tags "" Ht Hrest (or_introl eq_refl)).
  cbn [existsb]. destruct (etagStrongMatch t _); [reflexivity|]. cbn [orb].
  rewrite (checkIfMatch_loop_tail w tags Hrest).
  - now destruct (existsb _ tags).
  - pose proof (tagTail_length tags Hrest). rewrite slength_app, Et.
    cbn [String.length]. lia.
Qed.

Lemma isETag_tagABC : isETag tagABC.
Proof. exists "abc". split; [reflexivity | left; reflexivity]. Qed.

Lemma isETag_tagXYZ : isETag tagXYZ.
Proof. exists "xyz". split; [reflexivity | left; reflexivity]. Qed.

Lemma checkIfMatch_tag_list_witness :
  (Forall isETag [tagXYZ; tagABC]
   /\ http.Get (rHeader (mkRequest "PUT" (hdr [("If-Match", tagList [tagXYZ; tagABC])])))
        "If-Match" = tagList [tagXYZ; tagABC])
  /\ checkIfMatch wABC (mkRequest "PUT" (hdr [("If-Match", tagList [tagXYZ; tagABC])]))
     = if existsb (fun x => etagStrongMatch x (getHeader (wHeader wABC) "Etag"))
            [tagXYZ; tagABC]
       then condTrue else condFalse.
Proof.
  assert (H : Forall isETag [tagXYZ; tagABC])
    by (repeat constructor; [apply isETag_tagXYZ | apply isETag_tagABC]).
  split; [split; [exact H | reflexivity]|].
  apply (checkIfMatch_tag_list wABC _ tagXYZ [tagABC] H). reflexivity.
Defined.

Section IfMatchStrong.

Variable w : ResponseWriter.

Lemma etagStrongMatch_not_strong (x stored : string) :
  etagStrongMatch stored stored = false -> etagStrongMatch x stored = false.
Proof.
  intros H. unfold etagStrongMatch in *.
  destruct (String.eqb_spec x stored) as [-> | Hne]; [|reflexivity].
  now rewrite String.eqb_refl in H.
Qed.

Lemma checkIfMatch_loop_no_star (fuel : nat) (im : string) (e : loopExit) :
  etagStrongMatch (getHeader (wHeader w) "Etag") (getHeader (wHeader w) "Etag") = false ->
  allb notStar im = true ->
  checkIfMatch_loop fuel w im = Some e -> e = Break.
Proof.
  intros Hweak. revert im; induction fuel as [|fuel IH]; intros im Hall H;
    [discriminate|].
  cbn [checkIfMatch_loop] in H.
  pose proof (allb_TrimString notStar im Hall) as Htrim.
  destruct (TrimString im) as [|c rest] eqn:E; [now inversion H|].
  cbn [allb] in Htrim. apply andb_prop in Htrim as [Hc Hrest].
  destruct (byte_eqb c ","); [now apply (IH rest)|].
  unfold notStar in Hc. apply negb_true_iff in Hc. rewrite Hc in H.
  destruct (scanETag (String c rest)) as [etag remain] eqn:Es.
  destruct (isEmpty etag); [now inversion H|].
  rewrite (etagStrongMatch_not_strong etag _ Hweak) in H.
  apply (IH remain); [|exact H].
  destruct (scanETag_sound _ _ _ Es) as [[_ ->] | [_ Et]]; [reflexivity|].
  assert (Hall' : allb notStar (TrimString (String c rest)) = true).
  { apply allb_TrimString. cbn [allb]. unfold notStar at 1. now rewrite Hc, Hrest. }
  rewrite Et, allb_app in Hall'. now apply andb_prop in Hall' as [_ ?].
Qed.

End IfMatchStrong.

(** X2. When the response carries no strong ETag (none at all, or a weak
    one), an If-Match header without an asterisk is never satisfied:
    checkIfMatch gives condFalse and checkPreconditions answers 412 and
    stops, whatever the method. *)
Theorem ifMatch_needs_strong_etag (ParseTime : string -> option Time)
    (w : ResponseWriter) (r : Request) (modtime : Time) :
  etagStrongMatch (getHeader (wHeader w) "Etag") (getHeader (wHeader w) "Etag") = false ->
  http.Get (rHeader r) "If-Match" <> "" ->
  allb notStar (http.Get (rHeader r) "If-Match") = true ->
  checkIfMatch w r = condFalse
  /\ checkPreconditions ParseTime w r modtime
     = (WriteHeader w http.StatusPreconditionFailed, (true, "")).
Proof.
  intros Hweak Hne Hall.
  assert (Hcf : checkIfMatch w r = condFalse).
  { unfold checkIfMatch. apply isEmpty_false in Hne. rewrite Hne.
    destruct (checkIfMatch_loop _ w _) as [[res|]|] eqn:E; try reflexivity.
    apply (checkIfMatch_loop_no_star w _ _ _ Hweak Hall) in E. discriminate. }
  split; [exact Hcf|].
  apply checkPreconditions_failed. unfold preconditionFailed. now rewrite Hcf.
Qed.

Lemma ifMatch_needs_strong_etag_witness :
  (etagStrongMatch (getHeader (wHeader wWeakABC) "Etag")
     (getHeader (wHeader wWeakABC) "Etag") = false
   /\ http.Get (rHeader putIfMatchABC) "If-Match" <> ""
   /\ allb notStar (http.Get (rHeader putIfMatchABC) "If-Match") = true)
  /\ (checkIfMatch wWeakABC putIfMatchABC = condFalse
      /\ checkPreconditions noParseTime wWeakABC putIfMatchABC someTime
         = (WriteHeader wWeakABC http.StatusPreconditionFailed, (true, ""))).
Proof.
  split; [repeat split; try reflexivity; discriminate|].
  apply (ifMatch_needs_strong_etag noParseTime wWeakABC putIfMatchABC someTime);
    [reflexivity | discriminate | reflexivity].
Defined.

Section DateFacts.

Variable ParseTime : string -> option Time.

Lemma Compare_truncated (m t : Time) :
  0 <= tnsec t ->
  (time.Compare (time.TruncateSecond m) t <=? 0) = (tsec m <=? tsec t).
Proof.
  intros Hn. unfold time.Compare, time.TruncateSecond. cbn [tsec tnsec].
  destruct (tsec m <? tsec t) eqn:H1.
  - apply Z.ltb_lt in H1. symmetry. apply Z.leb_le. lia.
  - apply Z.ltb_ge in H1. destruct (tsec m >? tsec t) eqn:H2.
    + symmetry. apply Z.leb_gt. lia.
    + assert (tsec m = tsec t) by lia.
      replace (tsec m <=? tsec t) with true by (symmetry; apply Z.leb_le; lia).
      destruct (0 <? tnsec t); [reflexivity|].
      replace (0 >? tnsec t) with false by (symmetry; rewrite Z.gtb_ltb; apply Z.ltb_ge; lia).
      reflexivity.
Qed.

Lemma isGetOrHead_guard (m : string) :
  negb (m =? http.MethodGet)%string && negb (m =? http.MethodHead)%string
  = negb (isGetOrHead m).
Proof. unfold isGetOrHead. now rewrite negb_orb. Qed.

(** If-Modified-Since is decided on whole seconds. *)
Lemma checkIfModifiedSince_seconds (r : Request) (modtime t : Time) :
  isGetOrHead (Method r) = true ->
  http.Get (rHeader r) "If-Modified-Since" <> "" ->
  isZeroTime modtime = false ->
  ParseTime (http.Get (rHeader r) "If-Modified-Since") = Some t ->
  0 <= tnsec t ->
  checkIfModifiedSince ParseTime r modtime
  = if tsec modtime <=? tsec t then condFalse else condTrue.
Proof.
  intros Hm Hne Hz Hp Hn. unfold checkIfModifiedSince.
  rewrite isGetOrHead_guard, Hm. cbn [negb].
  apply isEmpty_false in Hne. rewrite Hne, Hz, Hp. cbn [orb].
  now rewrite Compare_truncated.
Qed.

Lemma checkIfModifiedSince_other (r : Request) (modtime : Time) :
  isGetOrHead (Method r) = false ->
  checkIfModifiedSince ParseTime r modtime = condNone.
Proof.
  intros Hm. unfold checkIfModifiedSince. now rewrite isGetOrHead_guard, Hm.
Qed.

Lemma checkIfUnmodifiedSince_seconds (r : Request) (modtime t : Time) :
  http.Get (rHeader r) "If-Unmodified-Since" <> "" ->
  isZeroTime modtime = false ->
  ParseTime (http.Get (rHeader r) "If-Unmodified-Since") = Some t ->
  0 <= tnsec t ->
  checkIfUnmodifiedSince ParseTime r modtime
  = if tsec modtime <=? tsec t then condTrue else condFalse.
Proof.
  intros Hne Hz Hp Hn. unfold checkIfUnmodifiedSince.
  apply isEmpty_false in Hne. rewrite Hne, Hz, Hp. cbn [orb].
  now rewrite Compare_truncated.
Qed.

Lemma checkIfMatch_absent (w : ResponseWriter) (r : Request) :
  http.Get (rHeader r) "If-Match" = "" -> checkIfMatch w r = condNone.
Proof. intros E. unfold checkIfMatch. now rewrite E. Qed.

End DateFacts.

(** X3. On GET or HEAD without If-None-Match, an If-Modified-Since date
    decides on whole seconds once the earlier stage has let the request
    through: when the modification time, its sub-second part dropped, is
    not after the date, the 304 is written and the evaluation stops;
    when it is after the date, nothing is written and the request goes
    on. *)
Theorem ifModifiedSince_whole_seconds (ParseTime : string -> option Time)
    (w : ResponseWriter) (r : Request) (modtime t : Time) :
  isGetOrHead (Method r) = true ->
  preconditionFailed ParseTime w r modtime = false ->
  http.Get (rHeader r) "If-None-Match" = "" ->
  http.Get (rHeader r) "If-Modified-Since" <> "" ->
  isZeroTime modtime = false ->
  ParseTime (http.Get (rHeader r) "If-Modified-Since") = Some t ->
  0 <= tnsec t ->
  let res := checkPreconditions ParseTime w r modtime in
  (tsec modtime <= tsec t -> res = (writeNotModified w, (true, "")))
  /\ (tsec t < tsec modtime -> fst res = w /\ fst (snd res) = false).
Proof.
  intros Hm Hpre Hinm Hne Hz Hp Hn res. subst res.
  unfold preconditionFailed in Hpre. unfold checkPreconditions. cbv zeta.
  rewrite Hpre, (checkIfNoneMatch_absent w r Hinm).
  rewrite (checkIfModifiedSince_seconds ParseTime r modtime t Hm Hne Hz Hp Hn).
  split; intros Hcmp.
  - replace (tsec modtime <=? tsec t) with true by (symmetry; apply Z.leb_le; lia).
    reflexivity.
  - replace (tsec modtime <=? tsec t) with false by (symmetry; apply Z.leb_gt; lia).
    cbn [condResult_eqb]. split; reflexivity.
Qed.

Lemma ifModifiedSince_whole_seconds_witness :
  (isGetOrHead (Method getIfModifiedSince) = true
   /\ preconditionFailed parseAsSomeTime emptyResponse getIfModifiedSince
        someTimeAndHalf = false
   /\ http.Get (rHeader getIfModifiedSince) "If-None-Match" = ""
   /\ http.Get (rHeader getIfModifiedSince) "If-Modified-Since" <> ""
   /\ isZeroTime someTimeAndHalf = false
   /\ parseAsSomeTime (http.Get (rHeader getIfModifiedSince) "If-Modified-Since")
      = Some someTime
   /\ 0 <= tnsec someTime)
  /\ (let res := checkPreconditions parseAsSomeTime emptyResponse getIfModifiedSince
                   someTimeAndHalf in
      (tsec someTimeAndHalf <= tsec someTime ->
       res = (writeNotModified emptyResponse, (true, "")))
      /\ (tsec someTime < tsec someTimeAndHalf ->
          fst res = emptyResponse /\ fst (snd res) = false)).
Proof.
  split; [repeat split; try reflexivity; discriminate|].
  apply (ifModifiedSince_whole_seconds parseAsSomeTime emptyResponse
           getIfModifiedSince someTimeAndHalf someTime);
    try reflexivity; discriminate.
Defined.

(** X4. Without If-Match, an If-Unmodified-Since date before the second of
    the modification time fails the request with 412 on every method, and
    nothing but the status is written; a date in or after that second lets
    this stage pass. *)
Theorem ifUnmodifiedSince_precondition (ParseTime : string -> option Time)
    (w : ResponseWriter) (r : Request) (modtime t : Time) :
  http.Get (rHeader r) "If-Match" = "" ->
  http.Get (rHeader r) "If-Unmodified-Since" <> "" ->
  isZeroTime modtime = false ->
  ParseTime (http.Get (rHeader r) "If-Unmodified-Since") = Some t ->
  0 <= tnsec t ->
  (tsec t < tsec modtime ->
   checkPreconditions ParseTime w r modtime
   = (WriteHeader w http.StatusPreconditionFailed, (true, "")))
  /\ (tsec modtime <= tsec t -> preconditionFailed ParseTime w r modtime = false).
Proof.
  intros Him Hne Hz Hp Hn.
  assert (Hpf : preconditionFailed ParseTime w r modtime
                = negb (tsec modtime <=? tsec t)).
  { unfold preconditionFailed. rewrite (checkIfMatch_absent w r Him).
    cbn [condResult_eqb].
    rewrite (checkIfUnmodifiedSince_seconds ParseTime r modtime t Hne Hz Hp Hn).
    now destruct (tsec modtime <=? tsec t). }
  split; intros Hcmp.
  - apply checkPreconditions_failed. rewrite Hpf.
    replace (tsec modtime <=? tsec t) with false by (symmetry; apply Z.leb_gt; lia).
    reflexivity.
  - rewrite Hpf.
    replace (tsec modtime <=? tsec t) with true by (symmetry; apply Z.leb_le; lia).
    reflexivity.
Qed.

Lemma ifUnmodifiedSince_precondition_witness :
  (http.Get (rHeader putIfUnmodifiedSince) "If-Match" = ""
   /\ http.Get (rHeader putIfUnmodifiedSince) "If-Unmodified-Since" <> ""
   /\ isZeroTime nextSecond = false
   /\ parseAsSomeTime (http.Get (rHeader putIfUnmodifiedSince) "If-Unmodified-Since")
      = Some someTime
   /\ 0 <= tnsec someTime)
  /\ ((tsec someTime < tsec nextSecond ->
       checkPreconditions parseAsSomeTime emptyResponse putIfUnmodifiedSince nextSecond
       = (WriteHeader emptyResponse http.StatusPreconditionFailed, (true, "")))
      /\ (tsec nextSecond <= tsec someTime ->
          preconditionFailed parseAsSomeTime emptyResponse putIfUnmodifiedSince
            nextSecond = false)).
Proof.
  split; [repeat split; try reflexivity; discriminate|].
  apply (ifUnmodifiedSince_precondition parseAsSomeTime emptyResponse
           putIfUnmodifiedSince nextSecond someTime);
    try reflexivity; discriminate.
Defined.

(** X5. checkPreconditions touches the response in three ways only: it
    leaves the writer as it is and is not done, or it is done, hands on no
    Range header, and has either written the status 412 alone or written
    the 304 through writeNotModified.  It never writes a body. *)
Theorem checkPreconditions_effects (ParseTime : string -> option Time)
    (w : ResponseWriter) (r : Request) (modtime : Time) :
  let res := checkPreconditions ParseTime w r modtime in
  (fst (snd res) = false /\ fst res = w
   /\ (snd (snd res) = "" \/ snd (snd res) = http.Get (rHeader r) "Range"))
  \/ (fst (snd res) = true /\ snd (snd res) = ""
      /\ (fst res = WriteHeader w http.StatusPreconditionFailed
          \/ fst res = writeNotModified w)
      /\ bodyOf (wEvents (fst res)) = bodyOf (wEvents w)).
Proof.
  assert (Hb : forall code, bodyOf (wEvents w ++ [EvWriteHeader code])%list
                            = bodyOf (wEvents w)).
  { intros code. induction (wEvents w) as [|[c|p] evs IH]; cbn;
      [reflexivity | exact IH | now rewrite IH]. }
  unfold checkPreconditions. cbv zeta.
  destruct (condResult_eqb _ condFalse).
  - right. cbn [fst snd]. repeat split; auto; apply Hb.
  - match goal with
    | |- context [match ?a with Some _ => _ | None => _ end] =>
        destruct a as [w'|] eqn:E
    end.
    + right. cbn [fst snd]. split; [reflexivity|]. split; [reflexivity|].
      assert (w' = writeNotModified w) as ->.
      { destruct (checkIfNoneMatch w r);
          [destruct (condResult_eqb _ condFalse) | |
           destruct ((_ =? _)%string || (_ =? _)%string)]; congruence. }
      split; [now right|]. unfold writeNotModified, WriteHeader, withHeader.
      cbn [wEvents]. apply Hb.
    + left. cbn [fst snd]. split; [reflexivity|]. split; [reflexivity|].
      destruct (negb _ && _); auto.
Qed.

(** X6. The 304 is for GET and HEAD only: on every other method
    checkPreconditions either leaves the response untouched and goes on,
    or writes the status 412. *)
Theorem not_modified_only_get_head (ParseTime : string -> option Time)
    (w : ResponseWriter) (r : Request) (modtime : Time) :
  isGetOrHead (Method r) = false ->
  let res := checkPreconditions ParseTime w r modtime in
  (fst res = w /\ fst (snd res) = false)
  \/ (res = (WriteHeader w http.StatusPreconditionFailed, (true, ""))).
Proof.
  intros Hm res. subst res. unfold checkPreconditions. cbv zeta.
  destruct (condResult_eqb _ condFalse); [now right|].
  rewrite (checkIfModifiedSince_other ParseTime r modtime Hm).
  unfold isGetOrHead in Hm. rewrite Hm. cbn [condResult_eqb].
  destruct (checkIfNoneMatch w r); left; split; reflexivity.
Qed.

Lemma not_modified_only_get_head_witness :
  isGetOrHead (Method postIfModifiedSince) = false
  /\ (let res := checkPreconditions parseAsSomeTime emptyResponse
                   postIfModifiedSince someTime in
      (fst res = emptyResponse /\ fst (snd res) = false)
      \/ (res = (WriteHeader emptyResponse http.StatusPreconditionFailed, (true, "")))).
Proof.
  split; [reflexivity|].
  apply (not_modified_only_get_head parseAsSomeTime emptyResponse
           postIfModifiedSince someTime). reflexivity.
Defined.

Section IfRangeFacts.

Variable ParseTime : string -> option Time.

Lemma checkIfRange_match (w : ResponseWriter) (r : Request) (modtime : Time) :
  isGetOrHead (Method r) = true ->
  http.Get (rHeader r) "If-Range" <> "" ->
  IfRangeMatch ParseTime (http.Get (rHeader r) "If-Range")
    (http.Get (wHeader w) "Etag") modtime ->
  checkIfRange ParseTime w r modtime = condTrue.
Proof.
  intros Hm Hir Hmatch. unfold checkIfRange.
  rewrite isGetOrHead_guard, Hm. cbn [negb].
  apply isEmpty_false in Hir. rewrite Hir.
  destruct (scanETag (http.Get (rHeader r) "If-Range")) as [etag remain] eqn:Es.
  destruct Hmatch as [Hne Hs | t He Hz Hp Hu]; rewrite Es in *; cbn [fst] in *.
  - apply isEmpty_false in Hne. rewrite Hne. cbn [negb]. now rewrite Hs.
  - subst etag. cbn [isEmpty negb]. rewrite Hz, Hp.
    apply Z.eqb_eq in Hu. now rewrite Hu.
Qed.

(** An entity tag with the weak marker strong-matches nothing. *)
Lemma weak_never_strong (t stored : string) :
  HasPrefix t weakMarker = true -> etagStrongMatch t stored = false.
Proof.
  intros H. apply HasPrefix_weak in H as [t2 ->]. unfold etagStrongMatch.
  cbn [isEmpty negb String.get]. change (byte_eqb "W" dquote) with false.
  now rewrite andb_false_r.
Qed.

End IfRangeFacts.

(** X7. On GET or HEAD, a Range header survives an If-Range header that
    matches (an entity tag that strong-matches the stored ETag, or a date
    in the Unix second of a non-zero modification time): when the request
    is not short-circuited, checkPreconditions hands the Range header on
    unchanged. *)
Theorem ifRange_match_keeps_range (ParseTime : string -> option Time)
    (w : ResponseWriter) (r : Request) (modtime : Time) :
  isGetOrHead (Method r) = true ->
  http.Get (rHeader r) "If-Range" <> "" ->
  IfRangeMatch ParseTime (http.Get (rHeader r) "If-Range")
    (http.Get (wHeader w) "Etag") modtime ->
  fst (snd (checkPreconditions ParseTime w r modtime)) = false ->
  snd (snd (checkPreconditions ParseTime w r modtime)) = http.Get (rHeader r) "Range".
Proof.
  intros Hm Hir Hmatch. unfold checkPreconditions. cbv zeta.
  destruct (condResult_eqb _ condFalse); [discriminate|].
  match goal with
  | |- context [match ?a with Some _ => _ | None => _ end] => destruct a
  end; [discriminate|].
  intros _. cbn [fst snd].
  rewrite (checkIfRange_match ParseTime w r modtime Hm Hir Hmatch).
  cbn [condResult_eqb]. now rewrite andb_false_r.
Qed.

Lemma ifRange_match_keeps_range_witness :
  (isGetOrHead (Method (getIfRange tagABC)) = true
   /\ http.Get (rHeader (getIfRange tagABC)) "If-Range" <> ""
   /\ IfRangeMatch noParseTime (http.Get (rHeader (getIfRange tagABC)) "If-Range")
        (http.Get (wHeader wABC) "Etag") someTime
   /\ fst (snd (checkPreconditions noParseTime wABC (getIfRange tagABC) someTime)) = false)
  /\ snd (snd (checkPreconditions noParseTime wABC (getIfRange tagABC) someTime))
     = http.Get (rHeader (getIfRange tagABC)) "Range".
Proof.
  assert (H : IfRangeMatch noParseTime (http.Get (rHeader (getIfRange tagABC)) "If-Range")
                (http.Get (wHeader wABC) "Etag") someTime)
    by (apply match_etag; [discriminate | reflexivity]).
  split; [repeat split; try reflexivity; [discriminate | exact H]|].
  apply (ifRange_match_keeps_range noParseTime wABC (getIfRange tagABC) someTime);
    [reflexivity | discriminate | exact H | reflexivity].
Defined.

(** X8. A weak entity tag in If-Range never validates a range: on GET or
    HEAD with a Range header, an If-Range header headed by a well-formed
    entity tag with the weak marker makes checkPreconditions hand on no
    Range header, whatever ETag is stored, the same weak tag included. *)
Theorem ifRange_weak_tag_drops_range (ParseTime : string -> option Time)
    (w : ResponseWriter) (r : Request) (modtime : Time) (t rest : string) :
  isGetOrHead (Method r) = true ->
  http.Get (rHeader r) "Range" <> "" ->
  isETag t -> HasPrefix t weakMarker = true ->
  TrimString (http.Get (rHeader r) "If-Range") = t +:+ rest ->
  checkIfRange ParseTime w r modtime = condFalse
  /\ snd (snd (checkPreconditions ParseTime w r modtime)) = "".
Proof.
  intros Hm Hrange Ht Hweak Htrim.
  pose proof (scanETag_complete _ t rest Ht Htrim) as Hscan.
  assert (Hir : http.Get (rHeader r) "If-Range" <> "").
  { intros E. rewrite E in Htrim. cbn in Htrim.
    destruct (isETag_ends t Ht) as (c & t' & -> & _). discriminate. }
  assert (Hcf : checkIfRange ParseTime w r modtime = condFalse).
  { apply checkIfRange_mismatch; [assumption | assumption|].
    apply mismatch_etag; rewrite Hscan; cbn [fst].
    - destruct (isETag_ends t Ht) as (c & t' & -> & _). discriminate.
    - now apply weak_never_strong. }
  split; [exact Hcf|].
  destruct (checkPreconditions_range ParseTime w r modtime)
    as [E | (_ & _ & _ & Hkeep)]; [exact E|].
  exfalso. now apply (Hkeep Hrange).
Qed.

Lemma isETag_weakABC : isETag weakABC.
Proof. exists "abc". split; [reflexivity | right; reflexivity]. Qed.

Lemma ifRange_weak_tag_drops_range_witness :
  (isGetOrHead (Method (getIfRange weakABC)) = true
   /\ http.Get (rHeader (getIfRange weakABC)) "Range" <> ""
   /\ isETag weakABC /\ HasPrefix weakABC weakMarker = true
   /\ TrimString (http.Get (rHeader (getIfRange weakABC)) "If-Range") = weakABC +:+ "")
  /\ (checkIfRange noParseTime wWeakABC (getIfRange weakABC) someTime = condFalse
      /\ snd (snd (checkPreconditions noParseTime wWeakABC (getIfRange weakABC)
                     someTime)) = "").
Proof.
  split; [repeat split; try reflexivity; [discriminate | apply isETag_weakABC]|].
  apply (ifRange_weak_tag_drops_range noParseTime wWeakABC (getIfRange weakABC)
           someTime weakABC "");
    [reflexivity | discriminate | apply isETag_weakABC | reflexivity | reflexivity].
Defined.

(** ** More on range parsing *)

Section LoopFacts.

(** The loop of parseRange, as a whole: it fails exactly when some entry
    is invalid, and otherwise appends the accepted ranges in order and
    raises the overlap-miss flag when some entry missed. *)
Lemma parseRange_loop_spec (entries : list string) (size : Z) :
  forall (ranges : list httpRange) (no : bool),
    parseRange_loop entries size ranges no
    = if existsb (isInvalid size) entries then inr ErrInvalidRange
      else inl ((ranges ++ acceptedRanges entries size)%list,
                no || existsb (isNoOverlap size) entries).
Proof.
  induction entries as [|e entries IH]; intros ranges no.
  - cbn. now rewrite app_nil_r, orb_false_r.
  - rewrite parseRange_loop_cons. cbn [existsb acceptedRanges].
    unfold isInvalid at 1, isNoOverlap at 1.
    destruct (parseEntry e size) as [| | |r]; cbn [orb].
    + apply IH.
    + reflexivity.
    + rewrite IH. destruct (existsb (isInvalid size) entries); [reflexivity|].
      now rewrite orb_true_r.
    + rewrite IH. destruct (existsb (isInvalid size) entries); [reflexivity|].
      now rewrite <- app_assoc.
Qed.

Lemma parseRange_prefixed (s : string) (size : Z) :
  HasPrefix s "bytes=" = true ->
  parseRange s size
  = match parseRange_loop (rangeEntries s) size [] false with
    | inr e => ([], Some e)
    | inl (ranges, noOverlap) =>
        if noOverlap && (Z.of_nat (List.length ranges) =? 0)
        then ([], Some errNoOverlap)
        else (ranges, None)
    end.
Proof.
  intros Hp. unfold parseRange.
  destruct s as [|c s]; [discriminate|]. cbn [isEmpty]. rewrite Hp. reflexivity.
Qed.

Lemma length_zero_iff (l : list httpRange) :
  (Z.of_nat (List.length l) =? 0) = match l with [] => true | _ => false end.
Proof. destruct l; reflexivity. Qed.

End LoopFacts.

(** X9. One syntactically invalid entry anywhere in a bytes= header makes
    the whole header invalid: parseRange returns the error "invalid
    range" and no range, whatever the other entries are. *)
Theorem parseRange_one_invalid_entry (s e : string) (size : Z) :
  HasPrefix s "bytes=" = true ->
  In e (rangeEntries s) ->
  parseEntry e size = EntryInvalid ->
  parseRange s size = ([], Some ErrInvalidRange).
Proof.
  intros Hp Hin He. rewrite (parseRange_prefixed s size Hp), parseRange_loop_spec.
  replace (existsb (isInvalid size) (rangeEntries s)) with true; [reflexivity|].
  symmetry. apply existsb_exists. exists e. split; [assumption|].
  unfold isInvalid. now rewrite He.
Qed.

Lemma parseRange_one_invalid_entry_witness :
  (HasPrefix "bytes=0-4, 7, 5-" "bytes=" = true
   /\ In " 7" (rangeEntries "bytes=0-4, 7, 5-")
   /\ parseEntry " 7" 10 = EntryInvalid)
  /\ parseRange "bytes=0-4, 7, 5-" 10 = ([], Some ErrInvalidRange).
Proof.
  assert (Hin : In " 7" (rangeEntries "bytes=0-4, 7, 5-"))
    by (vm_compute; auto).
  split; [split; [reflexivity | split; [exact Hin | reflexivity]]|].
  apply (parseRange_one_invalid_entry "bytes=0-4, 7, 5-" " 7" 10);
    [reflexivity | exact Hin | reflexivity].
Defined.

(** X10. A successful parse of a bytes= header returns the ranges of the
    accepted entries in the order of the header, duplicates kept, and no
    entry of the header was invalid. *)
Theorem parseRange_keeps_order (s : string) (size : Z) (ranges : list httpRange) :
  HasPrefix s "bytes=" = true ->
  parseRange s size = (ranges, None) ->
  ranges = acceptedRanges (rangeEntries s) size
  /\ existsb (isInvalid size) (rangeEntries s) = false.
Proof.
  intros Hp. rewrite (parseRange_prefixed s size Hp), parseRange_loop_spec.
  destruct (existsb (isInvalid size) (rangeEntries s)); [discriminate|].
  cbn [app]. destruct (_ && _); [discriminate|].
  intros H; inversion H. split; reflexivity.
Qed.

Lemma parseRange_keeps_order_witness :
  (HasPrefix "bytes=5-,0-1,5-" "bytes=" = true
   /\ parseRange "bytes=5-,0-1,5-" 10
      = ([mkRange 5 5; mkRange 0 2; mkRange 5 5], None))
  /\ ([mkRange 5 5; mkRange 0 2; mkRange 5 5]
      = acceptedRanges (rangeEntries "bytes=5-,0-1,5-") 10
      /\ existsb (isInvalid 10) (rangeEntries "bytes=5-,0-1,5-") = false).
Proof.
  split; [split; reflexivity|].
  apply (parseRange_keeps_order "bytes=5-,0-1,5-" 10); reflexivity.
Defined.

(** X11. parseRange reports the unsatisfiable outcome errNoOverlap for a
    bytes= header exactly when no entry is invalid, no entry is accepted,
    and at least one entry is an overlap miss. *)
Theorem parseRange_unsatisfiable_iff (s : string) (size : Z) :
  HasPrefix s "bytes=" = true ->
  (snd (parseRange s size) = Some errNoOverlap
   <-> existsb (isInvalid size) (rangeEntries s) = false
       /\ acceptedRanges (rangeEntries s) size = []
       /\ existsb (isNoOverlap size) (rangeEntries s) = true).
Proof.
  intros Hp. rewrite (parseRange_prefixed s size Hp), parseRange_loop_spec.
  destruct (existsb (isInvalid size) (rangeEntries s)).
  - cbn. split; [discriminate | intros (H & _); discriminate].
  - cbn [app orb]. rewrite length_zero_iff.
    destruct (existsb (isNoOverlap size) (rangeEntries s));
      destruct (acceptedRanges (rangeEntries s) size); cbn;
      split; try discriminate; try (intros (_ & H1 & H2); discriminate); auto.
Qed.

Lemma parseRange_unsatisfiable_iff_witness :
  HasPrefix "bytes=20-30, ,10-" "bytes=" = true
  /\ (snd (parseRange "bytes=20-30, ,10-" 10) = Some errNoOverlap
      <-> existsb (isInvalid 10) (rangeEntries "bytes=20-30, ,10-") = false
          /\ acceptedRanges (rangeEntries "bytes=20-30, ,10-") 10 = []
          /\ existsb (isNoOverlap 10) (rangeEntries "bytes=20-30, ,10-") = true).
Proof.
  split; [reflexivity|].
  apply (parseRange_unsatisfiable_iff "bytes=20-30, ,10-" 10). reflexivity.
Defined.

Section DecimalFacts.

Lemma ParseUint_loop_digit (c : ascii) (k : Z) (s : string) (acc : Z) :
  b2z c = 48 + k -> 0 <= k <= 9 -> 0 <= acc -> acc * 10 + k <= maxUint64 ->
  strconv.ParseUint_loop (String c s) acc = strconv.ParseUint_loop s (acc * 10 + k).
Proof.
  intros Hb Hk Hacc Hfit. cbn [strconv.ParseUint_loop]. rewrite Hb.
  assert (Hmax : maxUint64 = 18446744073709551615) by reflexivity.
  replace ((48 <=? 48 + k) && (48 + k <=? 57)) with true
    by (symmetry; apply andb_true_intro; split; apply Z.leb_le; lia).
  cbv iota zeta beta.
  replace (48 + k - 48) with k by lia.
  replace (k >=? 10) with false by (symmetry; rewrite Z.geb_leb; apply Z.leb_gt; lia).
  replace (acc >=? maxUint64 / 10 + 1) with false.
  2:{ symmetry. rewrite Z.geb_leb. apply Z.leb_gt. rewrite Hmax.
      change (18446744073709551615 / 10 + 1) with 1844674407370955162. lia. }
  unfold wrapU64.
  rewrite (Z.mod_small (acc * 10)) by (change (2 ^ 64) with 18446744073709551616; lia).
  rewrite (Z.mod_small (acc * 10 + k)) by (change (2 ^ 64) with 18446744073709551616; lia).
  replace (acc * 10 + k <? acc * 10) with false by (symmetry; apply Z.ltb_ge; lia).
  replace (acc * 10 + k >? maxUint64) with false
    by (symmetry; rewrite Z.gtb_ltb; apply Z.ltb_ge; lia).
  reflexivity.
Qed.

Lemma uintVal_ge (d : Decimal.uint) (acc : Z) : 0 <= acc -> acc <= uintVal d acc.
Proof.
  revert acc; induction d as [|d IH|d IH|d IH|d IH|d IH|d IH|d IH|d IH|d IH|d IH];
    intros acc H; cbn [uintVal]; [lia| | | | | | | | | |];
    (etransitivity; [|apply IH; lia]); lia.
Qed.

(** ParseUint reads a decimal numeral back as the number it denotes. *)
Lemma ParseUint_loop_numeral (d : Decimal.uint) (acc : Z) :
  0 <= acc -> uintVal d acc <= maxUint64 ->
  strconv.ParseUint_loop (NilEmpty.string_of_uint d) acc = (uintVal d acc, None).
Proof.
  revert acc; induction d as [|d IH|d IH|d IH|d IH|d IH|d IH|d IH|d IH|d IH|d IH];
    intros acc H Hfit; cbn [uintVal NilEmpty.string_of_uint] in *; [reflexivity| | | | | | | | | |];
    match goal with
    | |- strconv.ParseUint_loop (String ?c _) _ = (uintVal _ (_ * 10 + ?k), _) =>
        pose proof (uintVal_ge d (acc * 10 + k) ltac:(lia));
        rewrite (ParseUint_loop_digit c k) by (reflexivity || lia);
        apply IH; [lia | assumption]
    end.
Qed.

Lemma uintVal_acc (d : Decimal.uint) (acc : positive) :
  uintVal d (Z.pos acc) = Z.pos (Pos.of_uint_acc d acc).
Proof.
  revert acc; induction d as [|d IH|d IH|d IH|d IH|d IH|d IH|d IH|d IH|d IH|d IH];
    intros acc; cbn [uintVal Pos.of_uint_acc]; [reflexivity| | | | | | | | | |];
    rewrite <- IH; f_equal; lia.
Qed.

Lemma uintVal_of_uint (d : Decimal.uint) : uintVal d 0 = Z.of_N (Pos.of_uint d).
Proof.
  induction d as [|d IH|d IH|d IH|d IH|d IH|d IH|d IH|d IH|d IH|d IH];
    cbn [uintVal Pos.of_uint]; [reflexivity | exact IH | | | | | | | | |];
    cbn [Z.mul Z.add Z.of_N]; apply uintVal_acc.
Qed.

Lemma string_of_uint_digits (d : Decimal.uint) :
  allb isDigit (NilEmpty.string_of_uint d) = true.
Proof.
  induction d; cbn [NilEmpty.string_of_uint allb]; [reflexivity| | | | | | | | | |];
    rewrite IHd; reflexivity.
Qed.

(** FormatInt of a positive number: its digits, read back by ParseUint. *)
Lemma ParseUint_FormatInt_pos (p : positive) :
  Z.pos p <= maxUint64 ->
  strconv.ParseUint (strconv.FormatInt (Z.pos p)) = (Z.pos p, None)
  /\ allb isDigit (strconv.FormatInt (Z.pos p)) = true
  /\ strconv.FormatInt (Z.pos p) <> "".
Proof.
  intros Hfit. unfold strconv.FormatInt. cbn [Z.to_int NilZero.string_of_int].
  pose proof (DecimalPos.Unsigned.of_to p) as Hof.
  pose proof (uintVal_of_uint (Pos.to_uint p)) as Hval. rewrite Hof in Hval.
  cbn [Z.of_N] in Hval.
  assert (Hnil : Pos.to_uint p <> Decimal.Nil)
    by (intros E; rewrite E in Hof; discriminate).
  assert (Hz : NilZero.string_of_uint (Pos.to_uint p)
               = NilEmpty.string_of_uint (Pos.to_uint p))
    by (destruct (Pos.to_uint p); [congruence | reflexivity ..]).
  rewrite Hz.
  assert (Hs : NilEmpty.string_of_uint (Pos.to_uint p) <> "")
    by (destruct (Pos.to_uint p); [congruence | discriminate ..]).
  split; [|split; [apply string_of_uint_digits | exact Hs]].
  unfold strconv.ParseUint.
  replace (isEmpty (NilEmpty.string_of_uint (Pos.to_uint p))) with false
    by (symmetry; now apply isEmpty_false).
  rewrite (ParseUint_loop_numeral (Pos.to_uint p) 0) by (rewrite ?Hval; lia).
  now rewrite Hval.
Qed.

Lemma isDigit_not_sign (c : ascii) :
  isDigit c = true -> byte_eqb c "+" = false /\ byte_eqb c "-" = false.
Proof.
  unfold isDigit, byte_eqb. intros H.
  apply andb_prop in H as [H1 H2]. apply Z.leb_le in H1, H2.
  change (b2z "+") with 43. change (b2z "-") with 45.
  split; apply Z.eqb_neq; lia.
Qed.

(** ParseInt reads FormatInt back, for every int64 that is not
    negative; the text is made of digits. *)
Lemma ParseInt_FormatInt (n : Z) :
  0 <= n <= maxInt64 ->
  strconv.ParseInt (strconv.FormatInt n) = (n, None)
  /\ allb isDigit (strconv.FormatInt n) = true
  /\ strconv.FormatInt n <> "".
Proof.
  intros [H0 Hmax]. destruct n as [|p|p]; [repeat split; discriminate| |lia].
  assert (Hmax' : maxInt64 = 9223372036854775807) by reflexivity.
  destruct (ParseUint_FormatInt_pos p) as (Hp & Hd & Hne);
    [change maxUint64 with 18446744073709551615; lia|].
  split; [|split; assumption].
  destruct (strconv.FormatInt (Z.pos p)) as [|c rest] eqn:E; [congruence|].
  cbn [allb] in Hd. apply andb_prop in Hd as [Hc _].
  destruct (isDigit_not_sign c Hc) as [Hplus Hminus].
  unfold strconv.ParseInt. cbv zeta. rewrite Hplus, Hminus, Hp.
  cbn [negb andb].
  replace (Z.pos p >=? 2 ^ 63) with false
    by (symmetry; rewrite Z.geb_leb; apply Z.leb_gt;
        change (2 ^ 63) with 9223372036854775808; lia).
  rewrite wrap64_id by (unfold minInt64; lia). reflexivity.
Qed.

End DecimalFacts.

Section EntryForms.

Lemma allb_digit_FormatInt (n : Z) :
  0 <= n <= maxInt64 -> allb plainChar (strconv.FormatInt n) = true.
Proof.
  intros H. apply allb_digit_plain. now apply ParseInt_FormatInt.
Qed.

Lemma Cut_digits (x y : string) :
  allb isDigit x = true -> Cut (x +:+ String "-" y) "-" = (x, y, true).
Proof.
  induction x as [|c x IH]; cbn [String.append Cut allb]; intros H.
  - reflexivity.
  - apply andb_prop in H as [Hc H].
    destruct (isDigit_not_sign c Hc) as [_ Hm]. rewrite Hm, (IH H). reflexivity.
Qed.

(** A bytes= header with one plain entry. *)
Lemma parseRange_single (e : string) (size : Z) :
  allb plainChar e = true ->
  parseRange ("bytes=" +:+ e) size
  = match parseEntry e size with
    | EntryEmpty => ([], None)
    | EntryInvalid => ([], Some ErrInvalidRange)
    | EntryNoOverlap => ([], Some errNoOverlap)
    | EntryRange r => ([r], None)
    end.
Proof.
  intros Hp. rewrite parseRange_prefixed by reflexivity.
  unfold rangeEntries. cbn [String.append sdrop].
  rewrite (Split_plain e Hp), parseRange_loop_cons.
  destruct (parseEntry e size); reflexivity.
Qed.

Variable size : Z.
Hypothesis Hsize : 0 <= size <= maxInt64.

Lemma parseEntry_bounded (a b : Z) :
  0 <= a <= maxInt64 -> 0 <= b <= maxInt64 ->
  parseEntry (boundedText a b) size
  = if size <=? a then EntryNoOverlap
    else if b <? a then EntryInvalid
    else EntryRange (mkRange a (Z.min b (size - 1) - a + 1)).
Proof.
  intros Ha Hb.
  destruct (ParseInt_FormatInt a Ha) as (Hpa & Hda & Hna).
  destruct (ParseInt_FormatInt b Hb) as (Hpb & Hdb & Hnb).
  assert (Hplain : allb plainChar (boundedText a b) = true).
  { unfold boundedText. rewrite !allb_app, !allb_digit_FormatInt by assumption.
    reflexivity. }
  unfold parseEntry. rewrite (TrimString_plain _ Hplain).
  replace (isEmpty (boundedText a b)) with false.
  2:{ symmetry. apply isEmpty_false. unfold boundedText.
      destruct (strconv.FormatInt a); [congruence | discriminate]. }
  unfold boundedText at 1.
  change ("-" +:+ strconv.FormatInt b) with (String "-" (strconv.FormatInt b)).
  rewrite (Cut_digits _ _ Hda). cbn [negb].
  rewrite !TrimString_plain by now apply allb_digit_FormatInt.
  apply isEmpty_false in Hna, Hnb. rewrite Hna, Hnb, Hpa, Hpb. cbn [isErr orb].
  replace (a <? 0) with false by (symmetry; apply Z.ltb_ge; lia).
  rewrite Z.geb_leb. destruct (size <=? a) eqn:Hsa; [reflexivity|].
  apply Z.leb_gt in Hsa. rewrite Z.gtb_ltb.
  destruct (b <? a) eqn:Hba; [reflexivity|]. apply Z.ltb_ge in Hba.
  assert (Hmin : minInt64 = -9223372036854775808) by reflexivity.
  f_equal. f_equal. rewrite Z.geb_leb. destruct (size <=? b) eqn:Hsb.
  - apply Z.leb_le in Hsb. rewrite (wrap64_id (size - 1)) by lia.
    rewrite (wrap64_id (size - 1 - a)), wrap64_id by lia. lia.
  - apply Z.leb_gt in Hsb.
    rewrite (wrap64_id (b - a)), wrap64_id by lia. lia.
Qed.

Lemma parseEntry_prefix (a : Z) :
  0 <= a <= maxInt64 ->
  parseEntry (prefixText a) size
  = if size <=? a then EntryNoOverlap else EntryRange (mkRange a (size - a)).
Proof.
  intros Ha.
  destruct (ParseInt_FormatInt a Ha) as (Hpa & Hda & Hna).
  assert (Hplain : allb plainChar (prefixText a) = true).
  { unfold prefixText. rewrite allb_app, allb_digit_FormatInt by assumption.
    reflexivity. }
  unfold parseEntry. rewrite (TrimString_plain _ Hplain).
  replace (isEmpty (prefixText a)) with false.
  2:{ symmetry. apply isEmpty_false. unfold prefixText.
      destruct (strconv.FormatInt a); [congruence | discriminate]. }
  unfold prefixText.
  change (strconv.FormatInt a +:+ "-") with (strconv.FormatInt a +:+ String "-" "").
  rewrite (Cut_digits _ _ Hda). cbn [negb].
  rewrite TrimString_plain by now apply allb_digit_FormatInt.
  change (TrimString "") with "".
  apply isEmpty_false in Hna. rewrite Hna, Hpa. cbn [isErr orb isEmpty].
  replace (a <? 0) with false by (symmetry; apply Z.ltb_ge; lia).
  rewrite Z.geb_leb. destruct (size <=? a) eqn:Hsa; [reflexivity|].
  apply Z.leb_gt in Hsa.
  assert (Hmin : minInt64 = -9223372036854775808) by reflexivity.
  rewrite wrap64_id by lia. reflexivity.
Qed.

Lemma parseEntry_suffix (n : Z) :
  0 <= n <= maxInt64 ->
  parseEntry (suffixText n) size
  = EntryRange (mkRange (size - Z.min n size) (Z.min n size)).
Proof.
  intros Hn.
  destruct (ParseInt_FormatInt n Hn) as (Hpn & Hdn & Hnn).
  assert (Hplain : allb plainChar (suffixText n) = true).
  { unfold suffixText. rewrite allb_app, allb_digit_FormatInt by assumption.
    reflexivity. }
  unfold parseEntry. rewrite (TrimString_plain _ Hplain).
  unfold suffixText.
  change ("-" +:+ strconv.FormatInt n) with (String "-" (strconv.FormatInt n)).
  cbn [isEmpty Cut]. change (byte_eqb "-" "-") with true. cbv iota beta.
  cbn [negb]. change (TrimString "") with "". cbn [isEmpty].
  rewrite TrimString_plain by now apply allb_digit_FormatInt.
  rewrite Hpn.
  destruct (strconv.FormatInt n) as [|c rest] eqn:E; [congruence|].
  cbn [allb] in Hdn. apply andb_prop in Hdn as [Hc _].
  destruct (isDigit_not_sign c Hc) as [_ Hm].
  cbn [isEmpty String.get orb]. rewrite Hm.
  replace (n <? 0) with false by (symmetry; apply Z.ltb_ge; lia).
  cbn [isErr orb].
  assert (Hmin : minInt64 = -9223372036854775808) by reflexivity.
  rewrite Z.gtb_ltb. destruct (size <? n) eqn:Hsn.
  - apply Z.ltb_lt in Hsn. rewrite Z.min_r by lia.
    rewrite Z.sub_diag, (wrap64_id 0), Z.sub_0_r, wrap64_id by lia. reflexivity.
  - apply Z.ltb_ge in Hsn. rewrite Z.min_l by lia.
    rewrite (wrap64_id (size - n)), wrap64_id by lia.
    f_equal. f_equal. lia.
Qed.

End EntryForms.

(** X12. The bounded form: for numbers [a] and [b] that fit an int64, the
    header bytes=a-b on a resource of [size] bytes is unsatisfiable when
    [a] is at or beyond the size (the end is not even looked at), invalid
    when [b < a], and otherwise the one range from [a] to [b] inclusive,
    the end clamped to the last byte. *)
Theorem parseRange_bounded_form (a b size : Z) :
  0 <= size <= maxInt64 -> 0 <= a <= maxInt64 -> 0 <= b <= maxInt64 ->
  parseRange ("bytes=" +:+ boundedText a b) size
  = if size <=? a then ([], Some errNoOverlap)
    else if b <? a then ([], Some ErrInvalidRange)
    else ([mkRange a (Z.min b (size - 1) - a + 1)], None).
Proof.
  intros Hsize Ha Hb. rewrite parseRange_single.
  - rewrite (parseEntry_bounded size Hsize a b Ha Hb).
    destruct (size <=? a); [reflexivity|]. now destruct (b <? a).
  - unfold boundedText. rewrite !allb_app, !allb_digit_FormatInt by assumption.
    reflexivity.
Qed.

Lemma parseRange_bounded_form_witness :
  (0 <= 1000 <= maxInt64 /\ 0 <= 990 <= maxInt64 /\ 0 <= 4000 <= maxInt64)
  /\ parseRange ("bytes=" +:+ boundedText 990 4000) 1000
     = if 1000 <=? 990 then ([], Some errNoOverlap)
       else if 4000 <? 990 then ([], Some ErrInvalidRange)
       else ([mkRange 990 (Z.min 4000 (1000 - 1) - 990 + 1)], None).
Proof.
  split; [repeat split; vm_compute; discriminate|].
  apply (parseRange_bounded_form 990 4000 1000); vm_compute; split; discriminate.
Defined.

(** X13. The prefix form: the header bytes=a- on a resource of [size]
    bytes is the one range from [a] to the end when [a] is below the size,
    and unsatisfiable otherwise. *)
Theorem parseRange_prefix_form (a size : Z) :
  0 <= size <= maxInt64 -> 0 <= a <= maxInt64 ->
  parseRange ("bytes=" +:+ prefixText a) size
  = if size <=? a then ([], Some errNoOverlap)
    else ([mkRange a (size - a)], None).
Proof.
  intros Hsize Ha. rewrite parseRange_single.
  - rewrite (parseEntry_prefix size Hsize a Ha). now destruct (size <=? a).
  - unfold prefixText. rewrite allb_app, allb_digit_FormatInt by assumption.
    reflexivity.
Qed.

Lemma parseRange_prefix_form_witness :
  (0 <= 1000 <= maxInt64 /\ 0 <= 1000 <= maxInt64)
  /\ parseRange ("bytes=" +:+ prefixText 1000) 1000
     = if 1000 <=? 1000 then ([], Some errNoOverlap)
       else ([mkRange 1000 (1000 - 1000)], None).
Proof.
  split; [repeat split; vm_compute; discriminate|].
  apply (parseRange_prefix_form 1000 1000); vm_compute; split; discriminate.
Defined.

(** X14. The suffix form: the header bytes=-n on a resource of [size]
    bytes is always one range, the last [min n size] bytes; it is never
    unsatisfiable, not even for [n = 0] or an empty resource. *)
Theorem parseRange_suffix_form (n size : Z) :
  0 <= size <= maxInt64 -> 0 <= n <= maxInt64 ->
  parseRange ("bytes=" +:+ suffixText n) size
  = ([mkRange (size - Z.min n size) (Z.min n size)], None).
Proof.
  intros Hsize Hn. rewrite parseRange_single.
  - now rewrite (parseEntry_suffix size Hsize n Hn).
  - unfold suffixText. rewrite allb_app, allb_digit_FormatInt by assumption.
    reflexivity.
Qed.

Lemma parseRange_suffix_form_witness :
  (0 <= 0 <= maxInt64 /\ 0 <= 7 <= maxInt64)
  /\ parseRange ("bytes=" +:+ suffixText 7) 0
     = ([mkRange (0 - Z.min 7 0) (Z.min 7 0)], None).
Proof.
  split; [repeat split; vm_compute; discriminate|].
  apply (parseRange_suffix_form 7 0); vm_compute; split; discriminate.
Defined.

(** X15. Round trip with contentRange: for a range of at least one byte
    inside the resource, contentRange prints its first and last byte
    position, and a Range header with those two positions parses back to
    the same one range. *)
Theorem contentRange_parseRange_roundtrip (r : httpRange) (size : Z) :
  0 <= start r -> 1 <= length r -> start r + length r <= size -> size <= maxInt64 ->
  contentRange r size
  = "bytes " +:+ boundedText (start r) (start r + length r - 1)
    +:+ "/" +:+ strconv.FormatInt size
  /\ parseRange ("bytes=" +:+ boundedText (start r) (start r + length r - 1)) size
     = ([r], None).
Proof.
  intros Hs Hl Hb Hmax.
  assert (Hmin : minInt64 = -9223372036854775808) by reflexivity.
  split.
  - unfold contentRange, boundedText.
    rewrite (wrap64_id (start r + length r)), wrap64_id by lia.
    now rewrite !sapp_assoc.
  - assert (Hsz : 0 <= size <= maxInt64) by lia.
    assert (Ha : 0 <= start r <= maxInt64) by lia.
    assert (Hb' : 0 <= start r + length r - 1 <= maxInt64) by lia.
    rewrite parseRange_single;
      [|unfold boundedText; rewrite !allb_app, !allb_digit_FormatInt by assumption;
        reflexivity].
    rewrite (parseEntry_bounded size Hsz _ _ Ha Hb').
    replace (size <=? start r) with false by (symmetry; apply Z.leb_gt; lia).
    replace (start r + length r - 1 <? start r) with false
      by (symmetry; apply Z.ltb_ge; lia).
    rewrite Z.min_l by lia. destruct r as [s l]. cbn [start length]. do 3 f_equal. lia.
Qed.

Lemma contentRange_parseRange_roundtrip_witness :
  (0 <= start (mkRange 4 2) /\ 1 <= length (mkRange 4 2)
   /\ start (mkRange 4 2) + length (mkRange 4 2) <= 10 /\ 10 <= maxInt64)
  /\ (contentRange (mkRange 4 2) 10
      = "bytes " +:+ boundedText (start (mkRange 4 2))
                       (start (mkRange 4 2) + length (mkRange 4 2) - 1)
        +:+ "/" +:+ strconv.FormatInt 10
      /\ parseRange ("bytes=" +:+ boundedText (start (mkRange 4 2))
                                    (start (mkRange 4 2) + length (mkRange 4 2) - 1)) 10
         = ([mkRange 4 2], None)).
Proof.
  split; [repeat split; vm_compute; discriminate|].
  apply (contentRange_parseRange_roundtrip (mkRange 4 2) 10); vm_compute; discriminate.
Defined.

(** ** More on content delivery *)

Section DeliveryFacts.

Variable ParseTime : string -> option Time.
Variable FormatTime : Time -> string.
Variable TypeByExtension : string -> string.
Variable DetectContentType : string -> string.
Variable h : fileHandler.

Lemma setLastModified_other_header (w : ResponseWriter) (modtime : Time) (k : string) :
  k <> "Last-Modified" ->
  wHeader (setLastModified FormatTime w modtime) !! k = wHeader w !! k.
Proof.
  intros Hk. unfold setLastModified. destruct (negb (isZeroTime modtime)); [|reflexivity].
  cbn [wHeader withHeader]. unfold http.Set_. now rewrite lookup_insert_ne by congruence.
Qed.

Lemma serveContent_ctype_other_header (w w2 : ResponseWriter) (name ctype : string)
    (content content2 : ReadSeeker) (k : string) :
  serveContent_ctype TypeByExtension DetectContentType w name content
  = inl (w2, ctype, content2) ->
  k <> "Content-Type" -> wHeader w2 !! k = wHeader w !! k.
Proof.
  unfold serveContent_ctype. intros H Hk.
  destruct (wHeader w !! "Content-Type") as [cts|].
  - now inversion H.
  - destruct (isEmpty (TypeByExtension name)).
    + unfold io.ReadFull, io.readUpTo, io.Seek in H. cbn in H.
      inversion H; subst. cbn [wHeader withHeader]. unfold http.Set_.
      now rewrite lookup_insert_ne by congruence.
    + inversion H; subst. cbn [wHeader withHeader]. unfold http.Set_.
      now rewrite lookup_insert_ne by congruence.
Qed.

(** A parsed list of one range puts that range inside the resource. *)
Lemma parseRange_one_within (s : string) (size : Z) (ra : httpRange) :
  0 <= size <= maxInt64 ->
  parseRange s size = ([ra], None) -> rangeWithin size ra.
Proof.
  intros Hsize Hp.
  destruct (parseRange_ok s size [ra] Hp) as [E | [no Hl]]; [discriminate|].
  apply parseRange_loop_within in Hl; [|assumption|constructor].
  now inversion Hl.
Qed.

End DeliveryFacts.

(** X16. A Range header that parses to one range is answered with that
    slice: status 206, Content-Range with the first and last byte position
    and the size, Content-Length equal to the length of the range, and,
    unless the method is HEAD, exactly the bytes of the range as the
    body. *)
Theorem single_range_partial_content (ParseTime : string -> option Time)
    (FormatTime : Time -> string) (TypeByExtension DetectContentType : string -> string)
    (h : fileHandler) (rnd1 rnd2 : string) (w w1 w2 : ResponseWriter) (r : Request)
    (name rangeReq ctype : string) (modtime : Time) (size : Z) (ra : httpRange)
    (content content2 : ReadSeeker) :
  checkPreconditions ParseTime (setLastModified FormatTime w modtime) r modtime
  = (w1, (false, rangeReq)) ->
  serveContent_ctype TypeByExtension DetectContentType w1 name content
  = inl (w2, ctype, content2) ->
  len (rdata content) = size -> size <= maxInt64 ->
  parseRange rangeReq size = ([ra], None) ->
  let res := serveContent ParseTime FormatTime TypeByExtension DetectContentType h
               rnd1 rnd2 w r name modtime (size, None) content in
  (exists evs,
      wEvents res = (wEvents w ++ EvWriteHeader http.StatusPartialContent :: evs)%list
      /\ bodyOf evs = if String.eqb (Method r) http.MethodHead
                      then "" else slice (rdata content) ra)
  /\ http.Get (wHeader res) "Content-Range" = contentRange ra size
  /\ http.Get (wHeader res) "Content-Length" = strconv.FormatInt (length ra)
  /\ http.Get (wHeader res) "Accept-Ranges" = "bytes".
Proof.
  intros Hcp Hct Hlen Hmax Hparse res. subst res.
  assert (Hsize : 0 <= size) by (rewrite <- Hlen; apply len_nonneg).
  destruct (parseRange_one_within rangeReq size ra (conj Hsize Hmax) Hparse)
    as (Hs & Hl & Hb & _).
  rewrite (serveContent_delivery ParseTime FormatTime TypeByExtension
             DetectContentType h rnd1 rnd2 w w1 w2 r name rangeReq ctype modtime
             size content content2 Hcp Hct Hsize).
  rewrite Hparse.
  destruct (serveContent_ctype_content TypeByExtension DetectContentType
              w1 w2 name ctype content content2 Hct) as (Hd & _ & He).
  apply checkPreconditions_proceeds in Hcp. subst w1.
  rewrite setLastModified_events in He.
  unfold serveContent_send.
  assert (Hsum : sumRangesSize [ra] = length ra).
  { unfold sumRangesSize. cbn [sumRangesSize_loop]. rewrite Z.add_0_l.
    apply wrap64_id. unfold minInt64. lia. }
  rewrite Hsum.
  replace (length ra >? size) with false
    by (symmetry; rewrite Z.gtb_ltb; apply Z.ltb_ge; lia).
  cbv iota beta zeta. unfold io.Seek.
  replace (start ra <? 0) with false by (symmetry; apply Z.ltb_ge; lia).
  cbv iota beta zeta.
  change (Z.of_nat (List.length [ra]) >? 0) with true.
  cbn [orb wHeader withHeader].
  assert (Hread : fst (io.readUpTo (mkContent (rdata content2) (start ra)) (length ra))
                  = slice (rdata content) ra).
  { unfold io.readUpTo, slice. cbn [rdata rpos fst]. now rewrite Hd. }
  destruct (Method r =? http.MethodHead)%string eqn:Hm; cbn [negb].
  - cbn [WriteHeader withHeader wHeader wEvents]. rewrite He.
    split; [exists []; split; reflexivity|].
    repeat split;
      repeat (rewrite Get_Set_eq || rewrite Get_Set_ne by discriminate); reflexivity.
  - split_CopyN Hh evs Hev Hbody.
    cbn [WriteHeader withHeader wHeader wEvents] in Hh, Hev.
    rewrite Hh, Hev, He.
    split; [exists evs; split; [now rewrite <- app_assoc | now rewrite Hbody, Hread]|].
    repeat split;
      repeat (rewrite Get_Set_eq || rewrite Get_Set_ne by discriminate); reflexivity.
Qed.

Lemma single_range_partial_content_witness :
  (checkPreconditions noParseTime
     (setLastModified sampleFormatTime emptyResponse someTime)
     (getRange "bytes=2-3") someTime
   = (sampleW1, (false, "bytes=2-3"))
   /\ serveContent_ctype sampleTypeByExtension sampleDetect sampleW1 "f.txt" tenBytes
      = inl (sampleW2, "text/plain", tenBytes)
   /\ len (rdata tenBytes) = 10 /\ 10 <= maxInt64
   /\ parseRange "bytes=2-3" 10 = ([mkRange 2 2], None))
  /\ (let res := serveContent noParseTime sampleFormatTime sampleTypeByExtension
                   sampleDetect sampleHandler "AAAA" "BBBB" emptyResponse
                   (getRange "bytes=2-3") "f.txt" someTime (10, None) tenBytes in
      (exists evs,
          wEvents res
          = (wEvents emptyResponse ++ EvWriteHeader http.StatusPartialContent :: evs)%list
          /\ bodyOf evs = if String.eqb (Method (getRange "bytes=2-3")) http.MethodHead
                          then "" else slice (rdata tenBytes) (mkRange 2 2))
      /\ http.Get (wHeader res) "Content-Range" = contentRange (mkRange 2 2) 10
      /\ http.Get (wHeader res) "Content-Length" = strconv.FormatInt (length (mkRange 2 2))
      /\ http.Get (wHeader res) "Accept-Ranges" = "bytes").
Proof.
  split.
  - repeat split; vm_compute; (reflexivity || discriminate).
  - apply (single_range_partial_content noParseTime sampleFormatTime
             sampleTypeByExtension sampleDetect sampleHandler "AAAA" "BBBB"
             emptyResponse sampleW1 sampleW2 (getRange "bytes=2-3") "f.txt"
             "bytes=2-3" "text/plain" someTime 10 (mkRange 2 2) tenBytes tenBytes);
      vm_compute; (reflexivity || discriminate).
Defined.

(** X17. An unsatisfiable Range header on an empty resource is no error:
    when the size is 0 and parseRange reports errNoOverlap, serveContent
    answers 200 with no body bytes and adds no Content-Range header. *)
Theorem unsatisfiable_on_empty_resource (ParseTime : string -> option Time)
    (FormatTime : Time -> string) (TypeByExtension DetectContentType : string -> string)
    (h : fileHandler) (rnd1 rnd2 : string) (w w1 w2 : ResponseWriter) (r : Request)
    (name rangeReq ctype : string) (modtime : Time)
    (content content2 : ReadSeeker) :
  checkPreconditions ParseTime (setLastModified FormatTime w modtime) r modtime
  = (w1, (false, rangeReq)) ->
  serveContent_ctype TypeByExtension DetectContentType w1 name content
  = inl (w2, ctype, content2) ->
  snd (parseRange rangeReq 0) = Some errNoOverlap ->
  let res := serveContent ParseTime FormatTime TypeByExtension DetectContentType h
               rnd1 rnd2 w r name modtime (0, None) content in
  (exists evs,
      wEvents res = (wEvents w ++ EvWriteHeader http.StatusOK :: evs)%list
      /\ bodyOf evs = "")
  /\ wHeader res !! "Content-Range" = wHeader w !! "Content-Range".
Proof.
  intros Hcp Hct Hparse res. subst res.
  rewrite (serveContent_delivery ParseTime FormatTime TypeByExtension
             DetectContentType h rnd1 rnd2 w w1 w2 r name rangeReq ctype modtime
             0 content content2 Hcp Hct ltac:(lia)).
  destruct (parseRange rangeReq 0) as [ranges err]. cbn [snd] in Hparse. subst err.
  cbn [error_eqb]. change (0 =? 0) with true. cbv iota.
  assert (Hguard : (if sumRangesSize [] >? 0 then [] else []) = (@nil httpRange))
    by reflexivity.
  destruct (serveContent_send_full h rnd1 rnd2 w2 r ctype 0 [] content2 Hguard)
    as ((evs & Hev & Hbody) & _ & _ & Hcr & _).
  destruct (serveContent_ctype_content TypeByExtension DetectContentType
              w1 w2 name ctype content content2 Hct) as (_ & _ & He).
  rewrite (serveContent_ctype_other_header TypeByExtension DetectContentType
             w1 w2 name ctype content content2 "Content-Range" Hct) in Hcr
    by discriminate.
  apply checkPreconditions_proceeds in Hcp. subst w1.
  rewrite setLastModified_events in He.
  rewrite setLastModified_other_header in Hcr by discriminate.
  split; [|exact Hcr].
  exists evs. split; [now rewrite Hev, He|].
  rewrite Hbody. unfold bodyBytes, io.readUpTo.
  destruct (Method r =? http.MethodHead)%string; reflexivity.
Qed.

Lemma unsatisfiable_on_empty_resource_witness :
  (checkPreconditions noParseTime
     (setLastModified sampleFormatTime emptyResponse someTime)
     (getRange "bytes=0-") someTime
   = (sampleW1, (false, "bytes=0-"))
   /\ serveContent_ctype sampleTypeByExtension sampleDetect sampleW1 "f.txt"
        (mkContent "" 0)
      = inl (sampleW2, "text/plain", mkContent "" 0)
   /\ snd (parseRange "bytes=0-" 0) = Some errNoOverlap)
  /\ (let res := serveContent noParseTime sampleFormatTime sampleTypeByExtension
                   sampleDetect sampleHandler "AAAA" "BBBB" emptyResponse
                   (getRange "bytes=0-") "f.txt" someTime (0, None) (mkContent "" 0) in
      (exists evs,
          wEvents res = (wEvents emptyResponse ++ EvWriteHeader http.StatusOK :: evs)%list
          /\ bodyOf evs = "")
      /\ wHeader res !! "Content-Range" = wHeader emptyResponse !! "Content-Range").
Proof.
  split.
  - repeat split; vm_compute; reflexivity.
  - apply (unsatisfiable_on_empty_resource noParseTime sampleFormatTime
             sampleTypeByExtension sampleDetect sampleHandler "AAAA" "BBBB"
             emptyResponse sampleW1 sampleW2 (getRange "bytes=0-") "f.txt"
             "bytes=0-" "text/plain" someTime (mkContent "" 0) (mkContent "" 0));
      vm_compute; reflexivity.
Defined.

(** X18. A malformed Range header is handed to the error callback with
    status 416 and the error "invalid range"; unlike the unsatisfiable
    case no Content-Range header is added, and nothing has been written to
    the response before the callback runs. *)
Theorem malformed_range_416 (ParseTime : string -> option Time)
    (FormatTime : Time -> string) (TypeByExtension DetectContentType : string -> string)
    (h : fileHandler) (rnd1 rnd2 : string) (w w1 w2 : ResponseWriter) (r : Request)
    (name rangeReq ctype : string) (modtime : Time) (size : Z)
    (content content2 : ReadSeeker) :
  checkPreconditions ParseTime (setLastModified FormatTime w modtime) r modtime
  = (w1, (false, rangeReq)) ->
  serveContent_ctype TypeByExtension DetectContentType w1 name content
  = inl (w2, ctype, content2) ->
  0 <= size ->
  snd (parseRange rangeReq size) = Some ErrInvalidRange ->
  serveContent ParseTime FormatTime TypeByExtension DetectContentType h
    rnd1 rnd2 w r name modtime (size, None) content
  = errHandler h w2 r http.StatusRequestedRangeNotSatisfiable (Some ErrInvalidRange)
  /\ wEvents w2 = wEvents w
  /\ wHeader w2 !! "Content-Range" = wHeader w !! "Content-Range".
Proof.
  intros Hcp Hct Hsize Hparse.
  rewrite (serveContent_delivery ParseTime FormatTime TypeByExtension
             DetectContentType h rnd1 rnd2 w w1 w2 r name rangeReq ctype modtime
             size content content2 Hcp Hct Hsize).
  destruct (parseRange rangeReq size) as [ranges err]. cbn [snd] in Hparse. subst err.
  cbn [error_eqb]. split; [reflexivity|].
  destruct (serveContent_ctype_content TypeByExtension DetectContentType
              w1 w2 name ctype content content2 Hct) as (_ & _ & He).
  rewrite (serveContent_ctype_other_header TypeByExtension DetectContentType
             w1 w2 name ctype content content2 "Content-Range" Hct) by discriminate.
  apply checkPreconditions_proceeds in Hcp. subst w1.
  rewrite setLastModified_events in He.
  rewrite setLastModified_other_header by discriminate. auto.
Qed.

Lemma malformed_range_416_witness :
  (checkPreconditions noParseTime
     (setLastModified sampleFormatTime emptyResponse someTime)
     (getRange "bytes=7") someTime
   = (sampleW1, (false, "bytes=7"))
   /\ serveContent_ctype sampleTypeByExtension sampleDetect sampleW1 "f.txt" tenBytes
      = inl (sampleW2, "text/plain", tenBytes)
   /\ 0 <= 10
   /\ snd (parseRange "bytes=7" 10) = Some ErrInvalidRange)
  /\ (serveContent noParseTime sampleFormatTime sampleTypeByExtension sampleDetect
        sampleHandler "AAAA" "BBBB" emptyResponse (getRange "bytes=7") "f.txt"
        someTime (10, None) tenBytes
      = errHandler sampleHandler sampleW2 (getRange "bytes=7")
          http.StatusRequestedRangeNotSatisfiable (Some ErrInvalidRange)
      /\ wEvents sampleW2 = wEvents emptyResponse
      /\ wHeader sampleW2 !! "Content-Range" = wHeader emptyResponse !! "Content-Range").
Proof.
  split.
  - repeat split; vm_compute; (reflexivity || discriminate).
  - apply (malformed_range_416 noParseTime sampleFormatTime sampleTypeByExtension
             sampleDetect sampleHandler "AAAA" "BBBB" emptyResponse sampleW1 sampleW2
             (getRange "bytes=7") "f.txt" "bytes=7" "text/plain" someTime 10
             tenBytes tenBytes); vm_compute; (reflexivity || discriminate).
Defined.

(** ** Sizes under wrap-around *)

Section WrapFacts.

Lemma wrap64_add_l (a b : Z) : wrap64 (wrap64 a + b) = wrap64 (a + b).
Proof.
  unfold wrap64. f_equal.
  replace ((a + 2 ^ 63) mod 2 ^ 64 - 2 ^ 63 + b + 2 ^ 63)
    with ((a + 2 ^ 63) mod 2 ^ 64 + b) by lia.
  rewrite Z.add_mod_idemp_l by (change (2 ^ 64) with 18446744073709551616; lia).
  f_equal. lia.
Qed.

Lemma wrap64_add_r (a b : Z) : wrap64 (a + wrap64 b) = wrap64 (a + b).
Proof. rewrite (Z.add_comm a), wrap64_add_l. f_equal. lia. Qed.

Lemma sumRangesSize_loop_wrap (ranges : list httpRange) (acc : Z) :
  wrap64 (sumRangesSize_loop ranges acc) = wrap64 (acc + sumLengths ranges)
  /\ (ranges <> [] -> sumRangesSize_loop ranges acc = wrap64 (acc + sumLengths ranges)).
Proof.
  revert acc; induction ranges as [|ra ranges IH]; intros acc.
  - cbn. rewrite Z.add_0_r. split; [reflexivity | congruence].
  - cbn [sumRangesSize_loop sumLengths].
    destruct (IH (wrap64 (acc + length ra))) as [IH1 IH2].
    assert (E : wrap64 (wrap64 (acc + length ra) + sumLengths ranges)
                = wrap64 (acc + (length ra + sumLengths ranges)))
      by (rewrite wrap64_add_l; f_equal; lia).
    split; [now rewrite IH1 | intros _].
    destruct ranges as [|rb ranges'].
    + cbn. f_equal. lia.
    + rewrite IH2 by discriminate. exact E.
Qed.

Lemma rangesMIMESize_loop_wrap (ctype rnd : string) (size : Z)
    (ranges : list httpRange) :
  forall (lp : bool) (c enc : Z),
    exists lp' c' enc',
      rangesMIMESize_loop ranges ctype size (multipart.mkWriter c rnd lp) enc
      = (multipart.mkWriter c' rnd lp', enc')
      /\ wrap64 c' = wrap64 (c + partsLen lp rnd ranges ctype size)
      /\ wrap64 enc' = wrap64 (enc + sumLengths ranges).
Proof.
  induction ranges as [|ra ranges IH]; intros lp c enc.
  - exists lp, c, enc. cbn. now rewrite !Z.add_0_r.
  - cbn [rangesMIMESize_loop partsLen sumLengths].
    unfold multipart.CreatePart.
    cbn [multipart.w multipart.boundary multipart.lastpart].
    fold (partHeader lp rnd ra ctype size).
    unfold ioWrite, countingWriter_Write.
    destruct (IH true (wrap64 (c + len (partHeader lp rnd ra ctype size)))
                (wrap64 (enc + length ra))) as (lp' & c' & enc' & E & Hc & He).
    exists lp', c', enc'. split; [exact E|]. split.
    + rewrite Hc, wrap64_add_l. f_equal. lia.
    + rewrite He, wrap64_add_l. f_equal. lia.
Qed.

End WrapFacts.

(** X19. sumRangesSize is the sum of the lengths reduced into the int64
    range by two's-complement wrap-around; it is the exact sum whenever
    the lengths are not negative and their sum fits an int64. *)
Theorem sumRangesSize_wraps (ranges : list httpRange) :
  sumRangesSize ranges = wrap64 (sumLengths ranges)
  /\ (Forall (fun ra => 0 <= length ra) ranges ->
      sumLengths ranges <= maxInt64 ->
      sumRangesSize ranges = sumLengths ranges).
Proof.
  split.
  - unfold sumRangesSize. destruct ranges as [|ra ranges]; [reflexivity|].
    destruct (sumRangesSize_loop_wrap (ra :: ranges) 0) as [_ H].
    now rewrite H by discriminate.
  - apply sumRangesSize_exact.
Qed.

(** X20. The size that rangesMIMESize returns is the number of bytes of
    all part headers, of the trailing boundary and of all ranges, reduced
    into the int64 range; so it depends on the boundary the dry-run writer
    draws through the length of that boundary only. *)
Theorem rangesMIMESize_wraps (rnd rnd' ctype : string) (size : Z)
    (ranges : list httpRange) :
  rangesMIMESize rnd ranges ctype size
  = wrap64 (partsLen false rnd ranges ctype size + len (closingBoundary rnd)
            + sumLengths ranges)
  /\ (String.length rnd = String.length rnd' ->
      rangesMIMESize rnd ranges ctype size = rangesMIMESize rnd' ranges ctype size).
Proof.
  assert (H : forall b, rangesMIMESize b ranges ctype size
                        = wrap64 (partsLen false b ranges ctype size
                                  + len (closingBoundary b) + sumLengths ranges)).
  { intros b. unfold rangesMIMESize, multipart.NewWriter.
    destruct (rangesMIMESize_loop_wrap ctype b size ranges false 0 0)
      as (lp' & c' & enc' & E & Hc & He).
    etransitivity.
    { apply (f_equal (fun x => let '(mw, encSize) := x in
                               let '(mw, _) := multipart.Close mw in
                               wrap64 (encSize + multipart.w mw)) E). }
    unfold multipart.Close.
    cbn [multipart.w multipart.boundary multipart.lastpart].
    fold (closingBoundary b). unfold ioWrite, countingWriter_Write.
    cbn [multipart.w]. rewrite Z.add_0_l in Hc, He.
    set (L := len (closingBoundary b)). set (P := partsLen false b ranges ctype size) in *.
    rewrite wrap64_add_r.
    replace (enc' + (c' + L)) with (c' + (enc' + L)) by lia.
    rewrite <- wrap64_add_l, Hc, wrap64_add_l.
    replace (P + (enc' + L)) with (enc' + (P + L)) by lia.
    rewrite <- wrap64_add_l, He, wrap64_add_l.
    f_equal. lia. }
  split; [apply H|]. intros Hlen. rewrite (H rnd), (H rnd').
  now rewrite (partsLen_boundary false rnd rnd' ranges ctype size Hlen),
    (len_closingBoundary_boundary rnd rnd' Hlen).
Qed.

(** X21. A tag that scanETag returns scans as itself with nothing left:
    the result of a scan is always a single complete entity tag. *)
Theorem scanETag_rescan (s etag remain : string) :
  scanETag s = (etag, remain) -> etag <> "" -> scanETag etag = (etag, "").
Proof.
  intros H Hne. destruct (scanETag_sound s etag remain H) as [[-> _] | [Ht _]];
    [congruence|].
  apply scanETag_complete; [exact Ht|]. rewrite sapp_nil_r.
  destruct (isETag_ends etag Ht) as (c & t' & -> & Hsp & _ & _ & Hl & _).
  now apply TrimString_id with (d := dquote).
Qed.

Lemma scanETag_rescan_witness :
  (scanETag listWeakThenXYZ = (weakABC, ", " +:+ tagXYZ) /\ weakABC <> "")
  /\ scanETag weakABC = (weakABC, "").
Proof.
  split; [split; [reflexivity | discriminate]|].
  apply (scanETag_rescan listWeakThenXYZ weakABC (", " +:+ tagXYZ));
    [reflexivity | discriminate].
Defined.

(** ** Directory listings and the file server *)

Section HtmlFacts.

Lemma htmlEscapeByte_safe (c : ascii) : allb htmlSafe (htmlEscapeByte c) = true.
Proof.
  unfold htmlEscapeByte.
  destruct (byte_eqb c "&"); [reflexivity|].
  destruct (byte_eqb c "<") eqn:H1; [reflexivity|].
  destruct (byte_eqb c ">") eqn:H2; [reflexivity|].
  destruct (byte_eqb c dquote) eqn:H3; [reflexivity|].
  destruct (byte_eqb c "'") eqn:H4; [reflexivity|].
  cbn [allb]. unfold htmlSafe. now rewrite H1, H2, H3, H4.
Qed.

Lemma htmlEscapeByte_plain (c : ascii) :
  htmlPlain c = true -> htmlEscapeByte c = String c "".
Proof.
  unfold htmlPlain, htmlSafe, htmlEscapeByte. intros H.
  repeat (apply andb_prop in H as [H ?]).
  repeat match goal with
         | Hn : negb _ = true |- _ => apply negb_true_iff in Hn; rewrite Hn
         end.
  reflexivity.
Qed.

Lemma htmlReplace_allb_safe (s : string) : allb htmlSafe (htmlReplace s) = true.
Proof.
  induction s as [|c s IH]; [reflexivity|]. cbn [htmlReplace].
  now rewrite allb_app, htmlEscapeByte_safe, IH.
Qed.

End HtmlFacts.

(** X22. Whatever name htmlReplacer escapes, the result contains none of
    the bytes [<], [>], the double quote and the single quote; and a name
    that contains none of these and no ampersand is returned unchanged. *)
Theorem htmlReplace_safe (s : string) :
  allb htmlSafe (htmlReplace s) = true
  /\ (allb htmlPlain s = true -> htmlReplace s = s).
Proof.
  split; [apply htmlReplace_allb_safe|].
  induction s as [|c s IH]; [reflexivity|]. cbn [htmlReplace allb].
  intros H. apply andb_prop in H as [Hc H].
  now rewrite (htmlEscapeByte_plain c Hc), (IH H).
Qed.

Section ListingFacts.

Variable urlString : string -> string.

Lemma dirList_files_map (dirs : list FileInfo) :
  dirList_files urlString dirs = listingOf urlString dirs.
Proof.
  unfold listingOf. induction dirs as [|d dirs IH]; [reflexivity|].
  cbn [dirList_files map]. rewrite IH. unfold listedName.
  now destruct (fiIsDir d).
Qed.

End ListingFacts.

(** X23. A directory listing hands the callback one entry per directory
    entry, in the order the directory was read (the later sort does not
    reach them), each with the URL of the listed name and the escaped
    listed name, directories with a trailing slash; every Name is free of
    [<], [>] and quotes.  When the directory read reports an error, the
    entries are dropped and the error callback gets status 500. *)
Theorem dirList_entries (urlString : string -> string) (h : fullHandler)
    (w : ResponseWriter) (r : Request) (f : File) :
  let files := listingOf urlString (fst (fEntries f)) in
  dirList urlString h w r f
  = match snd (fEntries f) with
    | None => dirListHandler h w r files
    | Some e => errHandler (callbacks h) w r http.StatusInternalServerError (Some e)
    end
  /\ List.length files = List.length (fst (fEntries f))
  /\ Forall (fun fe => allb htmlSafe (feName fe) = true) files.
Proof.
  intros files. subst files. split; [|split].
  - unfold dirList. destruct (fEntries f) as [dirs err]. cbn [fst snd].
    now rewrite dirList_files_map.
  - apply length_map.
  - unfold listingOf. apply Forall_map. apply Forall_forall. intros d _.
    cbn [feName]. apply htmlReplace_allb_safe.
Qed.

(** The listing of the sample directory: read order, escaped names. *)
Example dirList_pics :
  map feName (dirList_files sampleURLString picsEntries)
  = ["b&lt;1&gt;.png"; "a&amp;b/"; "a.png"].
Proof. reflexivity. Qed.

Section FileServerFacts.

Variable ParseTime : string -> option Time.
Variable FormatTime : Time -> string.
Variable TypeByExtension : string -> string.
Variable DetectContentType : string -> string.
Variable isNotExist : error -> bool.
Variable isPermission : error -> bool.
Variable pathBase : string -> string.
Variable pathClean : string -> string.
Variable urlString : string -> string.

Lemma lastByte_cons (t : string) (c : ascii) : lastByte (String c t) <> None.
Proof.
  revert c. induction t as [|c' t IH]; intros c; [discriminate|]. apply (IH c').
Qed.

Lemma servedPath_nonempty (u : URL) : lastByte (servedPath u) <> None.
Proof.
  unfold servedPath. destruct (HasPrefix (Path u) "/") eqn:H.
  - apply HasPrefix_app in H. rewrite H. apply lastByte_cons.
  - apply lastByte_cons.
Qed.

(** ServeHTTP, in terms of the path it hands on. *)
Lemma ServeHTTP_served (h : fullHandler) (rnd1 rnd2 : string) (w : ResponseWriter)
    (r : Request) (u : URL) :
  ServeHTTP ParseTime FormatTime TypeByExtension DetectContentType
    isNotExist isPermission pathBase pathClean urlString h rnd1 rnd2 w r u
  = serveFile ParseTime FormatTime TypeByExtension DetectContentType
      isNotExist isPermission pathBase urlString h rnd1 rnd2 w r
      (mkURL (servedPath u) (RawQuery u)) (root h) (pathClean (servedPath u)) true.
Proof.
  unfold ServeHTTP, servedPath. destruct u as [p q]. cbn [Path RawQuery].
  destruct (HasPrefix p "/"); reflexivity.
Qed.

Lemma localRedirect_effect (w : ResponseWriter) (u : URL) (newPath : string) :
  wEvents (localRedirect w u newPath) = (wEvents w ++ [EvWriteHeader 301])%list
  /\ http.Get (wHeader (localRedirect w u newPath)) "Location" = redirectTarget u newPath
  /\ forall k, k <> "Location" -> wHeader (localRedirect w u newPath) !! k = wHeader w !! k.
Proof.
  unfold localRedirect, redirectTarget. cbn [WriteHeader withHeader wEvents wHeader].
  split; [reflexivity|]. split.
  - rewrite Get_Set_eq. now destruct (isEmpty (RawQuery u)).
  - intros k Hk. unfold http.Set_. now rewrite lookup_insert_ne by congruence.
Qed.

Lemma HasSuffix_slash (p suffix : string) :
  HasSuffix p suffix = true -> HasSuffix ("/" +:+ p) suffix = true.
Proof.
  unfold HasSuffix. intros H. apply andb_prop in H as [Hl He].
  apply Nat.leb_le in Hl. cbn [String.append String.length].
  apply andb_true_intro. split; [apply Nat.leb_le; lia|].
  replace (S (String.length p) - String.length suffix)%nat
    with (S (String.length p - String.length suffix)) by lia.
  exact He.
Qed.

Lemma servedPath_suffix (u : URL) (suffix : string) :
  HasSuffix (Path u) suffix = true -> HasSuffix (servedPath u) suffix = true.
Proof.
  intros H. unfold servedPath. destruct (HasPrefix (Path u) "/"); [exact H|].
  now apply HasSuffix_slash.
Qed.

End FileServerFacts.

Section ServeFileFacts.

Variable ParseTime : string -> option Time.
Variable FormatTime : Time -> string.
Variable TypeByExtension : string -> string.
Variable DetectContentType : string -> string.
Variable isNotExist : error -> bool.
Variable isPermission : error -> bool.
Variable pathBase : string -> string.
Variable urlString : string -> string.

Lemma lastByte_None (s : string) : lastByte s = None -> s = "".
Proof. destruct s as [|c t]; [reflexivity|]. intros H. now apply lastByte_cons in H. Qed.

(** serveFile on a file that opens, for a non-empty request path. *)
Lemma serveFile_opened (h : fullHandler) (rnd1 rnd2 : string) (w : ResponseWriter)
    (r : Request) (u : URL) (fsys : string -> File + error) (name : string)
    (f : File) (d : FileInfo) (c : ascii) :
  HasSuffix (Path u) "/index.html" = false ->
  fsys name = inl f -> fStat f = inl d -> lastByte (Path u) = Some c ->
  serveFile ParseTime FormatTime TypeByExtension DetectContentType
    isNotExist isPermission pathBase urlString h rnd1 rnd2 w r u fsys name true
  = Some (if fiIsDir d
          then if byte_eqb c "/"
               then serveDirectory ParseTime FormatTime TypeByExtension
                      DetectContentType urlString h rnd1 rnd2 w r fsys name f d
               else localRedirect w u (pathBase (Path u) +:+ "/")
          else if byte_eqb c "/"
               then localRedirect w u ("../" +:+ pathBase (Path u))
               else serveContent ParseTime FormatTime TypeByExtension
                      DetectContentType (callbacks h) rnd1 rnd2 w r (fiName d)
                      (fiModTime d) (fiSize d, None) (fContent f)).
Proof.
  intros Hidx Hopen Hstat Hlast. unfold serveFile, serveDirectory.
  rewrite Hidx, Hopen, Hstat, Hlast.
  destruct (fiIsDir d) eqn:Hd.
  - destruct (byte_eqb c "/") eqn:Hc; cbn [negb]; [|reflexivity].
    rewrite orb_false_r.
    assert (He : isEmpty (Path u) = false).
    { apply isEmpty_false. intros E. rewrite E in Hlast. discriminate. }
    rewrite He. cbn [andb].
    destruct (serveFile_index fsys name f d) as [f' d'].
    destruct (fiIsDir d');
      [destruct (condResult_eqb _ _)|]; reflexivity.
  - destruct (byte_eqb c "/") eqn:Hc; [reflexivity|]. cbn [andb].
    now rewrite Hd.
Qed.

End ServeFileFacts.

Ltac all_branches :=
  repeat match goal with
         | |- context [let '(_, _) := ?p in _] => destruct p
         | |- context [if ?b then _ else _] => destruct b
         end.

(** X24. serveFile runs into the out-of-range index of [url[len(url)-1]]
    exactly when it is asked to redirect, the path of the request is empty
    and the named file opens and can be inspected; ServeHTTP, which gives
    the path a leading slash first, never does, whatever the request and the
    file system. *)
Theorem serveFile_panics_iff (ParseTime : string -> option Time)
    (FormatTime : Time -> string) (TypeByExtension DetectContentType : string -> string)
    (isNotExist isPermission : error -> bool) (pathBase pathClean urlString : string -> string)
    (h : fullHandler) (rnd1 rnd2 : string) (w : ResponseWriter) (r : Request) :
  (forall (u : URL) (fsys : string -> File + error) (name : string) (redirect : bool),
      serveFile ParseTime FormatTime TypeByExtension DetectContentType
        isNotExist isPermission pathBase urlString h rnd1 rnd2 w r u fsys name redirect
      = None
      <-> redirect = true /\ Path u = ""
          /\ exists f d, fsys name = inl f /\ fStat f = inl d)
  /\ forall u : URL,
      exists res,
        ServeHTTP ParseTime FormatTime TypeByExtension DetectContentType
          isNotExist isPermission pathBase pathClean urlString h rnd1 rnd2 w r u
        = Some res.
Proof.
  assert (Hiff : forall u fsys name redirect,
             serveFile ParseTime FormatTime TypeByExtension DetectContentType
               isNotExist isPermission pathBase urlString h rnd1 rnd2 w r u fsys name
               redirect = None
             <-> redirect = true /\ Path u = ""
                 /\ exists f d, fsys name = inl f /\ fStat f = inl d).
  { intros u fsys name redirect. split.
    - unfold serveFile. destruct (HasSuffix (Path u) "/index.html"); [discriminate|].
      destruct (fsys name) as [f|e] eqn:Ho; [|discriminate].
      destruct (fStat f) as [d|e] eqn:Hs; [|discriminate].
      destruct redirect.
      + destruct (lastByte (Path u)) as [c|] eqn:Hl.
        * all_branches; discriminate.
        * intros _. apply lastByte_None in Hl. eauto 6.
      + all_branches; discriminate.
    - intros (-> & Hp & f & d & Ho & Hs). unfold serveFile.
      rewrite Hp, Ho, Hs. reflexivity. }
  split; [exact Hiff|]. intros u. rewrite ServeHTTP_served.
  destruct (serveFile _ _ _ _ _ _ _ _ _ _ _ _ _ _ _ _ _) as [res|] eqn:E; [eauto|].
  apply Hiff in E as (_ & Hp & _). cbn [Path] in Hp.
  pose proof (servedPath_nonempty u) as Hn. rewrite Hp in Hn. now elim Hn.
Qed.

(** X25. A request whose path ends in /index.html is answered with a
    permanent redirect to ./ and nothing else: status 301, the Location ./
    followed by the query of the request if there is one, every other
    header as it was; no file is opened and no callback is called. *)
Theorem index_html_redirect (ParseTime : string -> option Time)
    (FormatTime : Time -> string) (TypeByExtension DetectContentType : string -> string)
    (isNotExist isPermission : error -> bool) (pathBase pathClean urlString : string -> string)
    (h : fullHandler) (rnd1 rnd2 : string) (w : ResponseWriter) (r : Request) (u : URL) :
  HasSuffix (Path u) "/index.html" = true ->
  exists res,
    (forall h' : fullHandler,
        ServeHTTP ParseTime FormatTime TypeByExtension DetectContentType
          isNotExist isPermission pathBase pathClean urlString h' rnd1 rnd2 w r u
        = Some res)
    /\ wEvents res = (wEvents w ++ [EvWriteHeader 301])%list
    /\ http.Get (wHeader res) "Location" = redirectTarget u "./"
    /\ forall k, k <> "Location" -> wHeader res !! k = wHeader w !! k.
Proof.
  intros Hidx. exists (localRedirect w (mkURL (servedPath u) (RawQuery u)) "./").
  split.
  - intros h'. rewrite ServeHTTP_served. unfold serveFile. cbn [Path].
    now rewrite (servedPath_suffix u _ Hidx).
  - exact (localRedirect_effect w (mkURL (servedPath u) (RawQuery u)) "./").
Qed.

Lemma index_html_redirect_witness :
  HasSuffix (Path (mkURL "docs/index.html" "x=1")) "/index.html" = true
  /\ exists res,
    (forall h' : fullHandler,
        ServeHTTP noParseTime sampleFormatTime sampleTypeByExtension sampleDetect
          sampleIsNotExist sampleIsPermission sampleBase sampleClean sampleURLString
          h' "AAAA" "BBBB" emptyResponse plainGet (mkURL "docs/index.html" "x=1")
        = Some res)
    /\ wEvents res = (wEvents emptyResponse ++ [EvWriteHeader 301])%list
    /\ http.Get (wHeader res) "Location" = redirectTarget (mkURL "docs/index.html" "x=1") "./"
    /\ forall k, k <> "Location" -> wHeader res !! k = wHeader emptyResponse !! k.
Proof.
  split; [reflexivity|].
  apply (index_html_redirect noParseTime sampleFormatTime sampleTypeByExtension
           sampleDetect sampleIsNotExist sampleIsPermission sampleBase sampleClean
           sampleURLString sampleFull "AAAA" "BBBB" emptyResponse plainGet
           (mkURL "docs/index.html" "x=1")).
  reflexivity.
Defined.

Lemma ServeHTTP_opened (ParseTime : string -> option Time)
    (FormatTime : Time -> string) (TypeByExtension DetectContentType : string -> string)
    (isNotExist isPermission : error -> bool) (pathBase pathClean urlString : string -> string)
    (h : fullHandler) (rnd1 rnd2 : string) (w : ResponseWriter) (r : Request) (u : URL)
    (f : File) (d : FileInfo) :
  HasSuffix (servedPath u) "/index.html" = false ->
  root h (pathClean (servedPath u)) = inl f -> fStat f = inl d ->
  ServeHTTP ParseTime FormatTime TypeByExtension DetectContentType
    isNotExist isPermission pathBase pathClean urlString h rnd1 rnd2 w r u
  = Some (let u' := mkURL (servedPath u) (RawQuery u) in
          if fiIsDir d
          then if endsInSlash (servedPath u)
               then serveDirectory ParseTime FormatTime TypeByExtension
                      DetectContentType urlString h rnd1 rnd2 w r (root h)
                      (pathClean (servedPath u)) f d
               else localRedirect w u' (pathBase (servedPath u) +:+ "/")
          else if endsInSlash (servedPath u)
               then localRedirect w u' ("../" +:+ pathBase (servedPath u))
               else serveContent ParseTime FormatTime TypeByExtension
                      DetectContentType (callbacks h) rnd1 rnd2 w r (fiName d)
                      (fiModTime d) (fiSize d, None) (fContent f)).
Proof.
  intros Hidx Hopen Hstat. rewrite ServeHTTP_served.
  destruct (lastByte (servedPath u)) as [c|] eqn:Hl;
    [|now apply servedPath_nonempty in Hl].
  rewrite (serveFile_opened ParseTime FormatTime TypeByExtension DetectContentType
             isNotExist isPermission pathBase urlString h rnd1 rnd2 w r
             (mkURL (servedPath u) (RawQuery u)) (root h) _ f d c Hidx Hopen Hstat Hl).
  unfold endsInSlash. rewrite Hl. reflexivity.
Qed.

(** X26. ServeHTTP makes the trailing slash of the path agree with the
    kind of the file: a directory asked for without a trailing slash is
    answered with 301 and the Location [base/], a regular file asked for
    with a trailing slash with 301 and the Location [../base], where base
    is path.Base of the request path; the query of the request is carried
    over, and nothing is written besides the status. *)
Theorem canonical_slash_redirect (ParseTime : string -> option Time)
    (FormatTime : Time -> string) (TypeByExtension DetectContentType : string -> string)
    (isNotExist isPermission : error -> bool) (pathBase pathClean urlString : string -> string)
    (h : fullHandler) (rnd1 rnd2 : string) (w : ResponseWriter) (r : Request) (u : URL)
    (f : File) (d : FileInfo) :
  HasSuffix (servedPath u) "/index.html" = false ->
  root h (pathClean (servedPath u)) = inl f -> fStat f = inl d ->
  fiIsDir d = negb (endsInSlash (servedPath u)) ->
  exists res,
    ServeHTTP ParseTime FormatTime TypeByExtension DetectContentType
      isNotExist isPermission pathBase pathClean urlString h rnd1 rnd2 w r u
    = Some res
    /\ wEvents res = (wEvents w ++ [EvWriteHeader 301])%list
    /\ http.Get (wHeader res) "Location"
       = redirectTarget u (if fiIsDir d
                           then pathBase (servedPath u) +:+ "/"
                           else "../" +:+ pathBase (servedPath u))
    /\ forall k, k <> "Location" -> wHeader res !! k = wHeader w !! k.
Proof.
  intros Hidx Hopen Hstat Hkind.
  rewrite (ServeHTTP_opened ParseTime FormatTime TypeByExtension DetectContentType
             isNotExist isPermission pathBase pathClean urlString h rnd1 rnd2 w r u
             f d Hidx Hopen Hstat).
  cbv zeta. rewrite Hkind.
  destruct (endsInSlash (servedPath u)); cbn [negb];
    (eexists; split; [reflexivity|]);
    match goal with
    | |- context [localRedirect w ?u' ?p] => exact (localRedirect_effect w u' p)
    end.
Qed.

Lemma canonical_slash_redirect_witness :
  (HasSuffix (servedPath (mkURL "/docs" "")) "/index.html" = false
   /\ root sampleFull (sampleClean (servedPath (mkURL "/docs" "")))
      = inl (mkFile (inl (dirInfo "docs")) (mkContent "" 0) ([], None))
   /\ fStat (mkFile (inl (dirInfo "docs")) (mkContent "" 0) ([], None))
      = inl (dirInfo "docs")
   /\ fiIsDir (dirInfo "docs") = negb (endsInSlash (servedPath (mkURL "/docs" ""))))
  /\ exists res,
      ServeHTTP noParseTime sampleFormatTime sampleTypeByExtension sampleDetect
        sampleIsNotExist sampleIsPermission sampleBase sampleClean sampleURLString
        sampleFull "AAAA" "BBBB" emptyResponse plainGet (mkURL "/docs" "")
      = Some res
      /\ wEvents res = (wEvents emptyResponse ++ [EvWriteHeader 301])%list
      /\ http.Get (wHeader res) "Location"
         = redirectTarget (mkURL "/docs" "")
             (if fiIsDir (dirInfo "docs")
              then sampleBase (servedPath (mkURL "/docs" "")) +:+ "/"
              else "../" +:+ sampleBase (servedPath (mkURL "/docs" "")))
      /\ forall k, k <> "Location" -> wHeader res !! k = wHeader emptyResponse !! k.
Proof.
  split; [repeat split|].
  apply (canonical_slash_redirect noParseTime sampleFormatTime sampleTypeByExtension
           sampleDetect sampleIsNotExist sampleIsPermission sampleBase sampleClean
           sampleURLString sampleFull "AAAA" "BBBB" emptyResponse plainGet
           (mkURL "/docs" "") (mkFile (inl (dirInfo "docs")) (mkContent "" 0) ([], None))
           (dirInfo "docs")); reflexivity.
Defined.

(** The two redirects on the sample file system. *)
Example slash_redirect_samples :
  (exists res,
      ServeHTTP noParseTime sampleFormatTime sampleTypeByExtension sampleDetect
        sampleIsNotExist sampleIsPermission sampleBase sampleClean sampleURLString
        sampleFull "AAAA" "BBBB" emptyResponse plainGet (mkURL "/docs" "v=2")
      = Some res
      /\ statusOf (wEvents res) = Some 301
      /\ http.Get (wHeader res) "Location" = "docs/?v=2")
  /\ exists res,
      ServeHTTP noParseTime sampleFormatTime sampleTypeByExtension sampleDetect
        sampleIsNotExist sampleIsPermission sampleBase sampleClean sampleURLString
        sampleFull "AAAA" "BBBB" emptyResponse plainGet (mkURL "a.txt/" "")
      = Some res
      /\ statusOf (wEvents res) = Some 301
      /\ http.Get (wHeader res) "Location" = "../a.txt".
Proof. split; eexists; repeat split; vm_compute; reflexivity. Qed.

(** X27. When the file cannot be opened, or opens but cannot be
    inspected, ServeHTTP writes nothing itself and hands the error to the
    error callback, with status 404 if the error is fs.ErrNotExist (also
    when it is fs.ErrPermission as well), 403 if it is fs.ErrPermission
    only, and 500 otherwise. *)
Theorem open_error_status (ParseTime : string -> option Time)
    (FormatTime : Time -> string) (TypeByExtension DetectContentType : string -> string)
    (isNotExist isPermission : error -> bool) (pathBase pathClean urlString : string -> string)
    (h : fullHandler) (rnd1 rnd2 : string) (w : ResponseWriter) (r : Request) (u : URL)
    (err : error) :
  HasSuffix (servedPath u) "/index.html" = false ->
  root h (pathClean (servedPath u)) = inr err
  \/ (exists f, root h (pathClean (servedPath u)) = inl f /\ fStat f = inr err) ->
  ServeHTTP ParseTime FormatTime TypeByExtension DetectContentType
    isNotExist isPermission pathBase pathClean urlString h rnd1 rnd2 w r u
  = Some (errHandler (callbacks h) w r
            (if isNotExist err then 404
             else if isPermission err then 403
             else http.StatusInternalServerError)
            (Some err)).
Proof.
  intros Hidx Herr. rewrite ServeHTTP_served. unfold serveFile, toHTTPError.
  cbn [Path]. rewrite Hidx.
  destruct Herr as [Ho | (f & Ho & Hs)]; rewrite Ho; [|rewrite Hs];
    destruct (isNotExist err), (isPermission err); reflexivity.
Qed.

Lemma open_error_status_witness :
  (HasSuffix (servedPath (mkURL "/missing" "")) "/index.html" = false
   /\ (root sampleFull (sampleClean (servedPath (mkURL "/missing" ""))) = inr EOF
       \/ exists f, root sampleFull (sampleClean (servedPath (mkURL "/missing" ""))) = inl f
                    /\ fStat f = inr EOF))
  /\ ServeHTTP noParseTime sampleFormatTime sampleTypeByExtension sampleDetect
       sampleIsNotExist sampleIsPermission sampleBase sampleClean sampleURLString
       sampleFull "AAAA" "BBBB" emptyResponse plainGet (mkURL "/missing" "")
     = Some (errHandler (callbacks sampleFull) emptyResponse plainGet
               (if sampleIsNotExist EOF then 404
                else if sampleIsPermission EOF then 403
                else http.StatusInternalServerError)
               (Some EOF)).
Proof.
  split; [split; [reflexivity|left; reflexivity]|].
  apply (open_error_status noParseTime sampleFormatTime sampleTypeByExtension
           sampleDetect sampleIsNotExist sampleIsPermission sampleBase sampleClean
           sampleURLString sampleFull "AAAA" "BBBB" emptyResponse plainGet
           (mkURL "/missing" "") EOF); [reflexivity|left; reflexivity].
Defined.

(** X28. A directory asked for with its trailing slash, in which
    index.html opens as a regular file, is answered with that file: the
    response of ServeHTTP is the one serveContent gives for the name, the
    modification time, the size and the bytes of index.html, not those of
    the directory. *)
Theorem directory_index_served (ParseTime : string -> option Time)
    (FormatTime : Time -> string) (TypeByExtension DetectContentType : string -> string)
    (isNotExist isPermission : error -> bool) (pathBase pathClean urlString : string -> string)
    (h : fullHandler) (rnd1 rnd2 : string) (w : ResponseWriter) (r : Request) (u : URL)
    (f ff : File) (d dd : FileInfo) :
  HasSuffix (servedPath u) "/index.html" = false ->
  root h (pathClean (servedPath u)) = inl f -> fStat f = inl d ->
  fiIsDir d = true -> endsInSlash (servedPath u) = true ->
  root h (indexOf (pathClean (servedPath u))) = inl ff -> fStat ff = inl dd ->
  fiIsDir dd = false ->
  ServeHTTP ParseTime FormatTime TypeByExtension DetectContentType
    isNotExist isPermission pathBase pathClean urlString h rnd1 rnd2 w r u
  = Some (serveContent ParseTime FormatTime TypeByExtension DetectContentType
            (callbacks h) rnd1 rnd2 w r (fiName dd) (fiModTime dd) (fiSize dd, None)
            (fContent ff)).
Proof.
  intros Hidx Hopen Hstat Hdir Hslash Hio His Hreg.
  rewrite (ServeHTTP_opened ParseTime FormatTime TypeByExtension DetectContentType
             isNotExist isPermission pathBase pathClean urlString h rnd1 rnd2 w r u
             f d Hidx Hopen Hstat).
  cbv zeta. rewrite Hdir, Hslash. unfold serveDirectory, serveFile_index.
  fold (indexOf (pathClean (servedPath u))). now rewrite Hio, His, Hreg.
Qed.

Lemma directory_index_served_witness :
  (HasSuffix (servedPath (mkURL "/docs/" "")) "/index.html" = false
   /\ root sampleFull (sampleClean (servedPath (mkURL "/docs/" "")))
      = inl (mkFile (inl (dirInfo "docs")) (mkContent "" 0) ([], None))
   /\ fStat (mkFile (inl (dirInfo "docs")) (mkContent "" 0) ([], None))
      = inl (dirInfo "docs")
   /\ fiIsDir (dirInfo "docs") = true
   /\ endsInSlash (servedPath (mkURL "/docs/" "")) = true
   /\ root sampleFull (indexOf (sampleClean (servedPath (mkURL "/docs/" ""))))
      = inl (mkFile (inl (fileInfo "index.html" 10)) tenBytes ([], None))
   /\ fStat (mkFile (inl (fileInfo "index.html" 10)) tenBytes ([], None))
      = inl (fileInfo "index.html" 10)
   /\ fiIsDir (fileInfo "index.html" 10) = false)
  /\ ServeHTTP noParseTime sampleFormatTime sampleTypeByExtension sampleDetect
       sampleIsNotExist sampleIsPermission sampleBase sampleClean sampleURLString
       sampleFull "AAAA" "BBBB" emptyResponse plainGet (mkURL "/docs/" "")
     = Some (serveContent noParseTime sampleFormatTime sampleTypeByExtension
               sampleDetect (callbacks sampleFull) "AAAA" "BBBB" emptyResponse plainGet
               (fiName (fileInfo "index.html" 10)) (fiModTime (fileInfo "index.html" 10))
               (fiSize (fileInfo "index.html" 10), None)
               (fContent (mkFile (inl (fileInfo "index.html" 10)) tenBytes ([], None)))).
Proof.
  split; [repeat split|].
  apply (directory_index_served noParseTime sampleFormatTime sampleTypeByExtension
           sampleDetect sampleIsNotExist sampleIsPermission sampleBase sampleClean
           sampleURLString sampleFull "AAAA" "BBBB" emptyResponse plainGet
           (mkURL "/docs/" "")
           (mkFile (inl (dirInfo "docs")) (mkContent "" 0) ([], None))
           (mkFile (inl (fileInfo "index.html" 10)) tenBytes ([], None))
           (dirInfo "docs") (fileInfo "index.html" 10)); reflexivity.
Defined.

(** The index page of the sample directory: 200 and the ten bytes. *)
Example directory_index_sample :
  exists res,
    ServeHTTP noParseTime sampleFormatTime sampleTypeByExtension sampleDetect
      sampleIsNotExist sampleIsPermission sampleBase sampleClean sampleURLString
      sampleFull "AAAA" "BBBB" emptyResponse plainGet (mkURL "/docs/" "")
    = Some res
    /\ statusOf (wEvents res) = Some 200
    /\ bodyOf (wEvents res) = "0123456789"
    /\ http.Get (wHeader res) "Content-Length" = "10".
Proof. eexists; repeat split; vm_compute; reflexivity. Qed.

(** X29. A directory asked for with its trailing slash, in which no
    index.html can be opened and inspected, is listed, and the failure to
    open index.html is reported to nobody: unless If-Modified-Since makes
    the answer a 304, Last-Modified is set from the directory and the
    listing callback gets the entries of the directory in read order; an
    error of the directory read goes to the error callback with 500, after
    Last-Modified was set. *)
Theorem directory_listing_served (ParseTime : string -> option Time)
    (FormatTime : Time -> string) (TypeByExtension DetectContentType : string -> string)
    (isNotExist isPermission : error -> bool) (pathBase pathClean urlString : string -> string)
    (h : fullHandler) (rnd1 rnd2 : string) (w : ResponseWriter) (r : Request) (u : URL)
    (f : File) (d : FileInfo) :
  HasSuffix (servedPath u) "/index.html" = false ->
  root h (pathClean (servedPath u)) = inl f -> fStat f = inl d ->
  fiIsDir d = true -> endsInSlash (servedPath u) = true ->
  (forall ff dd, root h (indexOf (pathClean (servedPath u))) = inl ff ->
                 fStat ff = inl dd -> False) ->
  ServeHTTP ParseTime FormatTime TypeByExtension DetectContentType
    isNotExist isPermission pathBase pathClean urlString h rnd1 rnd2 w r u
  = Some (if condResult_eqb (checkIfModifiedSince ParseTime r (fiModTime d)) condFalse
          then writeNotModified w
          else
            let w' := setLastModified FormatTime w (fiModTime d) in
            match snd (fEntries f) with
            | None => dirListHandler h w' r (listingOf urlString (fst (fEntries f)))
            | Some e =>
                errHandler (callbacks h) w' r http.StatusInternalServerError (Some e)
            end).
Proof.
  intros Hidx Hopen Hstat Hdir Hslash Hno.
  rewrite (ServeHTTP_opened ParseTime FormatTime TypeByExtension DetectContentType
             isNotExist isPermission pathBase pathClean urlString h rnd1 rnd2 w r u
             f d Hidx Hopen Hstat).
  cbv zeta. rewrite Hdir, Hslash. unfold serveDirectory.
  assert (Hi : serveFile_index (root h) (pathClean (servedPath u)) f d = (f, d)).
  { unfold serveFile_index. fold (indexOf (pathClean (servedPath u))).
    destruct (root h (indexOf (pathClean (servedPath u)))) as [ff|e] eqn:Hio;
      [|reflexivity].
    destruct (fStat ff) as [dd|e] eqn:His; [|reflexivity].
    now elim (Hno ff dd). }
  rewrite Hi, Hdir. destruct (condResult_eqb _ _); [reflexivity|].
  cbv zeta. unfold dirList. destruct (fEntries f) as [dirs err]. cbn [fst snd].
  now rewrite dirList_files_map.
Qed.

Lemma directory_listing_served_witness :
  (HasSuffix (servedPath (mkURL "/pics/" "")) "/index.html" = false
   /\ root sampleFull (sampleClean (servedPath (mkURL "/pics/" "")))
      = inl (mkFile (inl (dirInfo "pics")) (mkContent "" 0) (picsEntries, None))
   /\ fStat (mkFile (inl (dirInfo "pics")) (mkContent "" 0) (picsEntries, None))
      = inl (dirInfo "pics")
   /\ fiIsDir (dirInfo "pics") = true
   /\ endsInSlash (servedPath (mkURL "/pics/" "")) = true
   /\ (forall ff dd,
          root sampleFull (indexOf (sampleClean (servedPath (mkURL "/pics/" "")))) = inl ff ->
          fStat ff = inl dd -> False))
  /\ ServeHTTP noParseTime sampleFormatTime sampleTypeByExtension sampleDetect
       sampleIsNotExist sampleIsPermission sampleBase sampleClean sampleURLString
       sampleFull "AAAA" "BBBB" emptyResponse plainGet (mkURL "/pics/" "")
     = Some (if condResult_eqb
                  (checkIfModifiedSince noParseTime plainGet (fiModTime (dirInfo "pics")))
                  condFalse
             then writeNotModified emptyResponse
             else
               let w' := setLastModified sampleFormatTime emptyResponse
                           (fiModTime (dirInfo "pics")) in
               match snd (fEntries (mkFile (inl (dirInfo "pics")) (mkContent "" 0)
                                      (picsEntries, None))) with
               | None =>
                   dirListHandler sampleFull w' plainGet
                     (listingOf sampleURLString
                        (fst (fEntries (mkFile (inl (dirInfo "pics")) (mkContent "" 0)
                                          (picsEntries, None)))))
               | Some e =>
                   errHandler (callbacks sampleFull) w' plainGet
                     http.StatusInternalServerError (Some e)
               end).
Proof.
  split; [repeat split; intros ff dd H; vm_compute in H; discriminate|].
  apply (directory_listing_served noParseTime sampleFormatTime sampleTypeByExtension
           sampleDetect sampleIsNotExist sampleIsPermission sampleBase sampleClean
           sampleURLString sampleFull "AAAA" "BBBB" emptyResponse plainGet
           (mkURL "/pics/" "")
           (mkFile (inl (dirInfo "pics")) (mkContent "" 0) (picsEntries, None))
           (dirInfo "pics")); try reflexivity.
  intros ff dd H; vm_compute in H; discriminate.
Defined.

(** The listing of the sample directory as the sample callback writes it. *)
Example directory_listing_sample :
  exists res,
    ServeHTTP noParseTime sampleFormatTime sampleTypeByExtension sampleDetect
      sampleIsNotExist sampleIsPermission sampleBase sampleClean sampleURLString
      sampleFull "AAAA" "BBBB" emptyResponse plainGet (mkURL "/pics/" "")
    = Some res
    /\ bodyOf (wEvents res) = "b&lt;1&gt;.png" +:+ CRLF +:+ "a&amp;b/" +:+ CRLF +:+ "a.png"
    /\ http.Get (wHeader res) "Last-Modified" = "Tue, 14 Nov 2023 22:13:20 GMT".
Proof. eexists; repeat split; vm_compute; reflexivity. Qed.

(** X30. A regular file asked for without a trailing slash is answered
    by serveContent on that file: its base name (for the content type), its
    modification time, its size and its bytes; so everything shown of
    serveContent holds of ServeHTTP on such a path. *)
Theorem regular_file_served (ParseTime : string -> option Time)
    (FormatTime : Time -> string) (TypeByExtension DetectContentType : string -> string)
    (isNotExist isPermission : error -> bool) (pathBase pathClean urlString : string -> string)
    (h : fullHandler) (rnd1 rnd2 : string) (w : ResponseWriter) (r : Request) (u : URL)
    (f : File) (d : FileInfo) :
  HasSuffix (servedPath u) "/index.html" = false ->
  root h (pathClean (servedPath u)) = inl f -> fStat f = inl d ->
  fiIsDir d = false -> endsInSlash (servedPath u) = false ->
  ServeHTTP ParseTime FormatTime TypeByExtension DetectContentType
    isNotExist isPermission pathBase pathClean urlString h rnd1 rnd2 w r u
  = Some (serveContent ParseTime FormatTime TypeByExtension DetectContentType
            (callbacks h) rnd1 rnd2 w r (fiName d) (fiModTime d) (fiSize d, None)
            (fContent f)).
Proof.
  intros Hidx Hopen Hstat Hreg Hslash.
  rewrite (ServeHTTP_opened ParseTime FormatTime TypeByExtension DetectContentType
             isNotExist isPermission pathBase pathClean urlString h rnd1 rnd2 w r u
             f d Hidx Hopen Hstat).
  cbv zeta. now rewrite Hreg, Hslash.
Qed.

Lemma regular_file_served_witness :
  (HasSuffix (servedPath (mkURL "a.txt" "")) "/index.html" = false
   /\ root sampleFull (sampleClean (servedPath (mkURL "a.txt" "")))
      = inl (mkFile (inl (fileInfo "a.txt" 10)) tenBytes ([], None))
   /\ fStat (mkFile (inl (fileInfo "a.txt" 10)) tenBytes ([], None))
      = inl (fileInfo "a.txt" 10)
   /\ fiIsDir (fileInfo "a.txt" 10) = false
   /\ endsInSlash (servedPath (mkURL "a.txt" "")) = false)
  /\ ServeHTTP noParseTime sampleFormatTime sampleTypeByExtension sampleDetect
       sampleIsNotExist sampleIsPermission sampleBase sampleClean sampleURLString
       sampleFull "AAAA" "BBBB" emptyResponse plainGet (mkURL "a.txt" "")
     = Some (serveContent noParseTime sampleFormatTime sampleTypeByExtension
               sampleDetect (callbacks sampleFull) "AAAA" "BBBB" emptyResponse plainGet
               (fiName (fileInfo "a.txt" 10)) (fiModTime (fileInfo "a.txt" 10))
               (fiSize (fileInfo "a.txt" 10), None)
               (fContent (mkFile (inl (fileInfo "a.txt" 10)) tenBytes ([], None)))).
Proof.
  split; [repeat split|].
  apply (regular_file_served noParseTime sampleFormatTime sampleTypeByExtension
           sampleDetect sampleIsNotExist sampleIsPermission sampleBase sampleClean
           sampleURLString sampleFull "AAAA" "BBBB" emptyResponse plainGet
           (mkURL "a.txt" "") (mkFile (inl (fileInfo "a.txt" 10)) tenBytes ([], None))
           (fileInfo "a.txt" 10)); reflexivity.
Defined.
